(** * multigit: the task / task-group execution engine

    A shallow embedding of [src/mg_exec_task_item.py]: the task life cycle
    ([MgExecTask]), the task group ([MgExecTaskGroup]), the two precondition
    factories and the group runner ([MgExecItemMultiCmd]) together with the
    per-task tree item ([MgExecItemOneCmd]) it creates.

    Modelling conventions.
    - Python objects that are mutated in place live in one store (the runner
      record); a tree item refers to its task by the task's position in
      [taskGroup.tasks], so that all aliases see the same task state.
    - A method is a computation in a small state-and-exception monad: a Python
      exception leaves the store as mutated so far.
    - Qt presentation calls (icons, texts, expansion, column sizes) are not
      modelled, and neither are the [except RuntimeError] branches, which are
      taken only once the dialog's C++ objects have been destroyed.
    - What the engine does to its collaborators is recorded, oldest first, in
      a trace: dispatching [_do_run] / [_do_abort], emitting [sig_task_done],
      calling [cbExecDone], refreshing the repository.

    The later parts embed the git task ([MgExecTaskGit]) and, from
    [src/mg_dialog_git_switch_delete_branch.py], the functions of the branch
    dialog that compute on branch names and build the git commands.  The tree
    widget of the dialog and [analyseRepoBranchOrTagInfo], whose result
    order is the iteration order of Python sets, are not modelled. *)

From Stdlib Require Import ZArith Bool String List Lia.
From stdpp Require Import base list strings.

Open Scope string_scope.
Open Scope list_scope.

(** ** Enumerations *)

Module PreConditionState.
Inductive t := NotFulfilled | FulFilled | Errored.
End PreConditionState.

Inductive TaskState := NotStarted | Started | Successful | Errored.

Definition TaskState_eqb (a b : TaskState) : bool :=
  match a, b with
  | NotStarted, NotStarted | Started, Started
  | Successful, Successful | Errored, Errored => true
  | _, _ => false
  end.

(** Python exceptions the modelled code can raise.  [DanglingRef] is not a
    Python exception: it stands for a tree item that refers to a task the
    store does not hold, which no store built by the constructors contains. *)
Inductive PyExn :=
  AssertionError | IndexError | ValueError | AttributeError | RuntimeError
| DanglingRef.

(** ** A state-and-exception monad *)

Inductive Res (S A : Type) :=
| Ok (a : A) (s : S)
| Raise (e : PyExn) (s : S).
Arguments Ok {S A} a s.
Arguments Raise {S A} e s.

Definition M (S A : Type) : Type := S -> Res S A.

Definition ret {S A} (a : A) : M S A := fun s => Ok a s.

Definition bind {S A B} (m : M S A) (k : A -> M S B) : M S B :=
  fun s => match m s with
           | Ok a s' => k a s'
           | Raise e s' => Raise e s'
           end.

Definition raise {S A} (e : PyExn) : M S A := fun s => Raise e s.
Definition get {S} : M S S := fun s => Ok s s.
Definition gets {S A} (f : S -> A) : M S A := fun s => Ok (f s) s.
Definition modify {S} (f : S -> S) : M S unit := fun s => Ok tt (f s).
Definition assert {S} (b : bool) : M S unit :=
  if b then ret tt else raise AssertionError.

(** The store a computation ends in, whether it returned or raised. *)
Definition final {S A} (r : Res S A) : S :=
  match r with Ok _ s => s | Raise _ s => s end.

Declare Scope py_scope.
Delimit Scope py_scope with py.
Notation "x <- m ;; k" := (bind m (fun x => k))
  (at level 20, m at level 99, k at level 200, only parsing) : py_scope.
Notation "m ;; k" := (bind m (fun _ => k))
  (at level 100, k at level 200, only parsing, right associativity) : py_scope.
Open Scope py_scope.

(** ** MgExecTask *)

Record MgRepoInfo := { name : string; fullpath : string }.

Record MgExecTask := {
  desc : string;
  task_state : TaskState;
  cmd_line : string;
  ignore_failure : bool
}.

(** [MgExecTask.__init__] *)
Definition MgExecTask_init (desc : string) (ignore_failure : bool) : MgExecTask :=
  {| desc := desc; task_state := NotStarted; cmd_line := "";
     ignore_failure := ignore_failure |}.

Definition with_task_state (st : TaskState) (t : MgExecTask) : MgExecTask :=
  {| desc := desc t; task_state := st; cmd_line := cmd_line t;
     ignore_failure := ignore_failure t |}.

Definition is_task_done (t : MgExecTask) : bool :=
  match task_state t with Successful | Errored => true | _ => false end.

Definition is_task_started (t : MgExecTask) : bool :=
  match task_state t with Started | Successful | Errored => true | _ => false end.

Definition is_task_successful (t : MgExecTask) : bool :=
  TaskState_eqb (task_state t) Successful.

Definition is_task_errored (t : MgExecTask) : bool :=
  TaskState_eqb (task_state t) Errored.

(** The methods of [MgExecTask], written once over any store [W] that holds
    the task.  The abstract methods [_do_run] and [_do_abort] and the signal
    [sig_task_done] are what a subclass and the listeners supply. *)
Section MgExecTask_methods.
Context {W : Type}.
Variable self : M W MgExecTask.
Variable set_task_state : TaskState -> M W unit.
Variable _do_run : M W unit.
Variable _do_abort : M W unit.
Variable sig_task_done_emit : bool -> string -> M W unit.

Definition MgExecTask_run : M W unit :=
  t <- self ;;
  if TaskState_eqb (task_state t) Started then
    (* error('trying to start an already started task') *)
    ret tt
  else
    t <- self ;;
    (if is_task_done t then set_task_state NotStarted else ret tt) ;;
    set_task_state Started ;;
    _do_run.

Definition MgExecTask_task_done (success : bool) (output : string) : M W unit :=
  set_task_state (if success then Successful else Errored) ;;
  t <- self ;;
  let success := if negb success && ignore_failure t then true else success in
  sig_task_done_emit success output.

Definition MgExecTask_abort : M W unit :=
  t <- self ;;
  (if TaskState_eqb (task_state t) NotStarted then
     set_task_state Errored ;;
     MgExecTask_task_done false "Aborted before started."
   else ret tt) ;;
  t <- self ;;
  if TaskState_eqb (task_state t) Started then _do_abort else ret tt.
End MgExecTask_methods.

(** *** A task on its own

    The store is the task and the list of what it did to the outside. *)
Inductive TaskEvent :=
| DoRun
| DoAbort
| SigTaskDone (success : bool) (output : string).

Record Task1 := { the_task : MgExecTask; events : list TaskEvent }.

Definition t1_self : M Task1 MgExecTask := gets the_task.
Definition t1_set (st : TaskState) : M Task1 unit :=
  modify (fun w => {| the_task := with_task_state st (the_task w);
                      events := events w |}).
Definition t1_log (e : TaskEvent) : M Task1 unit :=
  modify (fun w => {| the_task := the_task w; events := events w ++ [e] |}).

Definition task_run : M Task1 unit :=
  MgExecTask_run t1_self t1_set (t1_log DoRun).
Definition task_task_done (success : bool) (output : string) : M Task1 unit :=
  MgExecTask_task_done t1_self t1_set
    (fun b o => t1_log (SigTaskDone b o)) success output.
Definition task_abort : M Task1 unit :=
  MgExecTask_abort t1_self t1_set (t1_log DoAbort)
    (fun b o => t1_log (SigTaskDone b o)).

(** A task with nothing observed yet. *)
Definition alone (t : MgExecTask) : Task1 := {| the_task := t; events := [] |}.

(** ** MgExecTaskGroup *)

Record MgExecTaskGroup := {
  g_desc : string;
  repo : MgRepoInfo;
  tasks : list MgExecTask;
  aborted : bool
}.

(** [MgExecTaskGroup.__init__]: [tasks or []], not aborted. *)
Definition MgExecTaskGroup_init (desc : string) (repo : MgRepoInfo)
    (tasks : option (list MgExecTask)) : MgExecTaskGroup :=
  {| g_desc := desc; repo := repo;
     tasks := match tasks with Some l => l | None => [] end;
     aborted := false |}.

Definition with_tasks (l : list MgExecTask) (g : MgExecTaskGroup) : MgExecTaskGroup :=
  {| g_desc := g_desc g; repo := repo g; tasks := l; aborted := aborted g |}.

Definition appendTask (t : MgExecTask) (g : MgExecTaskGroup) : MgExecTaskGroup :=
  with_tasks (tasks g ++ [t]) g.

Definition is_aborted (g : MgExecTaskGroup) : bool := aborted g.

Definition is_finished (g : MgExecTaskGroup) : bool :=
  if is_aborted g then true else forallb is_task_done (tasks g).

Definition is_successful (g : MgExecTaskGroup) : bool :=
  if is_aborted g then false else forallb is_task_successful (tasks g).

Definition is_errored (g : MgExecTaskGroup) : bool :=
  if is_aborted g then true else existsb is_task_errored (tasks g).

Definition is_started (g : MgExecTaskGroup) : bool :=
  existsb is_task_started (tasks g).

Definition group_abort (g : MgExecTaskGroup) : MgExecTaskGroup :=
  {| g_desc := g_desc g; repo := repo g; tasks := tasks g; aborted := true |}.

Definition group_len (g : MgExecTaskGroup) : Z := Z.of_nat (length (tasks g)).

(** ** Preconditions

    A precondition closes over a reference to another group and is evaluated
    again on every call: the argument [task_group] is what the reference
    holds at that moment ([None] for Python's [None]); [path_exists] is the
    file system as [pathlib.Path(...).exists()] sees it. *)

Definition PreConditionFunc : Type := (string -> bool) -> PreConditionState.t.

Definition after_other_taskgroup_is_finished
    (task_group : option MgExecTaskGroup) : PreConditionFunc :=
  fun _ =>
    match task_group with
    | None => PreConditionState.Errored
    | Some g => if is_finished g then PreConditionState.FulFilled else PreConditionState.NotFulfilled
    end.

Definition after_other_taskgroup_is_started_and_dir_exists
    (task_group : option MgExecTaskGroup) : PreConditionFunc :=
  fun path_exists =>
    match task_group with
    | None => PreConditionState.Errored
    | Some g =>
        if is_finished g then PreConditionState.FulFilled
        else if negb (is_started g) then PreConditionState.NotFulfilled
        else if negb (path_exists (fullpath (repo g))) then PreConditionState.NotFulfilled
        else PreConditionState.FulFilled
    end.

(** ** The tree items and the group runner *)

(** [UserActionOnGitError], an [IntFlag]. *)
Definition NOTHING : Z := 0.
Definition ABORT : Z := 1.
Definition CONTINUE : Z := 2.
Definition RETRY : Z := 4.
Definition OK : Z := 8.

(** [MgExecItemOneCmd]: [task] is the position of its task in the group;
    [connected] is the connection of [task.sig_task_done] to the item's
    [slotTaskDone], made by [__init__]. *)
Record MgExecItemOneCmd := {
  task : nat;
  item_abortRequested : bool;
  refresh_when_completed : bool;
  connected : bool
}.

Inductive TreeItem :=
| OneCmd (it : MgExecItemOneCmd)
| ButtonBarItem.

Inductive Effect :=
| TaskEv (i : nat) (e : TaskEvent)
| CbExecDone (success : bool)
| RepoRefresh
| AskQuestion (flags : Z).

(** [MgExecItemMultiCmd]; [buttonBar] holds the buttons the pending question
    shows; [children] are the child tree items in order. *)
Record MgExecItemMultiCmd := {
  taskGroup : MgExecTaskGroup;
  taskIdx : Z;
  abortRequested : bool;
  askQuestionUponFailure : bool;
  nbCmdDone : Z;
  nbError : Z;
  isStarted : bool;
  buttonBar : option Z;
  buttonBarItem : option nat;
  children : list TreeItem;
  trace : list Effect
}.

Definition set_taskGroup v (s : MgExecItemMultiCmd) :=
  {| taskGroup := v; taskIdx := taskIdx s; abortRequested := abortRequested s;
     askQuestionUponFailure := askQuestionUponFailure s; nbCmdDone := nbCmdDone s;
     nbError := nbError s; isStarted := isStarted s; buttonBar := buttonBar s;
     buttonBarItem := buttonBarItem s; children := children s; trace := trace s |}.
Definition set_taskIdx v (s : MgExecItemMultiCmd) :=
  {| taskGroup := taskGroup s; taskIdx := v; abortRequested := abortRequested s;
     askQuestionUponFailure := askQuestionUponFailure s; nbCmdDone := nbCmdDone s;
     nbError := nbError s; isStarted := isStarted s; buttonBar := buttonBar s;
     buttonBarItem := buttonBarItem s; children := children s; trace := trace s |}.
Definition set_abortRequested v (s : MgExecItemMultiCmd) :=
  {| taskGroup := taskGroup s; taskIdx := taskIdx s; abortRequested := v;
     askQuestionUponFailure := askQuestionUponFailure s; nbCmdDone := nbCmdDone s;
     nbError := nbError s; isStarted := isStarted s; buttonBar := buttonBar s;
     buttonBarItem := buttonBarItem s; children := children s; trace := trace s |}.
Definition set_nbCmdDone v (s : MgExecItemMultiCmd) :=
  {| taskGroup := taskGroup s; taskIdx := taskIdx s; abortRequested := abortRequested s;
     askQuestionUponFailure := askQuestionUponFailure s; nbCmdDone := v;
     nbError := nbError s; isStarted := isStarted s; buttonBar := buttonBar s;
     buttonBarItem := buttonBarItem s; children := children s; trace := trace s |}.
Definition set_nbError v (s : MgExecItemMultiCmd) :=
  {| taskGroup := taskGroup s; taskIdx := taskIdx s; abortRequested := abortRequested s;
     askQuestionUponFailure := askQuestionUponFailure s; nbCmdDone := nbCmdDone s;
     nbError := v; isStarted := isStarted s; buttonBar := buttonBar s;
     buttonBarItem := buttonBarItem s; children := children s; trace := trace s |}.
Definition set_isStarted v (s : MgExecItemMultiCmd) :=
  {| taskGroup := taskGroup s; taskIdx := taskIdx s; abortRequested := abortRequested s;
     askQuestionUponFailure := askQuestionUponFailure s; nbCmdDone := nbCmdDone s;
     nbError := nbError s; isStarted := v; buttonBar := buttonBar s;
     buttonBarItem := buttonBarItem s; children := children s; trace := trace s |}.
Definition set_buttonBar v (s : MgExecItemMultiCmd) :=
  {| taskGroup := taskGroup s; taskIdx := taskIdx s; abortRequested := abortRequested s;
     askQuestionUponFailure := askQuestionUponFailure s; nbCmdDone := nbCmdDone s;
     nbError := nbError s; isStarted := isStarted s; buttonBar := v;
     buttonBarItem := buttonBarItem s; children := children s; trace := trace s |}.
Definition set_buttonBarItem v (s : MgExecItemMultiCmd) :=
  {| taskGroup := taskGroup s; taskIdx := taskIdx s; abortRequested := abortRequested s;
     askQuestionUponFailure := askQuestionUponFailure s; nbCmdDone := nbCmdDone s;
     nbError := nbError s; isStarted := isStarted s; buttonBar := buttonBar s;
     buttonBarItem := v; children := children s; trace := trace s |}.
Definition set_children v (s : MgExecItemMultiCmd) :=
  {| taskGroup := taskGroup s; taskIdx := taskIdx s; abortRequested := abortRequested s;
     askQuestionUponFailure := askQuestionUponFailure s; nbCmdDone := nbCmdDone s;
     nbError := nbError s; isStarted := isStarted s; buttonBar := buttonBar s;
     buttonBarItem := buttonBarItem s; children := v; trace := trace s |}.
Definition set_trace v (s : MgExecItemMultiCmd) :=
  {| taskGroup := taskGroup s; taskIdx := taskIdx s; abortRequested := abortRequested s;
     askQuestionUponFailure := askQuestionUponFailure s; nbCmdDone := nbCmdDone s;
     nbError := nbError s; isStarted := isStarted s; buttonBar := buttonBar s;
     buttonBarItem := buttonBarItem s; children := children s; trace := v |}.

Abbreviation Runner := (M MgExecItemMultiCmd).

(** [MgExecItemMultiCmd.__init__]; [None] is the failed
    [assert len(taskGroup) > 0]. *)
Definition MgExecItemMultiCmd_init (taskGroup : MgExecTaskGroup)
    (askQuestionUponFailure : bool) : option MgExecItemMultiCmd :=
  if (0 <? group_len taskGroup)%Z then
    Some {| taskGroup := taskGroup; taskIdx := -1; abortRequested := false;
            askQuestionUponFailure := askQuestionUponFailure;
            nbCmdDone := 0; nbError := 0; isStarted := false;
            buttonBar := None; buttonBarItem := None;
            children := []; trace := [] |}
  else None.

Definition log (e : Effect) : Runner unit :=
  modify (fun s => set_trace (trace s ++ [e]) s).

(** *** The tasks of the group, as the runner's store holds them *)

Definition r_self (i : nat) : Runner MgExecTask :=
  fun s => match tasks (taskGroup s) !! i with
           | Some t => Ok t s
           | None => Raise DanglingRef s
           end.

Definition r_set_task_state (i : nat) (st : TaskState) : Runner unit :=
  modify (fun s =>
    set_taskGroup
      (with_tasks (alter (with_task_state st) i (tasks (taskGroup s)))
                  (taskGroup s)) s).

(** Python's [l[i]]: the position read, or [None] for [IndexError]. *)
Definition py_index {A} (l : list A) (i : Z) : option nat :=
  let n := Z.of_nat (length l) in
  if ((0 <=? i) && (i <? n))%Z then Some (Z.to_nat i)
  else if ((- n <=? i) && (i <? 0))%Z then Some (Z.to_nat (n + i))
  else None.

(** Qt's [QTreeWidgetItem.child(idx)]: [None] out of range. *)
Definition child (s : MgExecItemMultiCmd) (idx : Z) : option TreeItem :=
  if (0 <=? idx)%Z then children s !! Z.to_nat idx else None.

Definition childCount (s : MgExecItemMultiCmd) : Z :=
  Z.of_nat (length (children s)).

Definition addChild (c : TreeItem) : Runner unit :=
  modify (fun s => set_children (children s ++ [c]) s).

Definition isDone (s : MgExecItemMultiCmd) : bool :=
  (nbCmdDone s =? group_len (taskGroup s))%Z || abortRequested s.

Definition r_task_run (i : nat) : Runner unit :=
  MgExecTask_run (r_self i) (r_set_task_state i) (log (TaskEv i DoRun)).

(** The block of [runOneCmdline] under [if retrying:]. *)
Definition retry_rollback : Runner unit :=
  s <- get ;;
  let lastTaskItem := child s (childCount s - 2) in
  match py_index (tasks (taskGroup s)) (taskIdx s) with
  | None => raise IndexError
  | Some lastTask =>
      match lastTaskItem with
      | Some (OneCmd it) =>
          assert (Nat.eqb (task it) lastTask) ;;
          (* lastTask.sig_task_done.disconnect(lastTaskItem.slotTaskDone);
             PySide reports a slot that is not connected as RuntimeError *)
          (if connected it then
             modify (fun s =>
               set_children
                 (<[ Z.to_nat (childCount s - 2) :=
                       OneCmd {| task := task it;
                                 item_abortRequested := item_abortRequested it;
                                 refresh_when_completed := refresh_when_completed it;
                                 connected := false |} ]> (children s)) s)
           else raise RuntimeError) ;;
          modify (fun s => set_nbCmdDone (nbCmdDone s - 1) s) ;;
          modify (fun s => set_nbError (nbError s - 1) s) ;;
          modify (fun s => set_taskIdx (taskIdx s - 1) s)
      | _ => raise AttributeError
      end
  end.

Definition runOneCmdline (retrying : bool) : Runner unit :=
  (if retrying then retry_rollback else ret tt) ;;
  s <- get ;;
  assert (negb (isDone s)) ;;
  modify (fun s => set_taskIdx (taskIdx s + 1) s) ;;
  s <- get ;;
  match py_index (tasks (taskGroup s)) (taskIdx s) with
  | None => raise IndexError
  | Some task =>
      (* jobitem = MgExecItemOneCmd(task, self.slotOneCmdDone);
         jobitem.refresh_when_completed = False *)
      addChild (OneCmd {| task := task; item_abortRequested := false;
                          refresh_when_completed := false;
                          connected := true |}) ;;
      (* jobitem.run() *)
      r_task_run task
  end.

Definition MgExecItemMultiCmd_run : Runner unit :=
  modify (set_isStarted true) ;;
  runOneCmdline false.

Definition allCmdDone : Runner unit :=
  modify (fun s => set_nbCmdDone (group_len (taskGroup s)) s) ;;
  s <- get ;;
  log (CbExecDone ((nbError s =? 0)%Z && negb (abortRequested s))) ;;
  log RepoRefresh.

Definition askQuestionAfterCmdFailed : Runner unit :=
  s <- get ;;
  if abortRequested s then ret tt
  else
    modify (fun s => set_buttonBarItem (Some (length (children s))) s) ;;
    addChild ButtonBarItem ;;
    s <- get ;;
    let flags :=
      if negb (isDone s)
      then Z.lor (Z.lor (Z.lor NOTHING CONTINUE) ABORT) RETRY
      else Z.lor (Z.lor (Z.lor NOTHING ABORT) RETRY) OK in
    modify (set_buttonBar (Some flags)) ;;
    log (AskQuestion flags).

Definition slotOneCmdDone (success : bool) : Runner unit :=
  modify (fun s => set_nbCmdDone (nbCmdDone s + 1) s) ;;
  (if negb success then modify (fun s => set_nbError (nbError s + 1) s)
   else ret tt) ;;
  s <- get ;;
  if negb success && negb (abortRequested s) then
    if negb (askQuestionUponFailure s) then allCmdDone
    else askQuestionAfterCmdFailed
  else if negb (isDone s) then runOneCmdline false
  else allCmdDone.

(** [MgExecItemOneCmd.slotTaskDone] of the child at position [p], whose
    [cbExecDone] is the runner's [slotOneCmdDone]. *)
Definition OneCmd_slotTaskDone (p : nat) (success : bool) (task_stdout : string)
    : Runner unit :=
  slotOneCmdDone success ;;
  s <- get ;;
  match children s !! p with
  | Some (OneCmd it) =>
      if success && refresh_when_completed it then log RepoRefresh else ret tt
  | _ => ret tt
  end.

(** The positions of the children whose slot is connected to the signal of
    task [i], in connection order. *)
Fixpoint connected_slots (i : nat) (p : nat) (cs : list TreeItem) : list nat :=
  match cs with
  | [] => []
  | OneCmd it :: cs' =>
      if Nat.eqb (task it) i && connected it
      then p :: connected_slots i (S p) cs'
      else connected_slots i (S p) cs'
  | ButtonBarItem :: cs' => connected_slots i (S p) cs'
  end.

Fixpoint call_slots (ps : list nat) (success : bool) (output : string)
    : Runner unit :=
  match ps with
  | [] => ret tt
  | p :: ps' =>
      s <- get ;;
      (match children s !! p with
       | Some (OneCmd it) =>
           if connected it then OneCmd_slotTaskDone p success output else ret tt
       | _ => ret tt
       end) ;;
      call_slots ps' success output
  end.

(** [task.sig_task_done.emit(success, output)] for the task at position [i]:
    the slots connected when the emission starts are called in order. *)
Definition r_sig_task_done_emit (i : nat) (success : bool) (output : string)
    : Runner unit :=
  log (TaskEv i (SigTaskDone success output)) ;;
  s <- get ;;
  call_slots (connected_slots i 0 (children s)) success output.

Definition r_task_done (i : nat) (success : bool) (output : string) : Runner unit :=
  MgExecTask_task_done (r_self i) (r_set_task_state i)
    (r_sig_task_done_emit i) success output.

Definition r_task_abort (i : nat) : Runner unit :=
  MgExecTask_abort (r_self i) (r_set_task_state i)
    (log (TaskEv i DoAbort)) (r_sig_task_done_emit i).

(** [MgExecItemOneCmd.abortItem] of the child at position [p]. *)
Definition OneCmd_abortItem (p : nat) : Runner unit :=
  s <- get ;;
  match children s !! p with
  | Some (OneCmd it) =>
      modify (fun s =>
        set_children
          (<[ p := OneCmd {| task := task it; item_abortRequested := true;
                             refresh_when_completed := refresh_when_completed it;
                             connected := connected it |} ]> (children s)) s) ;;
      t <- r_self (task it) ;;
      if is_task_done t then ret tt else r_task_abort (task it)
  | _ => raise AttributeError
  end.

Definition handleQuestionResult (result : Z) : Runner unit :=
  s <- get ;;
  assert (match buttonBarItem s with Some _ => true | None => false end) ;;
  modify (set_buttonBar None) ;;
  s <- get ;;
  match child s (childCount s - 2) with
  | None => raise AttributeError      (* None.setExpanded *)
  | Some _ =>
      if (result =? ABORT)%Z || abortRequested s then
        modify (fun s => set_taskGroup (group_abort (taskGroup s)) s) ;;
        allCmdDone
      else if (result =? CONTINUE)%Z then runOneCmdline false
      else if (result =? RETRY)%Z then runOneCmdline true
      else if (result =? OK)%Z then allCmdDone
      else raise AssertionError
  end.

(** The loop of [abortItem] over the children, from position [p] on. *)
Fixpoint abort_job_in_progress (p : nat) (cs : list TreeItem) : Runner unit :=
  match cs with
  | [] => raise ValueError
  | ButtonBarItem :: cs' => abort_job_in_progress (S p) cs'
  | OneCmd it :: cs' =>
      t <- r_self (task it) ;;
      if is_task_started t && negb (is_task_done t)
      then OneCmd_abortItem p
      else abort_job_in_progress (S p) cs'
  end.

Definition abortItem : Runner unit :=
  modify (fun s => set_taskGroup (group_abort (taskGroup s)) s) ;;
  modify (set_abortRequested true) ;;
  s <- get ;;
  match buttonBar s with
  | Some _ => handleQuestionResult ABORT
  | None =>
      if (nbCmdDone s =? group_len (taskGroup s))%Z then
        modify (set_abortRequested false)
      else if negb (isStarted s) then allCmdDone
      else abort_job_in_progress 0 (children s)
  end.

(** ** The environment

    What can happen to a runner: the scheduler starts it (once), the process
    collaborator reports the completion of a task that is in flight, the
    user presses one of the buttons the pending question shows, or the
    runner is asked to abort. *)
Inductive Event :=
| EvRun
| EvTaskDone (i : nat) (success : bool) (output : string)
| EvUserChoice (choice : Z)
| EvAbortItem.

Definition is_button (c : Z) : bool :=
  ((c =? ABORT) || (c =? CONTINUE) || (c =? RETRY) || (c =? OK))%Z.

Definition enabled (s : MgExecItemMultiCmd) (ev : Event) : bool :=
  match ev with
  | EvRun => negb (isStarted s)
  | EvTaskDone i _ _ =>
      match tasks (taskGroup s) !! i with
      | Some t => TaskState_eqb (task_state t) Started
      | None => false
      end
  | EvUserChoice c =>
      match buttonBar s with
      | Some flags => is_button c && negb (Z.land flags c =? 0)%Z
      | None => false
      end
  | EvAbortItem => true
  end.

Definition handle (ev : Event) : Runner unit :=
  match ev with
  | EvRun => MgExecItemMultiCmd_run
  | EvTaskDone i success output => r_task_done i success output
  | EvUserChoice c => handleQuestionResult c
  | EvAbortItem => abortItem
  end.

Definition step (s : MgExecItemMultiCmd) (ev : Event) : MgExecItemMultiCmd :=
  if enabled s ev then final (handle ev s) else s.

Definition exec (s : MgExecItemMultiCmd) (evs : list Event) : MgExecItemMultiCmd :=
  fold_left step evs s.

(** The calls of [cbExecDone] and the dispatches of [_do_run] in a trace. *)
Definition callbacks (tr : list Effect) : list bool :=
  omap (fun e => match e with CbExecDone b => Some b | _ => None end) tr.

Definition dispatches (tr : list Effect) : list nat :=
  omap (fun e => match e with TaskEv i DoRun => Some i | _ => None end) tr.

(** ** Reachable runner states and the phases of a run *)

(** A freshly built group: every task as [MgExecTask.__init__] leaves it. *)
Definition fresh_group (g : MgExecTaskGroup) : bool :=
  forallb (fun t => TaskState_eqb (task_state t) NotStarted) (tasks g).

Definition reachable (s : MgExecItemMultiCmd) : Prop :=
  exists g ask s0 evs,
    fresh_group g = true /\ MgExecItemMultiCmd_init g ask = Some s0 /\
    s = exec s0 evs.

Definition set_tasks (l : list MgExecTask) (s : MgExecItemMultiCmd) :=
  set_taskGroup (with_tasks l (taskGroup s)) s.

Definition done_before (k : nat) (l : list MgExecTask) : Prop :=
  forall j t, l !! j = Some t -> j < k -> is_task_done t = true.

Definition fresh_from (k : nat) (l : list MgExecTask) : Prop :=
  forall j t, l !! j = Some t -> k <= j -> task_state t = NotStarted.

Definition none_started (l : list MgExecTask) : Prop :=
  forall j t, l !! j = Some t -> task_state t <> Started.

(** The items created so far for tasks up to [k]; the connected ones belong
    to tasks before [k]. *)
Definition items_ok (k : nat) (cs : list TreeItem) : Prop :=
  forall p it, cs !! p = Some (OneCmd it) ->
    task it <= k /\ (connected it = true -> task it < k).

Definition question_flags (last : bool) : Z := if last then 13%Z else 7%Z.

(** Where a run stands: not started, task [k] in flight, the question after
    the failure of task [k] pending, or finalized. *)
Inductive Phase := Fresh | Running (k : nat) | Asking (k : nat) | Final.

Definition phase_inv (ph : Phase) (s : MgExecItemMultiCmd) : Prop :=
  let l := tasks (taskGroup s) in
  match ph with
  | Fresh =>
      isStarted s = false /\ abortRequested s = false /\ buttonBar s = None /\
      nbCmdDone s = 0%Z /\ nbError s = 0%Z /\ taskIdx s = (-1)%Z /\
      children s = [] /\ 0 < length l /\ fresh_from 0 l
  | Running k =>
      isStarted s = true /\ buttonBar s = None /\
      taskIdx s = Z.of_nat k /\ nbCmdDone s = Z.of_nat k /\
      (0 <= nbError s)%Z /\
      done_before k l /\ fresh_from (S k) l /\
      (exists t, l !! k = Some t /\ task_state t = Started) /\
      (exists cs it, children s = cs ++ [OneCmd it] /\ task it = k /\
                     connected it = true /\ refresh_when_completed it = false /\
                     items_ok k cs)
  | Asking k =>
      isStarted s = true /\ abortRequested s = false /\
      buttonBar s = Some (question_flags (Z.of_nat k + 1 =? group_len (taskGroup s))%Z) /\
      (exists p, buttonBarItem s = Some p) /\
      taskIdx s = Z.of_nat k /\ nbCmdDone s = (Z.of_nat k + 1)%Z /\
      (1 <= nbError s)%Z /\ k < length l /\
      done_before (S k) l /\ fresh_from (S k) l /\
      (exists cs it, children s = cs ++ [OneCmd it; ButtonBarItem] /\
                     task it = k /\ connected it = true /\ items_ok k cs)
  | Final =>
      buttonBar s = None /\ nbCmdDone s = group_len (taskGroup s) /\
      none_started l
  end.

Definition Inv (s : MgExecItemMultiCmd) : Prop := exists ph, phase_inv ph s.

(** ** States the methods lead to *)

Definition new_item (j : nat) : TreeItem :=
  OneCmd {| task := j; item_abortRequested := false;
            refresh_when_completed := false; connected := true |}.

Definition disconnect (it : MgExecItemOneCmd) : MgExecItemOneCmd :=
  {| task := task it; item_abortRequested := item_abortRequested it;
     refresh_when_completed := refresh_when_completed it; connected := false |}.

(** The counters after [slotOneCmdDone] has counted a completion. *)
Definition counted (success : bool) (s : MgExecItemMultiCmd) : MgExecItemMultiCmd :=
  let s1 := set_nbCmdDone (nbCmdDone s + 1) s in
  if success then s1 else set_nbError (nbError s + 1) s1.

(** What [task_done] emits for an outcome. *)
Definition emitted (success : bool) (t : MgExecTask) : bool :=
  if negb success && ignore_failure t then true else success.

Definition outcome (success : bool) : TaskState :=
  if success then Successful else Errored.

(** The first two assignments of [abortItem]. *)
Definition abort_marked (s : MgExecItemMultiCmd) : MgExecItemMultiCmd :=
  set_abortRequested true (set_taskGroup (group_abort (taskGroup s)) s).

Definition flag_abort (it : MgExecItemOneCmd) : MgExecItemOneCmd :=
  {| task := task it; item_abortRequested := true;
     refresh_when_completed := refresh_when_completed it;
     connected := connected it |}.

(** [taskIdx] stays or moves to the next task. *)
Definition idx_advances (s s' : MgExecItemMultiCmd) : Prop :=
  (taskIdx s <= taskIdx s' <= taskIdx s + 1)%Z.

(** The state in which the listeners of task [k] are called. *)
Definition completed (k : nat) (t : MgExecTask) (b : bool) (out : string)
    (s : MgExecItemMultiCmd) : MgExecItemMultiCmd :=
  set_trace (trace s ++ [TaskEv k (SigTaskDone (emitted b t) out)])
    (set_tasks (<[k := with_task_state (outcome b) t]> (tasks (taskGroup s))) s).

(** ** Runs from a fresh runner *)

(** The runner built on a group, after the events; [None] when the group
    is empty and the constructor's assertion fails. *)
Definition run_group (g : MgExecTaskGroup) (ask : bool) (evs : list Event)
    : option MgExecItemMultiCmd :=
  match MgExecItemMultiCmd_init g ask with
  | Some s0 => Some (exec s0 evs)
  | None => None
  end.

Definition sample_repo : MgRepoInfo := {| name := "lib"; fullpath := "/src/lib" |}.

(** A group of [n] fresh tasks. *)
Definition sample_group (n : nat) : MgExecTaskGroup :=
  MgExecTaskGroup_init "update" sample_repo
    (Some (map (fun _ => MgExecTask_init "git fetch" false) (seq 0 n))).

Definition sample_run (n : nat) (ask : bool) (evs : list Event)
    : option MgExecItemMultiCmd :=
  run_group (sample_group n) ask evs.


(** ** The runner as an explicit state machine

    The phases of the runner and, phase by phase, the state an event leads
    to, written without the monad.  The theorems below show that the
    callback code computes exactly this machine on every reachable state. *)

(** The state [allCmdDone] leaves. *)
Definition finalized (s : MgExecItemMultiCmd) : MgExecItemMultiCmd :=
  set_trace
    (trace s ++ [CbExecDone ((nbError s =? 0)%Z && negb (abortRequested s));
                 RepoRefresh])
    (set_nbCmdDone (group_len (taskGroup s)) s).

(** The state after [runOneCmdline] has started task [j]. *)
Definition started (j : nat) (s : MgExecItemMultiCmd) : MgExecItemMultiCmd :=
  match tasks (taskGroup s) !! j with
  | Some t =>
      set_trace (trace s ++ [TaskEv j DoRun])
        (set_tasks (<[j := with_task_state Started t]> (tasks (taskGroup s)))
           (set_children (children s ++ [new_item j])
              (set_taskIdx (Z.of_nat j) s)))
  | None => s
  end.

(** The state after [askQuestionAfterCmdFailed] has shown the buttons. *)
Definition asked (s : MgExecItemMultiCmd) : MgExecItemMultiCmd :=
  let f := question_flags (nbCmdDone s =? group_len (taskGroup s))%Z in
  set_trace (trace s ++ [AskQuestion f])
    (set_buttonBar (Some f)
       (set_children (children s ++ [ButtonBarItem])
          (set_buttonBarItem (Some (length (children s))) s))).

(** Task [k] reports [success]: the task takes its outcome, the signal is
    emitted, the completion is counted and the runner finalizes, asks or
    starts the next task. *)
Definition after_completion (k : nat) (success : bool) (out : string)
    (s : MgExecItemMultiCmd) : MgExecItemMultiCmd :=
  match tasks (taskGroup s) !! k with
  | None => s
  | Some t =>
      let b := emitted success t in
      let s1 := counted b (completed k t success out s) in
      if negb b && negb (abortRequested s) then
        if negb (askQuestionUponFailure s) then finalized s1 else asked s1
      else if negb (isDone s1) then started (S k) s1
      else finalized s1
  end.

Definition disconnect_item (c : TreeItem) : TreeItem :=
  match c with OneCmd it => OneCmd (disconnect it) | ButtonBarItem => c end.

(** The user chose Retry for task [k]. *)
Definition retried (k : nat) (s : MgExecItemMultiCmd) : MgExecItemMultiCmd :=
  started k
    (set_taskIdx (taskIdx s - 1)
       (set_nbError (nbError s - 1)
          (set_nbCmdDone (nbCmdDone s - 1)
             (set_children
                (alter disconnect_item (length (children s) - 2) (children s))
                (set_buttonBar None s))))).

(** The first child, from position [p] on, whose task is Started. *)
Fixpoint job_in_progress (l : list MgExecTask) (p : nat) (cs : list TreeItem)
    : option (nat * MgExecItemOneCmd) :=
  match cs with
  | [] => None
  | ButtonBarItem :: cs' => job_in_progress l (S p) cs'
  | OneCmd it :: cs' =>
      match l !! task it with
      | Some t =>
          if TaskState_eqb (task_state t) Started then Some (p, it)
          else job_in_progress l (S p) cs'
      | None => job_in_progress l (S p) cs'
      end
  end.

(** [abortItem] while a task is in flight. *)
Definition abort_in_progress (s : MgExecItemMultiCmd) : MgExecItemMultiCmd :=
  match job_in_progress (tasks (taskGroup s)) 0 (children s) with
  | Some (p, it) =>
      set_trace (trace s ++ [TaskEv (task it) DoAbort])
        (set_children (<[p := OneCmd (flag_abort it)]> (children s))
           (abort_marked s))
  | None => abort_marked s
  end.

(** The phase, read off the runner's fields. *)
Definition phase_of (s : MgExecItemMultiCmd) : Phase :=
  match buttonBar s with
  | Some _ => Asking (Z.to_nat (taskIdx s))
  | None =>
      if (nbCmdDone s =? group_len (taskGroup s))%Z then Final
      else if isStarted s then Running (Z.to_nat (taskIdx s))
      else Fresh
  end.

Definition machine_step (s : MgExecItemMultiCmd) (ev : Event) : MgExecItemMultiCmd :=
  match phase_of s, ev with
  | Fresh, EvRun => started 0 (set_isStarted true s)
  | Fresh, EvAbortItem => finalized (abort_marked s)
  | Final, EvRun => set_isStarted true s
  | Final, EvAbortItem => set_abortRequested false (abort_marked s)
  | Running _, EvTaskDone i success out => after_completion i success out s
  | Running _, EvAbortItem => abort_in_progress s
  | Asking k, EvUserChoice c =>
      let s1 := set_buttonBar None s in
      if (c =? ABORT)%Z then
        finalized (set_taskGroup (group_abort (taskGroup s)) s1)
      else if (c =? CONTINUE)%Z then started (S k) s1
      else if (c =? RETRY)%Z then retried k s
      else finalized s1
  | Asking _, EvAbortItem =>
      finalized (set_taskGroup (group_abort (taskGroup s))
                   (set_buttonBar None (abort_marked s)))
  | _, _ => s
  end.

(** ** What the final callback says about the tasks *)

(** A failure the runner counts: Errored and not masked. *)
Definition failed_unmasked (t : MgExecTask) : bool :=
  is_task_errored t && negb (ignore_failure t).

Fixpoint count_failed (l : list MgExecTask) : Z :=
  match l with
  | [] => 0
  | t :: l' => ((if failed_unmasked t then 1 else 0) + count_failed l')%Z
  end.

(** A task the runner takes for a success: Successful, or Errored and
    masked by [ignore_failure]. *)
Definition passed (t : MgExecTask) : bool :=
  is_task_successful t || (is_task_errored t && ignore_failure t).

Definition audit (s : MgExecItemMultiCmd) : Prop :=
  let l := tasks (taskGroup s) in
  (abortRequested s = true -> aborted (taskGroup s) = true) /\
  match phase_of s with
  | Fresh => callbacks (trace s) = [] /\ dispatches (trace s) = []
  | Running k =>
      callbacks (trace s) = [] /\ nbError s = count_failed (take k l)
  | Asking k =>
      callbacks (trace s) = [] /\ nbError s = count_failed (take (S k) l) /\
      (exists t, l !! k = Some t /\ failed_unmasked t = true)
  | Final =>
      exists b, callbacks (trace s) = [b] /\
      (b = true -> forallb passed l = true) /\
      (b = false -> aborted (taskGroup s) = true \/
                    existsb failed_unmasked l = true)
  end.

(** Whether the handler of the event raises: only [run()] on a finalized
    runner does, on its assertion. *)
Definition raises (s : MgExecItemMultiCmd) (ev : Event) : bool :=
  match phase_of s, ev with
  | Final, EvRun => true
  | _, _ => false
  end.

(** The questions shown to the user in a trace. *)
Definition questions (tr : list Effect) : list Z :=
  omap (fun e => match e with AskQuestion f => Some f | _ => None end) tr.

(** The completion events of the tasks from position [k] on, one per
    outcome. *)
Fixpoint completions (k : nat) (os : list (bool * string)) : list Event :=
  match os with
  | [] => []
  | o :: os' => EvTaskDone k (fst o) (snd o) :: completions (S k) os'
  end.

(** ** MgExecTaskGit

    The store is the task object and what it did to its process and its
    listeners.  [run_process] holds the [RunProcess] in flight, modelled by
    the command it was started with; [git_repo] is [self.repo], which may be
    [None]. *)

Inductive ProcessEffect :=
| ExecAsync (git_cmd : list string)
| AbortProcessInProgress
| Emitted (success : bool) (output : string).

Record MgExecTaskGit := {
  git_task : MgExecTask;
  git_repo : option MgRepoInfo;
  git_args : list string;
  run_process : option (list string);
  run_inside_git_repo : bool;
  effects : list ProcessEffect
}.

(** The line feed. *)
Definition LF : string := String (Ascii.ascii_of_nat 10) EmptyString.

(** [MgExecTaskGit.__init__]: an empty [desc] is replaced by the command
    line. *)
Definition MgExecTaskGit_init (desc : string) (repo : option MgRepoInfo)
    (git_args : list string) (ignore_failure run_inside_git_repo : bool)
    : MgExecTaskGit :=
  let desc := if String.eqb desc "" then ("git " ++ String.concat " " git_args)%string
              else desc in
  {| git_task := {| desc := desc; task_state := NotStarted;
                    cmd_line := ("git " ++ String.concat " " git_args)%string;
                    ignore_failure := ignore_failure |};
     git_repo := repo; git_args := git_args; run_process := None;
     run_inside_git_repo := run_inside_git_repo; effects := [] |}.

Definition with_git_task (t : MgExecTask) (w : MgExecTaskGit) : MgExecTaskGit :=
  {| git_task := t; git_repo := git_repo w; git_args := git_args w;
     run_process := run_process w; run_inside_git_repo := run_inside_git_repo w;
     effects := effects w |}.
Definition with_run_process (p : option (list string)) (w : MgExecTaskGit) : MgExecTaskGit :=
  {| git_task := git_task w; git_repo := git_repo w; git_args := git_args w;
     run_process := p; run_inside_git_repo := run_inside_git_repo w;
     effects := effects w |}.
Definition with_effect (e : ProcessEffect) (w : MgExecTaskGit) : MgExecTaskGit :=
  {| git_task := git_task w; git_repo := git_repo w; git_args := git_args w;
     run_process := run_process w; run_inside_git_repo := run_inside_git_repo w;
     effects := effects w ++ [e] |}.

(** What [_do_run] can raise: FileNotFoundError, or an exception of
    [PyExn]; both are raised before the task is touched. *)
Inductive DoRunError := FileNotFoundError | PyError (e : PyExn).

(** [MgExecTaskGit._do_run]; [prog_git] is what [ExecGit.get_executable()]
    returns. *)
Definition MgExecTaskGit_do_run (prog_git : option string) (w : MgExecTaskGit)
    : DoRunError + MgExecTaskGit :=
  match prog_git with
  | None => inl FileNotFoundError
  | Some prog =>
      if (String.length prog =? 0)%nat then inl FileNotFoundError
      else
        let spawn git_args_repo_path :=
          let git_cmd := [prog] ++ git_args_repo_path ++ git_args w in
          inr (with_effect (ExecAsync git_cmd) (with_run_process (Some git_cmd) w)) in
        if run_inside_git_repo w then
          match git_repo w with
          | None => inl (PyError ValueError)
          | Some r => spawn ["-C"; fullpath r]
          end
        else spawn []
  end.

Definition git_self : M MgExecTaskGit MgExecTask := gets git_task.
Definition git_set_task_state (st : TaskState) : M MgExecTaskGit unit :=
  modify (fun w => with_git_task (with_task_state st (git_task w)) w).
Definition git_emit (success : bool) (output : string) : M MgExecTaskGit unit :=
  modify (with_effect (Emitted success output)).

Definition MgExecTaskGit_task_done : bool -> string -> M MgExecTaskGit unit :=
  MgExecTask_task_done git_self git_set_task_state git_emit.

(** [MgExecTaskGit.git_task_done], the callback of the process. *)
Definition git_task_done (git_exit_code : Z) (git_stdout : string)
    : M MgExecTaskGit unit :=
  t <- git_self ;;
  let git_stdout :=
    if negb (git_exit_code =? 0)%Z then
      let o := if negb (String.length git_stdout =? 0)%nat
               then (git_stdout ++ LF)%string else git_stdout in
      let o := (o ++ "Git did not complete successfully.")%string in
      if ignore_failure t
      then (o ++ LF ++ "Ignoring non relevant git error")%string else o
    else git_stdout in
  modify (with_run_process None) ;;
  MgExecTaskGit_task_done (git_exit_code =? 0)%Z git_stdout.

(** [MgExecTaskGit._do_abort] *)
Definition MgExecTaskGit_do_abort : M MgExecTaskGit unit :=
  t <- git_self ;;
  assert (TaskState_eqb (task_state t) Started) ;;
  w <- get ;;
  match run_process w with
  | Some _ =>
      modify (with_effect AbortProcessInProgress) ;;
      modify (with_run_process None)
  | None =>
      (* warning('_do_abort() with self.run_process == None') *)
      MgExecTaskGit_task_done false ""
  end.

(** The inherited [abort()]. *)
Definition MgExecTaskGit_abort : M MgExecTaskGit unit :=
  MgExecTask_abort git_self git_set_task_state MgExecTaskGit_do_abort git_emit.

(** The signals emitted so far. *)
Definition emissions (l : list ProcessEffect) : list (bool * string) :=
  omap (fun e => match e with Emitted b o => Some (b, o) | _ => None end) l.

(** * The branch dialog: [src/mg_dialog_git_switch_delete_branch.py]

    The functions of the dialog that compute on branch names and build the
    git commands.  A function that can raise returns [PyExn + A].  A string
    is its sequence of bytes; the separators looked for are ['/'] and [' '],
    which are single bytes, and the order of [sorted] on byte sequences is
    the order of Python on the code points they encode. *)

(** ** Python strings and lists *)

Definition and_then {A B} (r : PyExn + A) (k : A -> PyExn + B) : PyExn + B :=
  match r with inl e => inl e | inr a => k a end.

(** A list comprehension [[f(x) for x in l]]: the first exception ends it. *)
Fixpoint comprehension {A B} (f : A -> PyExn + B) (l : list A) : PyExn + list B :=
  match l with
  | [] => inr []
  | x :: l' =>
      and_then (f x) (fun y => and_then (comprehension f l') (fun ys => inr (y :: ys)))
  end.

(** [l[i]] *)
Definition subscript {A} (l : list A) (i : nat) : PyExn + A :=
  match l !! i with Some x => inr x | None => inl IndexError end.

(** [x in l] *)
Definition py_in (x : string) (l : list string) : bool :=
  existsb (String.eqb x) l.

Definition SLASH : Ascii.ascii := Ascii.ascii_of_nat 47.
Definition SPACE : Ascii.ascii := Ascii.ascii_of_nat 32.

(** What is before and after the first [c] of [s], if there is one. *)
Fixpoint cut (c : Ascii.ascii) (s : string) : option (string * string) :=
  match s with
  | EmptyString => None
  | String a s' =>
      if Ascii.eqb a c then Some (EmptyString, s')
      else match cut c s' with
           | Some (h, r) => Some (String a h, r)
           | None => None
           end
  end.

(** [s.split(c, 1)] *)
Definition py_split1 (c : Ascii.ascii) (s : string) : list string :=
  match cut c s with Some (h, r) => [h; r] | None => [s] end.

(** [s.split(c)] *)
Fixpoint py_split (c : Ascii.ascii) (s : string) : list string :=
  match s with
  | EmptyString => [EmptyString]
  | String a s' =>
      if Ascii.eqb a c then EmptyString :: py_split c s'
      else match py_split c s' with
           | h :: t => String a h :: t
           | [] => [String a EmptyString]
           end
  end.

(** [s[s.index(c) + 1:]] *)
Definition after_index (c : Ascii.ascii) (s : string) : PyExn + string :=
  match cut c s with Some (_, r) => inr r | None => inl ValueError end.

(** [not s], for a string *)
Definition is_empty (s : string) : bool :=
  match s with EmptyString => true | String _ _ => false end.

(** [sorted(set(l))]: ascending, each element once. *)
Fixpoint insert_sorted (x : string) (l : list string) : list string :=
  match l with
  | [] => [x]
  | y :: l' =>
      match String.compare x y with
      | Lt => x :: l
      | Eq => l
      | Gt => y :: insert_sorted x l'
      end
  end.

Definition sorted_set (l : list string) : list string :=
  fold_right insert_sorted [] l.

(** ** Names of remote branches *)

(** [name.split('/', 1)[1]] *)
Definition strip_remote (name : string) : PyExn + string :=
  subscript (py_split1 SLASH name) 1.

Definition stripOrigin (branches_remote : list string) : PyExn + list string :=
  and_then (comprehension strip_remote branches_remote)
    (fun names => inr (sorted_set names)).

Definition branchNameIsPresentInRemote (branchName : string)
    (branches_remote : list string) : PyExn + bool :=
  and_then (comprehension strip_remote branches_remote)
    (fun names => inr (py_in branchName names)).

Fixpoint remoteBranchesForBranchName (branchName : string)
    (branches_remote : list string) : PyExn + list string :=
  match branches_remote with
  | [] => inr []
  | name :: l =>
      and_then (strip_remote name) (fun stripped =>
      and_then (remoteBranchesForBranchName branchName l) (fun rest =>
      inr (if String.eqb branchName stripped then name :: rest else rest)))
  end.

(** The attributes of a [MgRepoInfo] the dialog reads. *)
Record RepoBranches := {
  repo_info : MgRepoInfo;
  branches_local : list string;
  branches_remote : list string;
  all_tags : list string
}.

Definition buildRepoBranchInfo (targetedRepos : list RepoBranches)
    : PyExn + list (string * list string * list string) :=
  comprehension
    (fun r => and_then (stripOrigin (branches_remote r))
                (fun remote => inr (name (repo_info r), branches_local r, remote)))
    targetedRepos.

(** ** The dialog *)

Module GroupingBy.
Inductive t := NONE | NAME.
End GroupingBy.







Inductive DeleteOrSwitch := DELETE | SWITCH_BRANCH | CHECKOUT_TAG.

Definition isBranchDialog (deleteOrSwitch : DeleteOrSwitch) : bool :=
  match deleteOrSwitch with CHECKOUT_TAG => false | _ => true end.


(** [getTargetedBranchTag] and [getDeleteTargetedBranches]; [text] is the
    text of the line edit. *)
Definition getTargetedBranchTag (deleteOrSwitch : DeleteOrSwitch) (text : string)
    : PyExn + string :=
  match deleteOrSwitch with DELETE => inl ValueError | _ => inr text end.

Definition getDeleteTargetedBranches (deleteOrSwitch : DeleteOrSwitch) (text : string)
    : PyExn + list string :=
  match deleteOrSwitch with
  | DELETE => inr (filter (fun br => negb (is_empty br)) (py_split SPACE text))
  | _ => inl ValueError
  end.

(** ** Deleting branches *)

(** What [doGitDeleteBranch] ends with: the commands handed to the
    execution window, per repository, or the warning. *)
Inductive DeleteOutcome :=
| ExecEachRepo (desc : string) (descRepoCmd : list (string * RepoBranches * list (list string)))
| WarnNoRepository (message : string).

(** One turn of the inner loop: the commands appended for [branchName]. *)
Definition delete_cmds_for (repo : RepoBranches) (delRemote delLocal : bool)
    (branchName : string) : PyExn + list (list string) :=
  let gitDeleteRemoteBranch := ["push"; "origin"; "--delete"; branchName] in
  let gitDeleteLocalBranch := ["branch"; "-d"; branchName] in
  and_then (comprehension (after_index SLASH) (branches_remote repo)) (fun stripped =>
  let gitCmds := if py_in branchName stripped && delRemote
                 then [gitDeleteRemoteBranch] else [] in
  inr (if py_in branchName (branches_local repo) && delLocal
       then gitCmds ++ [gitDeleteLocalBranch] else gitCmds)).

(** The inner loop over the branch names. *)
Definition delete_cmds (repo : RepoBranches) (delRemote delLocal : bool)
    (deleteBranchesName : list string) : PyExn + list (list string) :=
  fold_left
    (fun acc branchName =>
       and_then acc (fun gitCmds =>
       and_then (delete_cmds_for repo delRemote delLocal branchName) (fun more =>
       inr (gitCmds ++ more))))
    deleteBranchesName (inr []).

Definition doGitDeleteBranch (deleteOrSwitch : DeleteOrSwitch) (text : string)
    (targetedRepos : list RepoBranches) (delRemote delLocal : bool)
    : PyExn + DeleteOutcome :=
  let descGitDelete := "Git Delete branch" in
  and_then (getDeleteTargetedBranches deleteOrSwitch text) (fun deleteBranchesName =>
  and_then
    (fold_left
       (fun acc repo =>
          and_then acc (fun descRepoCmdBranch =>
          and_then (delete_cmds repo delRemote delLocal deleteBranchesName) (fun gitCmds =>
          inr (if (0 <? length gitCmds)%nat
               then descRepoCmdBranch ++ [(descGitDelete, repo, gitCmds)]
               else descRepoCmdBranch))))
       targetedRepos (inr []))
    (fun descRepoCmdBranch =>
       inr (if (0 <? length descRepoCmdBranch)%nat
            then ExecEachRepo descGitDelete descRepoCmdBranch
            else WarnNoRepository
                   ("No repository found for branch names: "
                    ++ String.concat ", " deleteBranchesName ++ ".")%string))).

(** ** Switching to a branch or a tag *)

(** The arguments of a [MgExecTaskGroup(...)] call whose tasks are git
    tasks, and the group it builds. *)
Record GitTaskGroup := {
  gg_desc : string;
  gg_repo : RepoBranches;
  gg_tasks : list MgExecTaskGit
}.

Definition as_task_group (g : GitTaskGroup) : MgExecTaskGroup :=
  MgExecTaskGroup_init (gg_desc g) (repo_info (gg_repo g))
    (Some (map git_task (gg_tasks g))).

(** [MgExecTaskGit(desc, repo, args)] with the default arguments. *)
Definition git_task_for (desc : string) (repo : RepoBranches) (args : list string)
    : MgExecTaskGit :=
  MgExecTaskGit_init desc (Some (repo_info repo)) args false true.

(** The loop over the repositories of a branch dialog.  [choose] is the
    message box asking which remote branch is meant: [None] when the user
    aborts, else the text of the button clicked.  The result is [None] when
    the function returns [False] from inside the loop. *)
Fixpoint switch_branch_loop (choose : RepoBranches -> list string -> option string)
    (branchTagName descCheckout : string) (defaultForNotExist : bool)
    (repos : list RepoBranches)
    (taskGroupsCmdBranchTag taskGroupsCmdInt : list GitTaskGroup)
    : PyExn + option (list GitTaskGroup * list GitTaskGroup) :=
  match repos with
  | [] => inr (Some (taskGroupsCmdBranchTag, taskGroupsCmdInt))
  | repo :: rest =>
      let continue_with main int :=
        switch_branch_loop choose branchTagName descCheckout defaultForNotExist
          rest main int in
      let simple :=
        {| gg_desc := descCheckout; gg_repo := repo;
           gg_tasks := [git_task_for descCheckout repo ["checkout"; branchTagName; "--"]] |} in
      if py_in branchTagName (branches_local repo) then
        continue_with (taskGroupsCmdBranchTag ++ [simple]) taskGroupsCmdInt
      else
        and_then (branchNameIsPresentInRemote branchTagName (branches_remote repo))
          (fun present =>
        if present then
          and_then (remoteBranchesForBranchName branchTagName (branches_remote repo))
            (fun remoteBranches =>
          if (length remoteBranches =? 1)%nat then
            continue_with (taskGroupsCmdBranchTag ++ [simple]) taskGroupsCmdInt
          else
            match choose repo remoteBranches with
            | None => inr None
            | Some remoteBranch =>
                let d := ("Checkouting branch " ++ remoteBranch)%string in
                continue_with
                  (taskGroupsCmdBranchTag ++
                   [{| gg_desc := d; gg_repo := repo;
                       gg_tasks := [git_task_for d repo
                                      ["checkout"; "--track"; remoteBranch; "--"]] |}])
                  taskGroupsCmdInt
            end)
        else if defaultForNotExist then
          continue_with taskGroupsCmdBranchTag
            (taskGroupsCmdInt ++
             [{| gg_desc := "Checkouting backup branch int"; gg_repo := repo;
                 gg_tasks := [git_task_for "Checkouting backup branch int" repo
                                ["checkout"; "int"; "--"]] |}])
        else continue_with taskGroupsCmdBranchTag taskGroupsCmdInt)
  end.

(** The group of a tag checkout. *)
Definition tag_checkout_group (descCheckout branchTagName : string)
    (repo : RepoBranches) : GitTaskGroup :=
  {| gg_desc := descCheckout; gg_repo := repo;
     gg_tasks :=
       [MgExecTaskGit_init (descCheckout ++ " (step 1)")%string (Some (repo_info repo))
          ["checkout"; (branchTagName ++ "~1")%string; "--"] true true;
        MgExecTaskGit_init (descCheckout ++ " (step 2)")%string (Some (repo_info repo))
          ["checkout"; branchTagName; "--"] false true] |}.

(** [doGitSwitchBranchTag]: the value returned and the calls of
    [execTaskGroups], in order. *)
Definition doGitSwitchBranchTag (choose : RepoBranches -> list string -> option string)
    (deleteOrSwitch : DeleteOrSwitch) (text : string) (defaultForNotExist : bool)
    (targetedRepos : list RepoBranches)
    : PyExn + (bool * list (string * list GitTaskGroup)) :=
  and_then (getTargetedBranchTag deleteOrSwitch text) (fun branchTagName =>
  let descCheckout :=
    ("Checkouting " ++ (if isBranchDialog deleteOrSwitch then "branch" else "tag")
     ++ " " ++ branchTagName ++ " ")%string in
  let descCheckoutInt := "Checkouting backup branch int" in
  and_then
    (if isBranchDialog deleteOrSwitch then
       switch_branch_loop choose branchTagName descCheckout defaultForNotExist
         targetedRepos [] []
     else
       inr (Some (map (tag_checkout_group descCheckout branchTagName) targetedRepos, [])))
    (fun groups =>
       match groups with
       | None => inr (false, [])
       | Some (taskGroupsCmdBranchTag, taskGroupsCmdInt) =>
           inr (true,
                (if (0 <? length taskGroupsCmdBranchTag)%nat
                 then [(descCheckout, taskGroupsCmdBranchTag)] else []) ++
                (if (0 <? length taskGroupsCmdInt)%nat
                 then [(descCheckoutInt, taskGroupsCmdInt)] else []))
       end)).

(** ** Predicates the properties are stated with *)

(** A list is ascending when every element is below all later ones. *)
Definition ascending (l : list string) : Prop :=
  forall i j a b, i < j -> l !! i = Some a -> l !! j = Some b ->
                  String.compare a b = Lt.

(** [name] is [origin/branch] for an [origin] without slash. *)
Definition names_branch (name branch : string) : Prop :=
  exists origin, name = (origin ++ String SLASH branch)%string /\
                 cut SLASH origin = None.

(** Some remote name of [repo] is [origin/branch]. *)
Definition has_remote (repo : RepoBranches) (branch : string) : bool :=
  existsb (fun name => match cut SLASH name with
                       | Some (_, b) => String.eqb branch b
                       | None => false
                       end) (branches_remote repo).

Definition has_local (repo : RepoBranches) (branch : string) : bool :=
  py_in branch (branches_local repo).

(** The commands [doGitDeleteBranch] issues in a repository for one
    branch. *)
Definition branch_delete_cmds (repo : RepoBranches) (delRemote delLocal : bool)
    (b : string) : list (list string) :=
  (if has_remote repo b && delRemote then [["push"; "origin"; "--delete"; b]] else [])
  ++ (if has_local repo b && delLocal then [["branch"; "-d"; b]] else []).

(** The remote names of [repo] of the form [origin/branch], in order. *)
Definition remote_matches (repo : RepoBranches) (branch : string) : list string :=
  List.filter (fun name => match cut SLASH name with
                           | Some (_, b) => String.eqb branch b
                           | None => false
                           end) (branches_remote repo).

(** Every remote name of [repo] holds a slash. *)
Definition remotes_well_formed (repo : RepoBranches) : Prop :=
  forall name, name ∈ branches_remote repo -> cut SLASH name <> None.

(** A group of one git task with the default arguments. *)
Definition single_task_group (desc : string) (repo : RepoBranches)
    (args : list string) : GitTaskGroup :=
  {| gg_desc := desc; gg_repo := repo; gg_tasks := [git_task_for desc repo args] |}.

(** * Properties *)

Lemma TaskState_eqb_spec a b : TaskState_eqb a b = true <-> a = b.
Proof. destruct a, b; simpl; split; congruence. Qed.

(** Unfolding the methods of a task on its own. *)
Ltac task1_red :=
  cbv beta iota delta
    [task_run task_task_done task_abort
     MgExecTask_run MgExecTask_task_done MgExecTask_abort
     t1_self t1_set t1_log alone
     bind ret raise get gets modify assert final];
  simpl.

(** ** Tasks *)

(** C1. A failing completion of a task with [ignore_failure] leaves the task
    Errored ([is_task_successful] false, [is_task_errored] true) while the
    emitted [sig_task_done] carries success [true] and the output unchanged;
    without [ignore_failure] the emitted success is the outcome itself. *)
Theorem task_done_masks_failure_in_event_only (w : Task1) (output : string) :
  (ignore_failure (the_task w) = true ->
   exists w',
     task_task_done false output w = Ok tt w' /\
     task_state (the_task w') = Errored /\
     is_task_successful (the_task w') = false /\
     is_task_errored (the_task w') = true /\
     events w' = events w ++ [SigTaskDone true output]) /\
  (ignore_failure (the_task w) = false ->
   forall success, exists w',
     task_task_done success output w = Ok tt w' /\
     task_state (the_task w') = (if success then Successful else Errored) /\
     events w' = events w ++ [SigTaskDone success output]).
Proof.
  destruct w as [[d st c ig] evs]; simpl.
  split; intros ->.
  - eexists; split; [task1_red; reflexivity|]. simpl. auto.
  - intros [|]; (eexists; split; [task1_red; reflexivity|]); simpl; auto.
Qed.

Lemma task_done_masks_failure_in_event_only_witness :
  (exists w',
     task_task_done false "fatal: no such ref"
       (alone (MgExecTask_init "checkout (step 1)" true)) = Ok tt w' /\
     task_state (the_task w') = Errored /\
     is_task_successful (the_task w') = false /\
     is_task_errored (the_task w') = true /\
     events w' = [SigTaskDone true "fatal: no such ref"]) /\
  (forall success, exists w',
     task_task_done success "out"
       (alone (MgExecTask_init "checkout (step 2)" false)) = Ok tt w' /\
     task_state (the_task w') = (if success then Successful else Errored) /\
     events w' = [SigTaskDone success "out"]).
Proof.
  split.
  - apply (proj1 (task_done_masks_failure_in_event_only
                    (alone (MgExecTask_init "checkout (step 1)" true))
                    "fatal: no such ref")).
    reflexivity.
  - apply (proj2 (task_done_masks_failure_in_event_only
                    (alone (MgExecTask_init "checkout (step 2)" false))
                    "out")).
    reflexivity.
Defined.

(** C4. [run()] on a Started task changes nothing and does not dispatch
    [_do_run]; on a Successful or Errored task it resets the state to
    NotStarted, moves it to Started and dispatches [_do_run] once. *)
Theorem run_rejected_when_started_restarts_when_finished (w : Task1) :
  (task_state (the_task w) = Started -> task_run w = Ok tt w) /\
  (is_task_done (the_task w) = true ->
   task_run w =
     Ok tt {| the_task :=
                with_task_state Started (with_task_state NotStarted (the_task w));
              events := events w ++ [DoRun] |} /\
   task_state (the_task (final (task_run w))) = Started).
Proof.
  destruct w as [[d st c ig] evs]; simpl. split.
  - intros ->. reflexivity.
  - unfold is_task_done; simpl.
    destruct st; try discriminate; intros _; split; reflexivity.
Qed.

Lemma run_rejected_when_started_restarts_when_finished_witness :
  (let w := {| the_task := with_task_state Started (MgExecTask_init "fetch" false);
               events := [DoRun] |} in
   task_run w = Ok tt w) /\
  (let w := {| the_task := with_task_state Errored (MgExecTask_init "fetch" false);
               events := [DoRun; SigTaskDone false "x"] |} in
   task_run w =
     Ok tt {| the_task :=
                with_task_state Started (with_task_state NotStarted (the_task w));
              events := events w ++ [DoRun] |} /\
   task_state (the_task (final (task_run w))) = Started).
Proof.
  split.
  - exact (proj1 (run_rejected_when_started_restarts_when_finished
                    {| the_task := with_task_state Started (MgExecTask_init "fetch" false);
                       events := [DoRun] |}) eq_refl).
  - exact (proj2 (run_rejected_when_started_restarts_when_finished
                    {| the_task := with_task_state Errored (MgExecTask_init "fetch" false);
                       events := [DoRun; SigTaskDone false "x"] |}) eq_refl).
Defined.

(** C5, as stated, fails: aborting a NotStarted task that has
    [ignore_failure] emits success [true], since the event goes through the
    masking of [task_done]. *)
Lemma abort_before_start_event_is_masked :
  let w := alone (MgExecTask_init "checkout (step 1)" true) in
  task_state (the_task w) = NotStarted /\
  events (final (task_abort w)) = [SigTaskDone true "Aborted before started."] /\
  events (final (task_abort w)) <>
    events w ++ [SigTaskDone false "Aborted before started."].
Proof. simpl. repeat split; discriminate. Qed.

(** C5, amended. [abort()] on a NotStarted task moves it to Errored and
    emits one completion event with the message 'Aborted before started.',
    whose success is false unless the task has [ignore_failure] (then true);
    on a Successful or Errored task [abort()] changes nothing and emits
    nothing. *)
Theorem abort_before_start_and_after_finish (w : Task1) :
  (task_state (the_task w) = NotStarted ->
   task_abort w =
     Ok tt {| the_task := with_task_state Errored (the_task w);
              events := events w ++
                [SigTaskDone (ignore_failure (the_task w))
                             "Aborted before started."] |}) /\
  (is_task_done (the_task w) = true -> task_abort w = Ok tt w).
Proof.
  destruct w as [[d st c ig] evs]; simpl. split.
  - intros ->. destruct ig; reflexivity.
  - unfold is_task_done; simpl. destruct st; try discriminate; reflexivity.
Qed.

Lemma abort_before_start_and_after_finish_witness :
  (let w := alone (MgExecTask_init "pull" false) in
   task_abort w =
     Ok tt {| the_task := with_task_state Errored (the_task w);
              events := [SigTaskDone false "Aborted before started."] |}) /\
  (let w := {| the_task := with_task_state Successful (MgExecTask_init "pull" false);
               events := [DoRun; SigTaskDone true "ok"] |} in
   task_abort w = Ok tt w).
Proof.
  split.
  - exact (proj1 (abort_before_start_and_after_finish
                    (alone (MgExecTask_init "pull" false))) eq_refl).
  - exact (proj2 (abort_before_start_and_after_finish
                    {| the_task := with_task_state Successful (MgExecTask_init "pull" false);
                       events := [DoRun; SigTaskDone true "ok"] |}) eq_refl).
Defined.

(** ** Task groups and preconditions *)

(** C10. A group without tasks that has not been aborted is finished and
    successful, not errored and not started. *)
Theorem empty_group_is_vacuously_finished (g : MgExecTaskGroup) :
  tasks g = [] -> aborted g = false ->
  is_finished g = true /\ is_successful g = true /\
  is_errored g = false /\ is_started g = false.
Proof.
  intros Ht Ha.
  unfold is_finished, is_successful, is_errored, is_started, is_aborted.
  rewrite Ht, Ha. simpl. auto.
Qed.

Lemma empty_group_is_vacuously_finished_witness :
  let g := MgExecTaskGroup_init "nothing to do"
             {| name := "repo"; fullpath := "/src/repo" |} None in
  is_finished g = true /\ is_successful g = true /\
  is_errored g = false /\ is_started g = false.
Proof.
  exact (empty_group_is_vacuously_finished
           (MgExecTaskGroup_init "nothing to do"
              {| name := "repo"; fullpath := "/src/repo" |} None)
           eq_refl eq_refl).
Defined.

(** C7, as stated, fails: a group that was aborted before any of its tasks
    started, which is what [abortItem] leaves on a runner that was never
    started, has not started, and yet the precondition is Fulfilled: an
    aborted group counts as finished, and finished is tested first. *)
Lemma aborted_before_start_is_fulfilled :
  exists s,
    sample_run 2 true [EvAbortItem] = Some s /\
    is_started (taskGroup s) = false /\
    after_other_taskgroup_is_started_and_dir_exists
      (Some (taskGroup s)) (fun _ => true) = PreConditionState.FulFilled /\
    after_other_taskgroup_is_started_and_dir_exists
      (Some (taskGroup s)) (fun _ => true) <> PreConditionState.NotFulfilled.
Proof.
  eexists. split; [vm_compute; reflexivity|]. vm_compute.
  split; [reflexivity|split; [reflexivity|discriminate]].
Qed.

(** C7, amended. The started-and-directory-exists precondition is Errored
    when the referenced group is absent, Fulfilled when it is finished
    whatever the file system says, which includes every aborted group even
    if none of its tasks started, Fulfilled when it has started and its
    repository path exists, and NotFulfilled when it is not finished and
    either has not started or has started while the path does not exist. *)
Theorem started_and_dir_exists_cases (path_exists : string -> bool) :
  after_other_taskgroup_is_started_and_dir_exists None path_exists
    = PreConditionState.Errored /\
  (forall g, is_finished g = true ->
     after_other_taskgroup_is_started_and_dir_exists (Some g) path_exists
       = PreConditionState.FulFilled) /\
  (forall g, is_started g = true -> path_exists (fullpath (repo g)) = true ->
     after_other_taskgroup_is_started_and_dir_exists (Some g) path_exists
       = PreConditionState.FulFilled) /\
  (forall g, is_finished g = false -> is_started g = false ->
     after_other_taskgroup_is_started_and_dir_exists (Some g) path_exists
       = PreConditionState.NotFulfilled) /\
  (forall g, is_finished g = false -> is_started g = true ->
     path_exists (fullpath (repo g)) = false ->
     after_other_taskgroup_is_started_and_dir_exists (Some g) path_exists
       = PreConditionState.NotFulfilled) /\
  (forall g, is_aborted g = true ->
     after_other_taskgroup_is_started_and_dir_exists (Some g) path_exists
       = PreConditionState.FulFilled).
Proof.
  unfold after_other_taskgroup_is_started_and_dir_exists.
  repeat split; intros g.
  - intros ->. reflexivity.
  - intros -> ->. destruct (is_finished g); reflexivity.
  - intros -> ->. reflexivity.
  - intros -> -> ->. reflexivity.
  - intros Ha. unfold is_finished. rewrite Ha. reflexivity.
Qed.

Lemma started_and_dir_exists_cases_witness :
  let r := {| name := "lib"; fullpath := "/src/lib" |} in
  let cloning :=
    MgExecTaskGroup_init "clone" r
      (Some [with_task_state Started (MgExecTask_init "git clone" false)]) in
  let cloned :=
    MgExecTaskGroup_init "clone" r
      (Some [with_task_state Successful (MgExecTask_init "git clone" false)]) in
  let waiting :=
    MgExecTaskGroup_init "clone" r (Some [MgExecTask_init "git clone" false]) in
  after_other_taskgroup_is_started_and_dir_exists (Some cloned) (fun _ => false)
    = PreConditionState.FulFilled /\
  after_other_taskgroup_is_started_and_dir_exists (Some cloning) (fun _ => true)
    = PreConditionState.FulFilled /\
  after_other_taskgroup_is_started_and_dir_exists (Some waiting) (fun _ => true)
    = PreConditionState.NotFulfilled /\
  after_other_taskgroup_is_started_and_dir_exists (Some cloning) (fun _ => false)
    = PreConditionState.NotFulfilled /\
  after_other_taskgroup_is_started_and_dir_exists (Some (group_abort waiting))
    (fun _ => false) = PreConditionState.FulFilled.
Proof.
  intros r cloning cloned waiting.
  pose proof (started_and_dir_exists_cases (fun _ => false))
    as (_ & Hfin & _ & _ & Hno & Hab).
  pose proof (started_and_dir_exists_cases (fun _ => true)) as (_ & _ & Hup & Hwait & _).
  split; [|split; [|split; [|split]]].
  - apply Hfin. reflexivity.
  - apply Hup; reflexivity.
  - apply Hwait; reflexivity.
  - apply Hno; reflexivity.
  - apply Hab. reflexivity.
Defined.

(** The runner's methods are rewritten with their equations, not unfolded. *)
Arguments runOneCmdline : simpl never.
Arguments retry_rollback : simpl never.
Arguments allCmdDone : simpl never.
Arguments askQuestionAfterCmdFailed : simpl never.
Arguments slotOneCmdDone : simpl never.
Arguments OneCmd_slotTaskDone : simpl never.
Arguments OneCmd_abortItem : simpl never.
Arguments handleQuestionResult : simpl never.
Arguments abortItem : simpl never.
Arguments MgExecItemMultiCmd_run : simpl never.
Arguments r_task_run : simpl never.
Arguments r_task_done : simpl never.
Arguments r_task_abort : simpl never.

(** ** Helper facts on lists, indices and the monad *)

Lemma alter_known {A} (f : A -> A) (i : nat) (l : list A) (x : A) :
  l !! i = Some x -> alter f i l = <[i := f x]> l.
Proof.
  revert i; induction l as [|y l IH]; intros [|i]; simpl; try discriminate.
  - intros [= ->]. reflexivity.
  - intros H. f_equal. apply IH, H.
Qed.

Lemma alter_alter_known {A} (f g : A -> A) (i : nat) (l : list A) (x : A) :
  l !! i = Some x -> alter f i (alter g i l) = <[i := f (g x)]> l.
Proof.
  intros H. rewrite (alter_known g i l x H).
  rewrite (alter_known f i _ (g x)).
  - apply list_insert_insert_eq.
  - apply list_lookup_insert_eq. eapply lookup_lt_Some, H.
Qed.

Lemma py_index_nat {A} (l : list A) (k : nat) :
  k < length l -> py_index l (Z.of_nat k) = Some k.
Proof.
  intros H. unfold py_index.
  destruct (Z.leb_spec 0 (Z.of_nat k)); [|lia].
  destruct (Z.ltb_spec (Z.of_nat k) (Z.of_nat (length l))); [|lia].
  simpl. f_equal. lia.
Qed.

Lemma connected_slots_app i p cs cs' :
  connected_slots i p (cs ++ cs') =
  connected_slots i p cs ++ connected_slots i (p + length cs) cs'.
Proof.
  revert p; induction cs as [|[it|] cs IH]; intros p; simpl.
  - rewrite Nat.add_0_r. reflexivity.
  - rewrite IH. replace (S p + length cs) with (p + S (length cs)) by lia.
    destruct (_ && _); reflexivity.
  - rewrite IH. replace (S p + length cs) with (p + S (length cs)) by lia.
    reflexivity.
Qed.

Lemma connected_slots_none i p cs :
  (forall q it, cs !! q = Some (OneCmd it) -> connected it = true -> task it <> i) ->
  connected_slots i p cs = [].
Proof.
  revert p; induction cs as [|[it|] cs IH]; intros p H; simpl; auto.
  - destruct (Nat.eqb_spec (task it) i) as [e|]; simpl.
    + destruct (connected it) eqn:Hc.
      * exfalso. exact (H 0 it eq_refl Hc e).
      * apply IH. intros q it' Hq. exact (H (S q) it' Hq).
    + apply IH. intros q it' Hq. exact (H (S q) it' Hq).
  - apply IH. intros q it' Hq. exact (H (S q) it' Hq).
Qed.

Lemma items_ok_slots k cs p : items_ok k cs -> connected_slots k p cs = [].
Proof.
  intros H. apply connected_slots_none. intros q it Hq Hc.
  destruct (H q it Hq) as [_ Hlt]. specialize (Hlt Hc). lia.
Qed.

(** ** The runner's methods on the states of a run *)

Ltac runner_red :=
  cbv beta iota delta
    [bind ret raise get gets modify assert final log addChild
     r_self r_set_task_state r_task_run r_task_done r_task_abort
     MgExecTask_run MgExecTask_task_done MgExecTask_abort
     set_tasks set_taskGroup set_taskIdx set_abortRequested set_nbCmdDone
     set_nbError set_isStarted set_buttonBar set_buttonBarItem set_children
     set_trace with_tasks group_abort group_len isDone child childCount
     taskGroup taskIdx abortRequested askQuestionUponFailure nbCmdDone nbError
     isStarted buttonBar buttonBarItem children trace
     g_desc repo tasks aborted].

Lemma r_task_run_eq s j t :
  tasks (taskGroup s) !! j = Some t -> task_state t <> Started ->
  r_task_run j s =
    Ok tt (set_trace (trace s ++ [TaskEv j DoRun])
             (set_tasks (<[j := with_task_state Started t]> (tasks (taskGroup s))) s)).
Proof.
  destruct s as [[d r l a] idx ab ask nd ne st bb bbi cs tr].
  runner_red. intros Hl Hst. rewrite Hl.
  destruct (TaskState_eqb (task_state t) Started) eqn:E.
  { apply TaskState_eqb_spec in E. contradiction. }
  rewrite Hl.
  destruct (is_task_done t) eqn:Hd; runner_red.
  - rewrite (alter_alter_known _ _ _ _ _ Hl). reflexivity.
  - rewrite (alter_known _ _ _ _ Hl). reflexivity.
Qed.

Ltac mred :=
  cbv beta iota delta
    [bind ret raise get gets modify assert final log addChild
     set_tasks set_taskGroup set_taskIdx set_abortRequested set_nbCmdDone
     set_nbError set_isStarted set_buttonBar set_buttonBarItem set_children
     set_trace with_tasks group_abort group_len isDone child childCount
     taskGroup taskIdx abortRequested askQuestionUponFailure nbCmdDone nbError
     isStarted buttonBar buttonBarItem children trace
     g_desc repo tasks aborted];
  cbn [negb andb orb].

Lemma runOneCmdline_next s j t :
  isDone s = false -> (taskIdx s + 1)%Z = Z.of_nat j ->
  tasks (taskGroup s) !! j = Some t -> task_state t <> Started ->
  runOneCmdline false s =
    Ok tt (set_trace (trace s ++ [TaskEv j DoRun])
             (set_tasks (<[j := with_task_state Started t]> (tasks (taskGroup s)))
                (set_children (children s ++ [new_item j])
                   (set_taskIdx (Z.of_nat j) s)))).
Proof.
  destruct s as [[d r l a] idx ab ask nd ne st bb bbi cs tr].
  unfold runOneCmdline, isDone. mred. intros Hd Hi Hl Hst.
  rewrite Hd. cbn [negb]. rewrite Hi.
  rewrite (py_index_nat l j) by (eapply lookup_lt_Some, Hl).
  erewrite r_task_run_eq; [reflexivity| exact Hl | exact Hst].
Qed.

Lemma allCmdDone_eq s :
  allCmdDone s =
    Ok tt (set_trace
             (trace s ++ [CbExecDone ((nbError s =? 0)%Z && negb (abortRequested s));
                          RepoRefresh])
             (set_nbCmdDone (group_len (taskGroup s)) s)).
Proof.
  destruct s as [[d r l a] idx ab ask nd ne st bb bbi cs tr].
  unfold allCmdDone. mred. rewrite <- app_assoc. reflexivity.
Qed.

Lemma askQuestionAfterCmdFailed_eq s :
  abortRequested s = false ->
  askQuestionAfterCmdFailed s =
    let f := question_flags (nbCmdDone s =? group_len (taskGroup s))%Z in
    Ok tt (set_trace (trace s ++ [AskQuestion f])
             (set_buttonBar (Some f)
                (set_children (children s ++ [ButtonBarItem])
                   (set_buttonBarItem (Some (length (children s))) s)))).
Proof.
  destruct s as [[d r l a] idx ab ask nd ne st bb bbi cs tr].
  unfold askQuestionAfterCmdFailed. mred. intros ->. rewrite orb_false_r.
  destruct (nd =? Z.of_nat (length l))%Z; reflexivity.
Qed.

Lemma last2_index {A} (cs : list A) (a b : A) :
  (0 <=? Z.of_nat (length (cs ++ [a; b])) - 2)%Z = true /\
  Z.to_nat (Z.of_nat (length (cs ++ [a; b])) - 2) = length cs.
Proof.
  rewrite length_app. simpl. split; [apply Z.leb_le|]; lia.
Qed.

Lemma retry_rollback_eq s cs it k :
  children s = cs ++ [OneCmd it; ButtonBarItem] ->
  task it = k -> connected it = true ->
  taskIdx s = Z.of_nat k -> k < length (tasks (taskGroup s)) ->
  retry_rollback s =
    Ok tt (set_taskIdx (Z.of_nat k - 1)
             (set_nbError (nbError s - 1)
                (set_nbCmdDone (nbCmdDone s - 1)
                   (set_children (cs ++ [OneCmd (disconnect it); ButtonBarItem]) s)))).
Proof.
  destruct s as [[d r l a] idx ab ask nd ne st bb bbi cs0 tr].
  unfold retry_rollback. mred. intros -> Ht Hc -> Hk.
  destruct (last2_index cs (OneCmd it) ButtonBarItem) as [H0 Hn].
  rewrite H0, Hn, (py_index_nat l k Hk).
  rewrite (list_lookup_middle cs _ _ (length cs) eq_refl).
  rewrite Ht, Nat.eqb_refl, Hc. mred.
  rewrite Hn. replace (length cs) with (length cs + 0) at 1 by lia.
  rewrite insert_app_r. unfold disconnect. rewrite Ht. reflexivity.
Qed.

Lemma runOneCmdline_retry s s1 :
  retry_rollback s = Ok tt s1 -> runOneCmdline true s = runOneCmdline false s1.
Proof. intros H. unfold runOneCmdline. unfold bind at 1. rewrite H. reflexivity. Qed.

Lemma slotOneCmdDone_eq success s :
  slotOneCmdDone success s =
    let s1 := counted success s in
    if negb success && negb (abortRequested s) then
      if negb (askQuestionUponFailure s) then allCmdDone s1
      else askQuestionAfterCmdFailed s1
    else if negb (isDone s1) then runOneCmdline false s1
    else allCmdDone s1.
Proof.
  destruct s as [[d r l a] idx ab ask nd ne st bb bbi cs tr].
  unfold slotOneCmdDone, counted.
  destruct success, ab, ask; mred; try reflexivity;
    destruct (_ =? _)%Z; reflexivity.
Qed.

Lemma OneCmd_slotTaskDone_eq p success out s s2 it :
  slotOneCmdDone success s = Ok tt s2 ->
  children s2 !! p = Some (OneCmd it) -> refresh_when_completed it = false ->
  OneCmd_slotTaskDone p success out s = Ok tt s2.
Proof.
  intros H Hp Hr. unfold OneCmd_slotTaskDone, bind. rewrite H.
  unfold get, ret. cbv beta iota. rewrite Hp, Hr, andb_false_r. reflexivity.
Qed.

Lemma r_task_done_eq s k t cs it success out :
  tasks (taskGroup s) !! k = Some t ->
  children s = cs ++ [OneCmd it] -> task it = k -> connected it = true ->
  items_ok k cs ->
  r_task_done k success out s =
    OneCmd_slotTaskDone (length cs) (emitted success t) out
      (set_trace (trace s ++ [TaskEv k (SigTaskDone (emitted success t) out)])
         (set_tasks (<[k := with_task_state (outcome success) t]>
                       (tasks (taskGroup s))) s)).
Proof.
  destruct s as [[d r l a] idx ab ask nd ne st bb bbi cs0 tr].
  unfold r_task_done, MgExecTask_task_done, r_sig_task_done_emit, r_self,
    r_set_task_state.
  mred. intros Hl -> Ht Hc Hcs.
  rewrite (alter_known _ _ _ _ Hl).
  rewrite list_lookup_insert_eq by (eapply lookup_lt_Some, Hl).
  cbn [ignore_failure with_task_state].
  rewrite connected_slots_app, (items_ok_slots _ _ _ Hcs).
  cbn [connected_slots app]. rewrite Ht, Nat.eqb_refl, Hc. cbn [andb call_slots].
  mred. rewrite (list_lookup_middle cs [] _ (0 + length cs) eq_refl), Hc.
  cbn [Nat.add]. unfold emitted, outcome.
  match goal with |- context [OneCmd_slotTaskDone ?p ?b ?o ?s] =>
    generalize (OneCmd_slotTaskDone p b o s) end.
  intros [[] ?|]; reflexivity.
Qed.

(** *** Abort *)

Lemma abortItem_eq s :
  abortItem s =
    match buttonBar s with
    | Some _ => handleQuestionResult ABORT (abort_marked s)
    | None =>
        if (nbCmdDone s =? group_len (taskGroup s))%Z then
          Ok tt (set_abortRequested false (abort_marked s))
        else if negb (isStarted s) then allCmdDone (abort_marked s)
        else abort_job_in_progress 0 (children s) (abort_marked s)
    end.
Proof.
  destruct s as [[d r l a] idx ab ask nd ne st bb bbi cs tr].
  unfold abortItem, abort_marked. mred.
  destruct bb; [reflexivity|].
  destruct (nd =? Z.of_nat (length l))%Z; [reflexivity|].
  destruct st; reflexivity.
Qed.

Lemma OneCmd_abortItem_eq s p it t :
  children s !! p = Some (OneCmd it) ->
  tasks (taskGroup s) !! task it = Some t -> task_state t = Started ->
  OneCmd_abortItem p s =
    Ok tt (set_trace (trace s ++ [TaskEv (task it) DoAbort])
             (set_children (<[p := OneCmd (flag_abort it)]> (children s)) s)).
Proof.
  destruct s as [[d r l a] idx ab ask nd ne st bb bbi cs tr].
  unfold OneCmd_abortItem, r_task_abort, MgExecTask_abort, r_self.
  mred. intros Hp Hl Hst. rewrite Hp. mred. rewrite Hl.
  unfold is_task_done. rewrite Hst. mred. rewrite Hl, Hst.
  cbn [TaskState_eqb]. mred. rewrite Hl, Hst. reflexivity.
Qed.

Lemma abort_job_in_progress_eq s k tk suf : forall pre,
  children s = pre ++ suf ->
  tasks (taskGroup s) !! k = Some tk -> task_state tk = Started ->
  (forall q it, suf !! q = Some (OneCmd it) ->
     exists t, tasks (taskGroup s) !! task it = Some t /\
               (task_state t = Started -> task it = k)) ->
  (exists q it, suf !! q = Some (OneCmd it) /\ task it = k) ->
  exists p it,
    children s !! p = Some (OneCmd it) /\ task it = k /\
    abort_job_in_progress (length pre) suf s =
      Ok tt (set_trace (trace s ++ [TaskEv k DoAbort])
               (set_children (<[p := OneCmd (flag_abort it)]> (children s)) s)).
Proof.
  induction suf as [|c suf IH]; intros pre Hcs Hk Hst Hall Hex.
  { destruct Hex as (q & it & Hq & _). destruct q; discriminate. }
  assert (Hcs' : children s = (pre ++ [c]) ++ suf)
    by (rewrite <- app_assoc; exact Hcs).
  assert (Hlen : length (pre ++ [c]) = S (length pre))
    by (rewrite length_app; simpl; lia).
  assert (Hall' : forall q it, suf !! q = Some (OneCmd it) ->
            exists t, tasks (taskGroup s) !! task it = Some t /\
                      (task_state t = Started -> task it = k))
    by (intros q it Hq; exact (Hall (S q) it Hq)).
  destruct c as [it|].
  - destruct (Hall 0 it eq_refl) as (t & Hl & Himp).
    cbn [abort_job_in_progress]. unfold bind at 1, r_self at 1. rewrite Hl.
    destruct (task_state t) eqn:Et.
    + unfold is_task_started, is_task_done; rewrite Et; cbn [andb negb].
      destruct Hex as ([|q] & it' & Hq & Hit').
      * injection Hq as <-. rewrite Hit' in Hl. congruence.
      * rewrite <- Hlen. apply (IH (pre ++ [OneCmd it])); eauto.
    + exists (length pre), it.
      assert (Hp : children s !! length pre = Some (OneCmd it))
        by (rewrite Hcs; apply list_lookup_middle; reflexivity).
      specialize (Himp eq_refl). split; [exact Hp|]. split; [exact Himp|].
      unfold is_task_started, is_task_done; rewrite Et; cbn [andb negb].
      rewrite (OneCmd_abortItem_eq s _ it t Hp Hl Et), Himp. reflexivity.
    + unfold is_task_started, is_task_done; rewrite Et; cbn [andb negb].
      destruct Hex as ([|q] & it' & Hq & Hit').
      * injection Hq as <-. rewrite Hit' in Hl. congruence.
      * rewrite <- Hlen. apply (IH (pre ++ [OneCmd it])); eauto.
    + unfold is_task_started, is_task_done; rewrite Et; cbn [andb negb].
      destruct Hex as ([|q] & it' & Hq & Hit').
      * injection Hq as <-. rewrite Hit' in Hl. congruence.
      * rewrite <- Hlen. apply (IH (pre ++ [OneCmd it])); eauto.
  - cbn [abort_job_in_progress].
    destruct Hex as ([|q] & it' & Hq & Hit'); [discriminate|].
    rewrite <- Hlen. apply (IH (pre ++ [ButtonBarItem])); eauto.
Qed.

Lemma handleQuestionResult_eq s c p cs a b :
  buttonBarItem s = Some p -> children s = cs ++ [a; b] ->
  handleQuestionResult c s =
    let s1 := set_buttonBar None s in
    if (c =? ABORT)%Z || abortRequested s then
      allCmdDone (set_taskGroup (group_abort (taskGroup s)) s1)
    else if (c =? CONTINUE)%Z then runOneCmdline false s1
    else if (c =? RETRY)%Z then runOneCmdline true s1
    else if (c =? OK)%Z then allCmdDone s1
    else Raise AssertionError s1.
Proof.
  destruct s as [[d r l a0] idx ab ask nd ne st bb bbi cs0 tr].
  unfold handleQuestionResult. mred. intros -> ->.
  destruct (last2_index cs a b) as [H0 Hn].
  rewrite H0, Hn, (list_lookup_middle cs _ _ (length cs) eq_refl).
  destruct ((c =? ABORT)%Z || ab); [reflexivity|].
  destruct (c =? CONTINUE)%Z; [reflexivity|].
  destruct (c =? RETRY)%Z; [reflexivity|].
  destruct (c =? OK)%Z; reflexivity.
Qed.

(** ** Facts on the shape of the task list *)

Lemma done_before_insert k i x l :
  done_before k l -> k <= i -> done_before k (<[i := x]> l).
Proof.
  intros H Hi j t Hj Hlt. rewrite list_lookup_insert_ne in Hj by lia. eauto.
Qed.

Lemma done_before_S k x l :
  done_before k l -> is_task_done x = true -> done_before (S k) (<[k := x]> l).
Proof.
  intros H Hx j t Hj Hlt. apply list_lookup_insert_Some in Hj.
  destruct Hj as [(-> & -> & _)|[Hne Hj]]; [exact Hx|].
  apply (H j t Hj). lia.
Qed.

Lemma fresh_from_insert k i x l :
  fresh_from k l -> i < k -> fresh_from k (<[i := x]> l).
Proof.
  intros H Hi j t Hj Hle. rewrite list_lookup_insert_ne in Hj by lia. eauto.
Qed.

Lemma fresh_from_le k k' l : fresh_from k l -> k <= k' -> fresh_from k' l.
Proof. intros H Hk j t Hj Hle. apply (H j t Hj). lia. Qed.

Lemma none_started_split k l :
  done_before k l -> fresh_from k l -> none_started l.
Proof.
  intros Hd Hf j t Hj Hst. destruct (Nat.lt_ge_cases j k) as [Hlt|Hge].
  - specialize (Hd j t Hj Hlt). unfold is_task_done in Hd.
    rewrite Hst in Hd. discriminate.
  - specialize (Hf j t Hj Hge). congruence.
Qed.

Lemma items_ok_snoc k k' cs it :
  items_ok k cs -> k <= k' -> task it <= k' ->
  (connected it = true -> task it < k') ->
  items_ok k' (cs ++ [OneCmd it]).
Proof.
  intros H Hk Ht Hc p it' Hp. apply lookup_snoc_Some in Hp.
  destruct Hp as [[_ Hp]|[_ Hp]].
  - destruct (H p it' Hp) as [H1 H2]. split; [lia|]. intros Hc'.
    specialize (H2 Hc'). lia.
  - injection Hp as <-. auto.
Qed.

Lemma items_ok_snoc_bar k cs : items_ok k cs -> items_ok k (cs ++ [ButtonBarItem]).
Proof.
  intros H p it' Hp. apply lookup_snoc_Some in Hp.
  destruct Hp as [[_ Hp]|[_ Hp]]; [eauto|discriminate].
Qed.

(** ** One step of the environment, phase by phase *)

Lemma step_disabled s ev : enabled s ev = false -> step s ev = s.
Proof. unfold step. intros ->. reflexivity. Qed.

Lemma step_ok s ev s' :
  enabled s ev = true -> handle ev s = Ok tt s' -> step s ev = s'.
Proof. unfold step. intros -> ->. reflexivity. Qed.

Lemma no_task_done_event s i b out :
  none_started (tasks (taskGroup s)) -> enabled s (EvTaskDone i b out) = false.
Proof.
  intros H. cbn [enabled]. destruct (tasks (taskGroup s) !! i) as [t|] eqn:E; auto.
  destruct (TaskState_eqb (task_state t) Started) eqn:Es; auto.
  apply TaskState_eqb_spec in Es. destruct (H i t E Es).
Qed.

Lemma items_ok_nil k : items_ok k [].
Proof. intros p it Hp. destruct p; discriminate. Qed.

Lemma inv_same s : Inv s -> Inv s /\ idx_advances s s.
Proof. intros H. split; [exact H|]. unfold idx_advances. lia. Qed.

Lemma step_fresh s ev :
  phase_inv Fresh s -> Inv (step s ev) /\ idx_advances s (step s ev).
Proof.
  intros HI. pose proof HI as (Hst & Hab & Hbb & Hnd & Hne & Hidx & Hcs & Hlen & Hfr).
  destruct ev as [|i b out|c|].
  - (* run *)
    destruct (lookup_lt_is_Some_2 (tasks (taskGroup s)) 0 Hlen) as [t Ht].
    assert (Hns : task_state t <> Started)
      by (rewrite (Hfr 0 t Ht (Nat.le_refl 0)); discriminate).
    erewrite step_ok; cycle 1.
    { cbn [enabled]. rewrite Hst. reflexivity. }
    { cbn [handle]. unfold MgExecItemMultiCmd_run, bind, modify.
      apply (runOneCmdline_next _ 0 t); cbn; auto; try lia.
      unfold isDone. cbn. rewrite Hnd, Hab.
      destruct (Z.eqb_spec 0 (group_len (taskGroup s))); auto.
      unfold group_len in *. lia. }
    split; [|unfold idx_advances; cbn; lia].
    exists (Running 0). cbn. rewrite Hnd, Hne, Hcs.
    repeat split; auto; try lia.
    + intros j t' Hj Hlt. lia.
    + apply fresh_from_insert; [|lia]. eapply fresh_from_le; [exact Hfr|lia].
    + exists (with_task_state Started t). split; auto.
      apply list_lookup_insert_eq. lia.
    + exists [], {| task := 0; item_abortRequested := false;
                    refresh_when_completed := false; connected := true |}.
      repeat (split; [reflexivity|]). apply items_ok_nil.
  - rewrite step_disabled; [apply inv_same; exists Fresh; exact HI|].
    apply no_task_done_event. eapply none_started_split with (k := 0); eauto.
    intros j t Hj Hlt. lia.
  - rewrite step_disabled; [apply inv_same; exists Fresh; exact HI|].
    cbn [enabled]. rewrite Hbb. reflexivity.
  - (* abort before anything ran *)
    erewrite step_ok; cycle 1.
    { reflexivity. }
    { cbn [handle]. rewrite abortItem_eq, Hbb, Hnd, Hst.
      destruct (Z.eqb_spec 0 (group_len (taskGroup s))) as [e|_].
      { unfold group_len in e. lia. }
      cbn [negb]. apply allCmdDone_eq. }
    split; [|unfold idx_advances; cbn; lia].
    exists Final. cbn. repeat split; auto.
    eapply none_started_split with (k := 0); eauto. intros j t Hj Hlt. lia.
Qed.

Lemma runOneCmdline_done s :
  isDone s = true -> runOneCmdline false s = Raise AssertionError s.
Proof.
  intros H. unfold runOneCmdline, bind, ret, get. rewrite H. reflexivity.
Qed.

(** Once finalized, nothing the environment does changes the tasks, the
    position or the trace: no task starts and no callback is issued. *)
Lemma step_final s ev :
  phase_inv Final s ->
  phase_inv Final (step s ev) /\
  tasks (taskGroup (step s ev)) = tasks (taskGroup s) /\
  taskIdx (step s ev) = taskIdx s /\
  trace (step s ev) = trace s.
Proof.
  intros HI. pose proof HI as (Hbb & Hnd & Hns).
  destruct ev as [|i b out|c|].
  - unfold step. cbn [enabled handle].
    destruct (isStarted s); cbn [negb]; [auto|].
    unfold MgExecItemMultiCmd_run, bind, modify.
    rewrite runOneCmdline_done.
    + cbn. auto.
    + unfold isDone. cbn. rewrite Hnd, Z.eqb_refl. reflexivity.
  - rewrite step_disabled; auto. apply no_task_done_event, Hns.
  - rewrite step_disabled; auto. cbn [enabled]. rewrite Hbb. reflexivity.
  - unfold step. cbn [enabled handle]. rewrite abortItem_eq, Hbb, Hnd, Z.eqb_refl.
    cbn. auto.
Qed.

Lemma running_started_unique s k i t :
  phase_inv (Running k) s ->
  tasks (taskGroup s) !! i = Some t -> task_state t = Started -> i = k.
Proof.
  intros (_ & _ & _ & _ & _ & Hd & Hf & _) Hi Hst.
  destruct (Nat.lt_trichotomy i k) as [Hlt|[->|Hgt]]; auto.
  - specialize (Hd i t Hi Hlt). unfold is_task_done in Hd.
    rewrite Hst in Hd. discriminate.
  - rewrite (Hf i t Hi) in Hst by lia. discriminate.
Qed.

Lemma task_done_via_slot s k t cs it b out s2 rest :
  tasks (taskGroup s) !! k = Some t ->
  children s = cs ++ [OneCmd it] -> task it = k -> connected it = true ->
  refresh_when_completed it = false -> items_ok k cs ->
  slotOneCmdDone (emitted b t)
    (set_trace (trace s ++ [TaskEv k (SigTaskDone (emitted b t) out)])
       (set_tasks (<[k := with_task_state (outcome b) t]>
                     (tasks (taskGroup s))) s)) = Ok tt s2 ->
  children s2 = cs ++ OneCmd it :: rest ->
  r_task_done k b out s = Ok tt s2.
Proof.
  intros Hl Hcs Ht Hc Hr Hok Hslot Hcs2.
  rewrite (r_task_done_eq s k t cs it b out Hl Hcs Ht Hc Hok).
  apply (OneCmd_slotTaskDone_eq _ _ _ _ s2 it Hslot); [|exact Hr].
  rewrite Hcs2. apply list_lookup_middle. reflexivity.
Qed.

Lemma outcome_done b t : is_task_done (with_task_state (outcome b) t) = true.
Proof. destruct b; reflexivity. Qed.

(** A failure that is not masked, with no question to ask: the group is
    finalized at once. *)
Lemma running_task_done_fail_noask s k t out :
  phase_inv (Running k) s -> tasks (taskGroup s) !! k = Some t ->
  askQuestionUponFailure s = false -> ignore_failure t = false ->
  r_task_done k false out s =
    Ok tt (set_trace (trace s ++ [TaskEv k (SigTaskDone false out);
                                  CbExecDone false; RepoRefresh])
             (set_nbCmdDone (group_len (taskGroup s))
                (set_nbError (nbError s + 1)
                   (set_tasks (<[k := with_task_state Errored t]>
                                 (tasks (taskGroup s))) s)))).
Proof.
  intros (Hst & Hbb & Hidx & Hnd & Hne & Hd & Hf & _ & cs & it & Hcs & Ht & Hc & Hr & Hok)
    Hl Hask Hig.
  apply (task_done_via_slot s k t cs it false out _ [] Hl Hcs Ht Hc Hr Hok);
    [|cbn; exact Hcs].
  rewrite slotOneCmdDone_eq. unfold emitted, outcome. rewrite Hig.
  destruct s as [[d r l a] idx ab ask nd ne st bb bbi cs0 tr].
  cbn in *. subst ask. unfold counted. cbn.
  assert (Hz : (ne + 1 =? 0)%Z = false) by (apply Z.eqb_neq; lia).
  destruct ab; cbn.
  - unfold isDone. cbn. rewrite orb_true_r. cbn.
    rewrite allCmdDone_eq. cbn. rewrite Hz, <- app_assoc. cbn.
    unfold group_len. cbn. rewrite length_insert. reflexivity.
  - rewrite allCmdDone_eq. cbn. rewrite Hz, <- app_assoc. cbn.
    unfold group_len. cbn. rewrite length_insert. reflexivity.
Qed.

(** Task [k] has completed and its listener is about to be told: what
    [slotOneCmdDone] makes of it. *)
Lemma slotOneCmdDone_after_completion s k cs it b :
  isStarted s = true -> buttonBar s = None ->
  taskIdx s = Z.of_nat k -> nbCmdDone s = Z.of_nat k -> (0 <= nbError s)%Z ->
  k < length (tasks (taskGroup s)) ->
  done_before (S k) (tasks (taskGroup s)) ->
  fresh_from (S k) (tasks (taskGroup s)) ->
  children s = cs ++ [OneCmd it] -> task it = k -> connected it = true ->
  items_ok k cs ->
  exists s2 rest,
    slotOneCmdDone b s = Ok tt s2 /\ children s2 = cs ++ OneCmd it :: rest /\
    Inv s2 /\ idx_advances s s2.
Proof.
  intros Hst Hbb Hidx Hnd Hne Hk Hd Hf Hcs Ht Hc Hok.
  rewrite slotOneCmdDone_eq.
  destruct s as [[d r l a] idx ab ask nd ne st bb bbi cs0 tr].
  cbn in *. subst st bb idx nd cs0.
  assert (Hns : none_started l) by (eapply none_started_split; eauto).
  assert (Hfin : forall s2 : MgExecItemMultiCmd,
            buttonBar s2 = None -> tasks (taskGroup s2) = l ->
            nbCmdDone s2 = group_len (taskGroup s2) -> Inv s2).
  { intros s2 H1 H2 H3. exists Final. cbn. rewrite H2. auto. }
  destruct (negb b && negb ab) eqn:Hfail.
  - (* a failure, and no abort requested *)
    apply andb_true_iff in Hfail as [Hb Hab].
    apply negb_true_iff in Hb, Hab. subst b ab. unfold counted. cbn.
    destruct ask; cbn.
    + rewrite askQuestionAfterCmdFailed_eq by reflexivity. cbn.
      eexists _, [ButtonBarItem]. split; [reflexivity|]. cbn.
      split; [rewrite <- app_assoc; reflexivity|].
      split; [|unfold idx_advances; cbn; lia].
      exists (Asking k). cbn. unfold group_len. cbn.
      repeat (split; [first [reflexivity | assumption | lia | eauto]|]).
      exists cs, it. rewrite <- app_assoc. auto.
    + rewrite allCmdDone_eq. cbn.
      eexists _, []. split; [reflexivity|]. cbn.
      split; [reflexivity|]. split; [|unfold idx_advances; cbn; lia].
      apply Hfin; reflexivity.
  - (* a success, or an abort is requested *)
    set (s1 := counted b _).
    assert (Hs1 : isDone s1 = ((Z.of_nat k + 1 =? Z.of_nat (length l))%Z || ab))
      by (subst s1; destruct b; reflexivity).
    destruct (isDone s1) eqn:Hdone; cbn [negb].
    + rewrite allCmdDone_eq. subst s1.
      eexists _, []. split; [reflexivity|].
      split; [destruct b; reflexivity|].
      split; [|unfold idx_advances; destruct b; cbn; lia].
      apply Hfin; destruct b; reflexivity.
    + symmetry in Hs1. apply orb_false_iff in Hs1 as [Hlast Hab].
      apply Z.eqb_neq in Hlast. subst ab.
      assert (Hb : b = true) by (destruct b; [reflexivity|discriminate]).
      subst b s1. unfold counted in *. cbn in *.
      assert (HSk : S k < length l) by lia.
      destruct (lookup_lt_is_Some_2 l (S k) HSk) as [t1 Ht1].
      assert (Hst1 : task_state t1 = NotStarted) by (apply (Hf (S k) t1 Ht1); lia).
      rewrite (runOneCmdline_next _ (S k) t1); cbn; auto;
        [| lia | rewrite Hst1; discriminate].
      eexists _, [new_item (S k)]. split; [reflexivity|]. cbn.
      split; [rewrite <- app_assoc; reflexivity|].
      split; [|unfold idx_advances; cbn; lia].
      exists (Running (S k)). cbn [phase_inv]. cbn.
      repeat (split; [first [reflexivity | assumption | lia]|]).
      split; [apply done_before_insert; [assumption|lia]|].
      split; [apply fresh_from_insert; [eapply fresh_from_le; eauto|lia]|].
      split.
      * exists (with_task_state Started t1). split; [|reflexivity].
        apply list_lookup_insert_eq. lia.
      * eexists (cs ++ [OneCmd it]), _.
        repeat (split; [reflexivity|]).
        apply (items_ok_snoc k (S k)); auto; intros; lia.
Qed.

Lemma items_ok_flag k cs p it :
  items_ok k cs -> cs !! p = Some (OneCmd it) ->
  items_ok k (<[p := OneCmd (flag_abort it)]> cs).
Proof.
  intros H Hp q it' Hq. apply list_lookup_insert_Some in Hq.
  destruct Hq as [(-> & Heq & _)|[_ Hq]]; [|eauto].
  injection Heq as <-. exact (H _ it Hp).
Qed.

Lemma step_running k s ev :
  phase_inv (Running k) s -> Inv (step s ev) /\ idx_advances s (step s ev).
Proof.
  intros HI.
  pose proof HI as (Hst & Hbb & Hidx & Hnd & Hne & Hd & Hf & (t & Hl & Hts)
                    & cs & it & Hcs & Ht & Hc & Hr & Hok).
  assert (Hk : k < length (tasks (taskGroup s))) by (eapply lookup_lt_Some, Hl).
  destruct ev as [|i b out|c|].
  - rewrite step_disabled; [apply inv_same; exists (Running k); exact HI|].
    cbn [enabled]. rewrite Hst. reflexivity.
  - destruct (enabled s (EvTaskDone i b out)) eqn:En;
      [|rewrite step_disabled by exact En; apply inv_same; exists (Running k); exact HI].
    assert (i = k).
    { cbn [enabled] in En. destruct (tasks (taskGroup s) !! i) as [ti|] eqn:Ei;
        [|discriminate].
      apply TaskState_eqb_spec in En.
      exact (running_started_unique s k i ti HI Ei En). }
    subst i.
    destruct (slotOneCmdDone_after_completion (completed k t b out s) k cs it
                (emitted b t)) as (s2 & rest & Hslot & Hcs2 & HI2 & Hadv);
      try (cbn; assumption).
    + cbn. rewrite length_insert. exact Hk.
    + cbn. apply done_before_S; [exact Hd|apply outcome_done].
    + cbn. apply fresh_from_insert; [exact Hf|lia].
    + rewrite (step_ok s _ s2 En).
      * split; [exact HI2|]. unfold idx_advances in *. cbn in Hadv. exact Hadv.
      * cbn [handle].
        exact (task_done_via_slot s k t cs it b out s2 rest Hl Hcs Ht Hc Hr Hok
                 Hslot Hcs2).
  - rewrite step_disabled; [apply inv_same; exists (Running k); exact HI|].
    cbn [enabled]. rewrite Hbb. reflexivity.
  - destruct (abort_job_in_progress_eq (abort_marked s) k t (children s) [])
      as (p & it' & Hp & Hit' & Habort);
      try (cbn; first [assumption | reflexivity]).
    + cbn. intros q it0 Hq. rewrite Hcs in Hq. apply lookup_snoc_Some in Hq.
      assert (Hle : task it0 <= k).
      { destruct Hq as [[_ Hq]|[_ Hq]].
        - exact (proj1 (Hok q it0 Hq)).
        - injection Hq as <-. lia. }
      destruct (lookup_lt_is_Some_2 (tasks (taskGroup s)) (task it0)) as [t0 Ht0];
        [lia|].
      exists t0. split; [exact Ht0|]. intros Hs0.
      exact (running_started_unique s k _ t0 HI Ht0 Hs0).
    + exists (length cs), it. split; [|exact Ht]. rewrite Hcs.
      apply list_lookup_middle. reflexivity.
    + erewrite step_ok; [| reflexivity |]; cycle 1.
      { cbn [handle]. rewrite abortItem_eq, Hbb, Hst, Hnd. cbn [negb].
        destruct (Z.eqb_spec (Z.of_nat k) (group_len (taskGroup s))) as [e|_].
        { unfold group_len in e. lia. }
        exact Habort. }
      split; [|unfold idx_advances; cbn; lia].
      exists (Running k). cbn in Hp. cbn.
      repeat (split; [first [reflexivity | assumption | lia]|]).
      split; [exists t; auto|].
      rewrite Hcs in Hp |- *. apply lookup_snoc_Some in Hp.
      destruct Hp as [[Hlt Hp]|[-> Heq]].
      * exists (<[p := OneCmd (flag_abort it')]> cs), it.
        split; [apply insert_app_l; exact Hlt|].
        repeat (split; [assumption|]). apply items_ok_flag; assumption.
      * injection Heq as <-. exists cs, (flag_abort it).
        split.
        { replace (length cs) with (length cs + 0) at 1 by lia.
          rewrite insert_app_r. reflexivity. }
        repeat (split; [assumption|]). assumption.
Qed.

(** The user chose Retry while the question for task [k] was pending. *)
Lemma asking_retry k s :
  phase_inv (Asking k) s ->
  exists t cs it,
    tasks (taskGroup s) !! k = Some t /\
    children s = cs ++ [OneCmd it; ButtonBarItem] /\
    task it = k /\ connected it = true /\ items_ok k cs /\
    retry_rollback (set_buttonBar None s) =
      Ok tt (set_taskIdx (taskIdx s - 1)
               (set_nbError (nbError s - 1)
                  (set_nbCmdDone (nbCmdDone s - 1)
                     (set_children (cs ++ [OneCmd (disconnect it); ButtonBarItem])
                        (set_buttonBar None s))))) /\
    handleQuestionResult RETRY s =
      Ok tt (set_trace (trace s ++ [TaskEv k DoRun])
               (set_tasks (<[k := with_task_state Started t]> (tasks (taskGroup s)))
                  (set_children
                     (cs ++ [OneCmd (disconnect it); ButtonBarItem; new_item k])
                     (set_nbError (nbError s - 1)
                        (set_nbCmdDone (nbCmdDone s - 1)
                           (set_buttonBar None s)))))).
Proof.
  intros (Hst & Hab & Hbb & (p & Hbbi) & Hidx & Hnd & Hne & Hk & Hd & Hf
          & cs & it & Hcs & Ht & Hc & Hok).
  destruct (lookup_lt_is_Some_2 _ _ Hk) as [t Hl].
  exists t, cs, it. repeat (split; [assumption|]).
  assert (Hroll := retry_rollback_eq (set_buttonBar None s) cs it k Hcs Ht Hc Hidx Hk).
  split.
  { rewrite Hroll, Hidx. reflexivity. }
  rewrite (handleQuestionResult_eq s RETRY p cs _ _ Hbbi Hcs), Hab.
  cbn -[set_buttonBar]. rewrite (runOneCmdline_retry _ _ Hroll).
  rewrite (runOneCmdline_next _ k t).
  - destruct s as [[d r l a] idx ab ask nd ne st bb bbi cs0 tr]. cbn in *.
    subst idx. rewrite <- app_assoc. reflexivity.
  - unfold isDone. cbn. rewrite Hnd, Hab, orb_false_r.
    apply Z.eqb_neq. unfold group_len. lia.
  - cbn. lia.
  - exact Hl.
  - specialize (Hd k t Hl (Nat.lt_succ_diag_r k)). unfold is_task_done in Hd.
    intros E. rewrite E in Hd. discriminate.
Qed.

Lemma step_asking k s ev :
  phase_inv (Asking k) s -> Inv (step s ev) /\ idx_advances s (step s ev).
Proof.
  intros HI.
  pose proof HI as (Hst & Hab & Hbb & (p & Hbbi) & Hidx & Hnd & Hne & Hk & Hd & Hf
                    & cs & it & Hcs & Ht & Hc & Hok).
  assert (Hns : none_started (tasks (taskGroup s)))
    by (eapply none_started_split; eauto).
  assert (Hfin : forall s2 : MgExecItemMultiCmd,
            buttonBar s2 = None -> tasks (taskGroup s2) = tasks (taskGroup s) ->
            nbCmdDone s2 = group_len (taskGroup s2) -> taskIdx s2 = taskIdx s ->
            Inv s2 /\ idx_advances s s2).
  { intros s2 H1 H2 H3 H4. split; [|unfold idx_advances; lia].
    exists Final. cbn. rewrite H2. auto. }
  destruct ev as [|i b out|c|].
  - rewrite step_disabled; [apply inv_same; exists (Asking k); exact HI|].
    cbn [enabled]. rewrite Hst. reflexivity.
  - rewrite step_disabled; [apply inv_same; exists (Asking k); exact HI|].
    apply no_task_done_event, Hns.
  - destruct (enabled s (EvUserChoice c)) eqn:En;
      [|rewrite step_disabled by exact En; apply inv_same; exists (Asking k); exact HI].
    pose proof En as En'. cbn [enabled] in En'. rewrite Hbb in En'.
    apply andb_true_iff in En' as [Hbut Hshown].
    unfold is_button in Hbut. apply negb_true_iff, Z.eqb_neq in Hshown.
    unfold step. rewrite En. cbn [handle].
    destruct (Z.eqb_spec c RETRY) as [->|Hnr].
    { (* Retry *)
      destruct (asking_retry k s HI) as (t & cs' & it' & Hl & Hcs' & Ht' & Hc' & Hok' & _ & ->).
      cbn. split; [|unfold idx_advances; cbn; lia].
      exists (Running k). cbn.
      repeat (split; [first [reflexivity | assumption | lia]|]).
      split; [apply done_before_insert; [|lia]; intros j tj Hj Hlt;
              apply (Hd j tj Hj); lia|].
      split; [apply fresh_from_insert; [exact Hf|lia]|].
      split.
      - exists (with_task_state Started t). split; [|reflexivity].
        apply list_lookup_insert_eq. exact Hk.
      - eexists (cs' ++ [OneCmd (disconnect it'); ButtonBarItem]), _.
        split; [rewrite <- app_assoc; reflexivity|].
        repeat (split; [reflexivity|]).
        replace (cs' ++ [OneCmd (disconnect it'); ButtonBarItem])
          with ((cs' ++ [OneCmd (disconnect it')]) ++ [ButtonBarItem])
          by (rewrite <- app_assoc; reflexivity).
        apply items_ok_snoc_bar. apply (items_ok_snoc k k); auto.
        + cbn. lia.
        + cbn. discriminate. }
    rewrite (handleQuestionResult_eq s c p cs _ _ Hbbi Hcs), Hab.
    cbn -[set_buttonBar]. rewrite orb_false_r.
    destruct (Z.eqb_spec c ABORT) as [->|Hna].
    { rewrite allCmdDone_eq. cbn. apply Hfin; reflexivity. }
    destruct (Z.eqb_spec c CONTINUE) as [->|Hnc].
    { (* Continue: only offered when tasks remain *)
      destruct (Z.eqb_spec (Z.of_nat k + 1) (group_len (taskGroup s))) as [e|Hmore];
        [cbn in Hshown; contradiction|].
      unfold group_len in Hmore.
      assert (HSk : S k < length (tasks (taskGroup s))) by lia.
      destruct (lookup_lt_is_Some_2 _ _ HSk) as [t1 Ht1].
      assert (Hst1 : task_state t1 = NotStarted) by (apply (Hf (S k) t1 Ht1); lia).
      rewrite (runOneCmdline_next _ (S k) t1).
      - cbn. split; [|unfold idx_advances; cbn; lia].
        exists (Running (S k)). cbn.
        repeat (split; [first [reflexivity | assumption | lia]|]).
        split; [apply done_before_insert; [assumption|lia]|].
        split; [apply fresh_from_insert; [eapply fresh_from_le; eauto|lia]|].
        split.
        + exists (with_task_state Started t1). split; [|reflexivity].
          apply list_lookup_insert_eq. exact HSk.
        + eexists (children s), _. repeat (split; [reflexivity|]).
          rewrite Hcs.
          replace (cs ++ [OneCmd it; ButtonBarItem])
            with ((cs ++ [OneCmd it]) ++ [ButtonBarItem])
            by (rewrite <- app_assoc; reflexivity).
          apply items_ok_snoc_bar. apply (items_ok_snoc k (S k)); auto; intros; lia.
      - unfold isDone. cbn. rewrite Hnd, Hab, orb_false_r.
        apply Z.eqb_neq. unfold group_len. lia.
      - cbn. lia.
      - exact Ht1.
      - rewrite Hst1. discriminate. }
    rewrite (proj2 (Z.eqb_neq c RETRY) Hnr).
    destruct (Z.eqb_spec c OK) as [->|Hno].
    { rewrite allCmdDone_eq. cbn. apply Hfin; reflexivity. }
    exfalso. cbn in Hbut. discriminate.
  - unfold step. cbn [enabled handle]. rewrite abortItem_eq, Hbb.
    rewrite (handleQuestionResult_eq (abort_marked s) ABORT p cs _ _ Hbbi Hcs).
    cbn -[set_buttonBar]. rewrite allCmdDone_eq. cbn. apply Hfin; reflexivity.
Qed.

(** ** The invariant of a run *)

Lemma step_inv s ev : Inv s -> Inv (step s ev) /\ idx_advances s (step s ev).
Proof.
  intros [[| k | k |] HI].
  - apply step_fresh, HI.
  - apply (step_running k), HI.
  - apply (step_asking k), HI.
  - destruct (step_final s ev HI) as (H1 & _ & H2 & _).
    split; [exists Final; exact H1|]. unfold idx_advances. lia.
Qed.

Lemma init_inv g ask s0 :
  fresh_group g = true -> MgExecItemMultiCmd_init g ask = Some s0 ->
  phase_inv Fresh s0.
Proof.
  unfold MgExecItemMultiCmd_init, fresh_group, group_len. intros Hf.
  destruct (Z.ltb_spec 0 (Z.of_nat (length (tasks g)))) as [Hlen|]; [|discriminate].
  intros [= <-]. cbn. repeat (split; [first [reflexivity | lia]|]).
  intros j t Hj _. apply TaskState_eqb_spec.
  rewrite forallb_forall in Hf. apply Hf.
  apply list_elem_of_In, list_elem_of_lookup. eauto.
Qed.

Lemma exec_inv s evs : Inv s -> Inv (exec s evs).
Proof.
  revert s. induction evs as [|ev evs IH]; intros s HI; [exact HI|].
  cbn. apply IH, step_inv, HI.
Qed.

Lemma reachable_inv s : reachable s -> Inv s.
Proof.
  intros (g & ask & s0 & evs & Hf & Hi & ->).
  apply exec_inv. exists Fresh. exact (init_inv g ask s0 Hf Hi).
Qed.

Lemma inv_started s i t :
  Inv s -> tasks (taskGroup s) !! i = Some t -> task_state t = Started ->
  phase_inv (Running i) s.
Proof.
  intros [[| k | k |] HI] Hi Hst.
  - destruct HI as (_ & _ & _ & _ & _ & _ & _ & _ & Hf).
    rewrite (Hf i t Hi) in Hst by lia. discriminate.
  - rewrite (running_started_unique s k i t HI Hi Hst). exact HI.
  - destruct HI as (_ & _ & _ & _ & _ & _ & _ & _ & Hd & Hf & _).
    destruct (none_started_split _ _ Hd Hf i t Hi Hst).
  - destruct HI as (_ & _ & Hns). destruct (Hns i t Hi Hst).
Qed.

Lemma inv_asking s f :
  Inv s -> buttonBar s = Some f -> exists k, phase_inv (Asking k) s.
Proof.
  intros [[| k | k |] HI] Hbb.
  - destruct HI as (_ & _ & H & _). congruence.
  - destruct HI as (_ & H & _). congruence.
  - exists k. exact HI.
  - destruct HI as (H & _). congruence.
Qed.

Lemma exec_final s evs :
  phase_inv Final s ->
  phase_inv Final (exec s evs) /\
  tasks (taskGroup (exec s evs)) = tasks (taskGroup s) /\
  trace (exec s evs) = trace s.
Proof.
  revert s. induction evs as [|ev evs IH]; intros s HI; [auto|].
  destruct (step_final s ev HI) as (H1 & H2 & _ & H3).
  destruct (IH _ H1) as (H4 & H5 & H6).
  change (exec s (ev :: evs)) with (exec (step s ev) evs).
  split; [exact H4|]. split; congruence.
Qed.

(** ** The group runner *)

(** C3. In every reachable state of a runner, a Started task sits at
    [taskIdx], every task before it is Successful or Errored and every task
    after it is NotStarted; one step of the environment moves [taskIdx] by
    at most one, never back, and a task it starts has all its predecessors
    in a terminal state. *)
Theorem started_task_splits_the_sequence (s : MgExecItemMultiCmd) :
  reachable s ->
  (forall i t, tasks (taskGroup s) !! i = Some t -> task_state t = Started ->
     taskIdx s = Z.of_nat i /\
     (forall j tj, tasks (taskGroup s) !! j = Some tj -> j < i ->
        is_task_done tj = true) /\
     (forall j tj, tasks (taskGroup s) !! j = Some tj -> i < j ->
        task_state tj = NotStarted)) /\
  (forall ev,
     (taskIdx s <= taskIdx (step s ev) <= taskIdx s + 1)%Z /\
     forall j tj, tasks (taskGroup (step s ev)) !! j = Some tj ->
       task_state tj = Started ->
       forall i ti, tasks (taskGroup (step s ev)) !! i = Some ti -> i < j ->
         is_task_done ti = true).
Proof.
  intros Hr. pose proof (reachable_inv s Hr) as HI. split.
  - intros i t Hi Hst.
    destruct (inv_started s i t HI Hi Hst)
      as (_ & _ & Hidx & _ & _ & Hd & Hf & _).
    split; [exact Hidx|]. split.
    + intros j tj Hj Hlt. exact (Hd j tj Hj Hlt).
    + intros j tj Hj Hlt. apply (Hf j tj Hj). lia.
  - intros ev. destruct (step_inv s ev HI) as [HI' Hadv].
    split; [exact Hadv|]. intros j tj Hj Hst i ti Hi Hlt.
    destruct (inv_started _ j tj HI' Hj Hst) as (_ & _ & _ & _ & _ & Hd & _).
    exact (Hd i ti Hi Hlt).
Qed.

Lemma started_task_splits_the_sequence_witness :
  exists s, sample_run 3 true [EvRun; EvTaskDone 0 true "ok"] = Some s /\
  (forall i t, tasks (taskGroup s) !! i = Some t -> task_state t = Started ->
     taskIdx s = Z.of_nat i /\
     (forall j tj, tasks (taskGroup s) !! j = Some tj -> j < i ->
        is_task_done tj = true) /\
     (forall j tj, tasks (taskGroup s) !! j = Some tj -> i < j ->
        task_state tj = NotStarted)) /\
  (forall ev,
     (taskIdx s <= taskIdx (step s ev) <= taskIdx s + 1)%Z /\
     forall j tj, tasks (taskGroup (step s ev)) !! j = Some tj ->
       task_state tj = Started ->
       forall i ti, tasks (taskGroup (step s ev)) !! i = Some ti -> i < j ->
         is_task_done ti = true).
Proof.
  eexists. split; [reflexivity|].
  apply started_task_splits_the_sequence.
  exists (sample_group 3), true. eexists. exists [EvRun; EvTaskDone 0 true "ok"].
  split; [reflexivity|]. split; reflexivity.
Defined.

(** C8. With [askQuestionUponFailure] off, a failure of the running task
    that is not masked finalizes the group in the same step: the failure is
    counted, [cbExecDone(False)] is called, no question is shown, and from
    then on no event changes a task, so no later task is ever started. *)
Theorem failure_without_question_finalizes
    (s : MgExecItemMultiCmd) (k : nat) (t : MgExecTask) (out : string) :
  reachable s -> askQuestionUponFailure s = false ->
  tasks (taskGroup s) !! k = Some t -> task_state t = Started ->
  ignore_failure t = false ->
  let s' := step s (EvTaskDone k false out) in
  nbCmdDone s' = group_len (taskGroup s') /\
  nbError s' = (nbError s + 1)%Z /\
  buttonBar s' = None /\
  trace s' = trace s ++ [TaskEv k (SigTaskDone false out);
                         CbExecDone false; RepoRefresh] /\
  forall evs,
    trace (exec s' evs) = trace s' /\
    tasks (taskGroup (exec s' evs)) =
      <[k := with_task_state Errored t]> (tasks (taskGroup s)) /\
    forall j tj, tasks (taskGroup (exec s' evs)) !! j = Some tj -> k < j ->
      task_state tj = NotStarted.
Proof.
  intros Hr Hask Hl Hst Hig s'.
  pose proof (inv_started s k t (reachable_inv s Hr) Hl Hst) as HI.
  assert (Hs' : s' =
    set_trace (trace s ++ [TaskEv k (SigTaskDone false out);
                           CbExecDone false; RepoRefresh])
      (set_nbCmdDone (group_len (taskGroup s))
         (set_nbError (nbError s + 1)
            (set_tasks (<[k := with_task_state Errored t]>
                          (tasks (taskGroup s))) s)))).
  { subst s'. apply step_ok.
    - cbn [enabled]. rewrite Hl, Hst. reflexivity.
    - cbn [handle]. apply running_task_done_fail_noask; assumption. }
  destruct HI as (_ & Hbb & _ & _ & _ & Hd & Hf & _).
  assert (Hd' : done_before (S k) (tasks (taskGroup s')))
    by (rewrite Hs'; cbn; apply done_before_S; [exact Hd|reflexivity]).
  assert (Hf' : fresh_from (S k) (tasks (taskGroup s')))
    by (rewrite Hs'; cbn; apply fresh_from_insert; [exact Hf|lia]).
  assert (HF : phase_inv Final s').
  { cbn. split; [rewrite Hs'; exact Hbb|]. split.
    - rewrite Hs'. cbn. unfold group_len. cbn. rewrite length_insert. reflexivity.
    - eapply none_started_split; eauto. }
  split; [exact (proj1 (proj2 HF))|].
  rewrite Hs' at 1 2 3. cbn. repeat (split; [first [reflexivity|assumption]|]).
  intros evs. destruct (exec_final s' evs HF) as (_ & Htasks & Htrace).
  split; [exact Htrace|]. split; [rewrite Htasks, Hs'; reflexivity|].
  intros j tj Hj Hlt. rewrite Htasks in Hj. apply (Hf' j tj Hj). lia.
Qed.

Lemma failure_without_question_finalizes_witness :
  exists s t, sample_run 2 false [EvRun] = Some s /\
  tasks (taskGroup s) !! 0 = Some t /\
  let s' := step s (EvTaskDone 0 false "fatal: unable to access") in
  nbCmdDone s' = group_len (taskGroup s') /\
  nbError s' = (nbError s + 1)%Z /\
  buttonBar s' = None /\
  trace s' = trace s ++ [TaskEv 0 (SigTaskDone false "fatal: unable to access");
                         CbExecDone false; RepoRefresh] /\
  forall evs,
    trace (exec s' evs) = trace s' /\
    tasks (taskGroup (exec s' evs)) =
      <[0 := with_task_state Errored t]> (tasks (taskGroup s)) /\
    forall j tj, tasks (taskGroup (exec s' evs)) !! j = Some tj -> 0 < j ->
      task_state tj = NotStarted.
Proof.
  eexists. eexists. split; [reflexivity|]. split; [reflexivity|].
  apply failure_without_question_finalizes; try reflexivity.
  exists (sample_group 2), false. eexists. exists [EvRun].
  split; [reflexivity|]. split; reflexivity.
Defined.

(** C6. When a question is pending after the failure of task [k] and the
    user chooses Retry, the rollback takes one off [nbCmdDone], [nbError]
    and [taskIdx] and disconnects the previous item from the task's signal;
    the step as a whole runs task [k] once more and nothing else: only task
    [k] changes (to Started), one [_do_run] of task [k] is dispatched, the
    new item is the task's only listener, [taskIdx] is back at [k], and the
    discarded attempt is no longer counted.  For a group of one task that
    fails, is retried and then succeeds, the run ends with [nbCmdDone = 1],
    [nbError = 0] and [cbExecDone(True)]. *)
Theorem retry_reruns_only_the_failed_task (s : MgExecItemMultiCmd) (f : Z) :
  reachable s -> buttonBar s = Some f ->
  (exists k t,
     taskIdx s = Z.of_nat k /\ tasks (taskGroup s) !! k = Some t /\
     (exists s1,
        retry_rollback (set_buttonBar None s) = Ok tt s1 /\
        nbCmdDone s1 = (nbCmdDone s - 1)%Z /\ nbError s1 = (nbError s - 1)%Z /\
        taskIdx s1 = (taskIdx s - 1)%Z /\
        connected_slots k 0 (children s1) = []) /\
     let s' := step s (EvUserChoice RETRY) in
     nbCmdDone s' = (nbCmdDone s - 1)%Z /\ nbCmdDone s' = Z.of_nat k /\
     nbError s' = (nbError s - 1)%Z /\ taskIdx s' = taskIdx s /\
     tasks (taskGroup s') =
       <[k := with_task_state Started t]> (tasks (taskGroup s)) /\
     trace s' = trace s ++ [TaskEv k DoRun] /\
     connected_slots k 0 (children s') = [length (children s)]) /\
  (forall d r dt out1 out2, exists s',
     run_group (MgExecTaskGroup_init d r (Some [MgExecTask_init dt false])) true
       [EvRun; EvTaskDone 0 false out1; EvUserChoice RETRY;
        EvTaskDone 0 true out2] = Some s' /\
     nbCmdDone s' = 1%Z /\ nbError s' = 0%Z /\
     callbacks (trace s') = [true] /\ dispatches (trace s') = [0; 0] /\
     is_successful (taskGroup s') = true).
Proof.
  intros Hr Hbb. split.
  - destruct (inv_asking s f (reachable_inv s Hr) Hbb) as [k HI].
    destruct (asking_retry k s HI)
      as (t & cs & it & Hl & Hcs & Ht & Hc & Hok & Hroll & Hretry).
    destruct HI as (_ & _ & Hbb' & _ & Hidx & Hnd & _).
    exists k, t. split; [exact Hidx|]. split; [exact Hl|]. split.
    + eexists. split; [exact Hroll|]. cbn.
      repeat (split; [reflexivity|]).
      rewrite connected_slots_app, (items_ok_slots _ _ _ Hok). cbn.
      rewrite andb_false_r. reflexivity.
    + assert (Hs' : step s (EvUserChoice RETRY) = _)
        by (apply step_ok; [|exact Hretry];
            cbn [enabled]; rewrite Hbb';
            destruct (_ =? _)%Z; reflexivity).
      rewrite Hs'. cbn.
      repeat (split; [first [reflexivity | lia]|]).
      rewrite connected_slots_app, (items_ok_slots _ _ _ Hok). cbn.
      rewrite andb_false_r, Nat.eqb_refl, Hcs, length_app. cbn.
      f_equal. lia.
  - intros d r dt out1 out2. eexists. split; [vm_compute; reflexivity|].
    vm_compute. repeat split; reflexivity.
Qed.

Lemma retry_reruns_only_the_failed_task_witness :
  exists s, sample_run 2 true [EvRun; EvTaskDone 0 true "ok";
                               EvTaskDone 1 false "rejected"] = Some s /\
  exists k t,
     taskIdx s = Z.of_nat k /\ tasks (taskGroup s) !! k = Some t /\
     (exists s1,
        retry_rollback (set_buttonBar None s) = Ok tt s1 /\
        nbCmdDone s1 = (nbCmdDone s - 1)%Z /\ nbError s1 = (nbError s - 1)%Z /\
        taskIdx s1 = (taskIdx s - 1)%Z /\
        connected_slots k 0 (children s1) = []) /\
     let s' := step s (EvUserChoice RETRY) in
     nbCmdDone s' = (nbCmdDone s - 1)%Z /\ nbCmdDone s' = Z.of_nat k /\
     nbError s' = (nbError s - 1)%Z /\ taskIdx s' = taskIdx s /\
     tasks (taskGroup s') =
       <[k := with_task_state Started t]> (tasks (taskGroup s)) /\
     trace s' = trace s ++ [TaskEv k DoRun] /\
     connected_slots k 0 (children s') = [length (children s)].
Proof.
  eexists. split; [reflexivity|].
  refine (proj1 (retry_reruns_only_the_failed_task _ 13%Z _ _)).
  - exists (sample_group 2), true. eexists.
    exists [EvRun; EvTaskDone 0 true "ok"; EvTaskDone 1 false "rejected"].
    split; [reflexivity|]. split; reflexivity.
  - reflexivity.
Defined.

(** C2. [allCmdDone] sets [nbCmdDone] to the number of tasks and calls
    [cbExecDone] once, with [nbError == 0 and not abortRequested].  For a
    group of two tasks where the first fails, the user chooses Continue and
    the second succeeds, the run ends with [nbError = 1] and one call
    [cbExecDone(False)]. *)
Theorem finalization_reports_overall_success :
  (forall s, exists s',
     allCmdDone s = Ok tt s' /\
     nbCmdDone s' = group_len (taskGroup s') /\
     nbError s' = nbError s /\ taskGroup s' = taskGroup s /\
     trace s' = trace s ++
       [CbExecDone ((nbError s =? 0)%Z && negb (abortRequested s)); RepoRefresh] /\
     callbacks (trace s') = callbacks (trace s) ++
       [(nbError s =? 0)%Z && negb (abortRequested s)]) /\
  (forall d r d1 d2 ig2 out1 out2, exists s',
     run_group
       (MgExecTaskGroup_init d r
          (Some [MgExecTask_init d1 false; MgExecTask_init d2 ig2])) true
       [EvRun; EvTaskDone 0 false out1; EvUserChoice CONTINUE;
        EvTaskDone 1 true out2] = Some s' /\
     map task_state (tasks (taskGroup s')) = [Errored; Successful] /\
     nbCmdDone s' = 2%Z /\ nbError s' = 1%Z /\ abortRequested s' = false /\
     callbacks (trace s') = [false] /\ dispatches (trace s') = [0; 1]).
Proof.
  split.
  - intros s. eexists. split; [apply allCmdDone_eq|].
    destruct s as [[d r l a] idx ab ask nd ne st bb bbi cs tr]. cbn.
    repeat (split; [reflexivity|]).
    unfold callbacks. rewrite omap_app. reflexivity.
  - intros d r d1 d2 ig2 out1 out2. eexists. split; [vm_compute; reflexivity|].
    vm_compute. repeat split; reflexivity.
Qed.

(** C9 does not hold of the code.  A group of one task runs to success and
    [cbExecDone(True)] is called; a later [abortItem] issues no callback and
    resets [abortRequested], but it has already set the group's [aborted]
    flag, so [is_successful()] turns false and [is_errored()] turns true. *)
Lemma abortItem_after_finish_flips_group_outcome :
  exists s, sample_run 1 true [EvRun; EvTaskDone 0 true "done"] = Some s /\
  let s' := step s EvAbortItem in
  forallb is_task_done (tasks (taskGroup s)) = true /\
  callbacks (trace s) = [true] /\
  (is_successful (taskGroup s), is_errored (taskGroup s), is_finished (taskGroup s))
    = (true, false, true) /\
  (is_successful (taskGroup s'), is_errored (taskGroup s'), is_finished (taskGroup s'))
    = (false, true, true) /\
  trace s' = trace s /\ abortRequested s' = false /\
  nbCmdDone s' = nbCmdDone s /\ nbError s' = nbError s.
Proof. eexists. split; [reflexivity|]. vm_compute. repeat split; reflexivity. Qed.

(** ** The callback code computes the explicit machine *)

Lemma phase_of_inv ph s : phase_inv ph s -> phase_of s = ph.
Proof.
  unfold phase_of. destruct ph as [|k|k|]; cbn.
  - intros (Hst & _ & Hbb & Hnd & _ & _ & _ & Hlen & _).
    rewrite Hbb, Hnd, Hst.
    destruct (Z.eqb_spec 0 (group_len (taskGroup s))) as [e|]; [|reflexivity].
    unfold group_len in e. lia.
  - intros (Hst & Hbb & Hidx & Hnd & _ & _ & _ & (t & Hl & _) & _).
    apply lookup_lt_Some in Hl.
    rewrite Hbb, Hnd, Hst, Hidx, Nat2Z.id.
    destruct (Z.eqb_spec (Z.of_nat k) (group_len (taskGroup s))) as [e|]; [|reflexivity].
    unfold group_len in e. lia.
  - intros (_ & _ & Hbb & _ & Hidx & _). rewrite Hbb, Hidx, Nat2Z.id. reflexivity.
  - intros (Hbb & Hnd & _). rewrite Hbb, Hnd, Z.eqb_refl. reflexivity.
Qed.

Lemma inv_phase_of s : Inv s -> phase_inv (phase_of s) s.
Proof. intros [ph H]. rewrite (phase_of_inv ph s H). exact H. Qed.

Lemma started_eq j t s :
  tasks (taskGroup s) !! j = Some t ->
  started j s =
    set_trace (trace s ++ [TaskEv j DoRun])
      (set_tasks (<[j := with_task_state Started t]> (tasks (taskGroup s)))
         (set_children (children s ++ [new_item j])
            (set_taskIdx (Z.of_nat j) s))).
Proof. unfold started. intros ->. reflexivity. Qed.

Lemma runOneCmdline_started s j t :
  isDone s = false -> (taskIdx s + 1)%Z = Z.of_nat j ->
  tasks (taskGroup s) !! j = Some t -> task_state t <> Started ->
  runOneCmdline false s = Ok tt (started j s).
Proof.
  intros H1 H2 H3 H4. rewrite (started_eq j t s H3).
  apply runOneCmdline_next; assumption.
Qed.

Lemma allCmdDone_finalized s : allCmdDone s = Ok tt (finalized s).
Proof. apply allCmdDone_eq. Qed.

Lemma askQuestion_asked s :
  abortRequested s = false -> askQuestionAfterCmdFailed s = Ok tt (asked s).
Proof. intros H. rewrite (askQuestionAfterCmdFailed_eq s H). reflexivity. Qed.

(** *** Not started *)

Lemma machine_fresh s ev :
  phase_inv Fresh s -> enabled s ev = true ->
  handle ev s = Ok tt (machine_step s ev).
Proof.
  intros HI En. unfold machine_step. rewrite (phase_of_inv _ _ HI).
  pose proof HI as (Hst & Hab & Hbb & Hnd & Hne & Hidx & Hcs & Hlen & Hfr).
  assert (Hnl : (0 =? group_len (taskGroup s))%Z = false)
    by (apply Z.eqb_neq; unfold group_len; lia).
  destruct ev as [|i b out|c|]; cbn [handle].
  - destruct (lookup_lt_is_Some_2 (tasks (taskGroup s)) 0 Hlen) as [t Ht].
    unfold MgExecItemMultiCmd_run, bind, modify.
    apply (runOneCmdline_started _ 0 t); cbn; auto; try lia.
    + unfold isDone. cbn. rewrite Hnd, Hab, Hnl. reflexivity.
    + rewrite (Hfr 0 t Ht (Nat.le_refl 0)). discriminate.
  - rewrite no_task_done_event in En; [discriminate|].
    eapply none_started_split with (k := 0); eauto. intros j t Hj Hlt. lia.
  - cbn [enabled] in En. rewrite Hbb in En. discriminate.
  - rewrite abortItem_eq, Hbb, Hnd, Hst, Hnl. cbn [negb].
    apply allCmdDone_finalized.
Qed.

(** *** Finalized *)

Lemma machine_final s ev :
  phase_inv Final s -> enabled s ev = true ->
  handle ev s =
    if raises s ev then Raise AssertionError (machine_step s ev)
    else Ok tt (machine_step s ev).
Proof.
  intros HI En. unfold machine_step, raises. rewrite (phase_of_inv _ _ HI).
  pose proof HI as (Hbb & Hnd & Hns).
  destruct ev as [|i b out|c|]; cbn [handle].
  - unfold MgExecItemMultiCmd_run, bind, modify.
    apply runOneCmdline_done. unfold isDone. cbn. rewrite Hnd, Z.eqb_refl.
    reflexivity.
  - rewrite no_task_done_event in En; [discriminate|exact Hns].
  - cbn [enabled] in En. rewrite Hbb in En. discriminate.
  - rewrite abortItem_eq, Hbb, Hnd, Z.eqb_refl. reflexivity.
Qed.

(** *** A task in flight *)

Lemma machine_running_done k s b out :
  phase_inv (Running k) s ->
  r_task_done k b out s = Ok tt (after_completion k b out s).
Proof.
  intros HI.
  pose proof HI as (Hst & Hbb & Hidx & Hnd & Hne & Hd & Hf & (t & Hl & Hts)
                    & cs & it & Hcs & Ht & Hc & Hr & Hok).
  assert (Hk : k < length (tasks (taskGroup s))) by (eapply lookup_lt_Some, Hl).
  assert (Hgoal : exists rest,
    slotOneCmdDone (emitted b t) (completed k t b out s)
      = Ok tt (after_completion k b out s) /\
    children (after_completion k b out s) = cs ++ OneCmd it :: rest).
  { unfold after_completion. rewrite Hl. rewrite slotOneCmdDone_eq.
    cbv zeta.
    replace (abortRequested (completed k t b out s)) with (abortRequested s)
      by reflexivity.
    replace (askQuestionUponFailure (completed k t b out s))
      with (askQuestionUponFailure s) by reflexivity.
    set (s1 := counted (emitted b t) (completed k t b out s)).
    assert (Hcs1 : children s1 = cs ++ [OneCmd it])
      by (subst s1; unfold counted; destruct (emitted b t); cbn; exact Hcs).
    destruct (negb (emitted b t) && negb (abortRequested s)) eqn:Hfail.
    - apply andb_true_iff in Hfail as [_ Hab]. apply negb_true_iff in Hab.
      destruct (askQuestionUponFailure s); cbn [negb].
      + exists [ButtonBarItem]. split.
        * apply askQuestion_asked. subst s1. unfold counted.
          destruct (emitted b t); cbn; exact Hab.
        * cbn. rewrite Hcs1, <- app_assoc. reflexivity.
      + exists []. split; [apply allCmdDone_finalized|]. cbn. exact Hcs1.
    - destruct (isDone s1) eqn:Hdone; cbn [negb].
      + exists []. split; [apply allCmdDone_finalized|]. cbn. exact Hcs1.
      + assert (Hnd1 : nbCmdDone s1 = (Z.of_nat k + 1)%Z)
          by (subst s1; unfold counted; destruct (emitted b t); cbn; lia).
        assert (Hidx1 : taskIdx s1 = Z.of_nat k)
          by (subst s1; unfold counted; destruct (emitted b t); cbn; exact Hidx).
        assert (Hl1 : tasks (taskGroup s1) =
                      <[k := with_task_state (outcome b) t]> (tasks (taskGroup s)))
          by (subst s1; unfold counted; destruct (emitted b t); reflexivity).
        pose proof Hdone as Hdone'.
        unfold isDone in Hdone. apply orb_false_iff in Hdone as [Hlast _].
        rewrite Hnd1 in Hlast. apply Z.eqb_neq in Hlast.
        unfold group_len in Hlast. rewrite Hl1, length_insert in Hlast.
        assert (HSk : S k < length (tasks (taskGroup s))) by lia.
        destruct (lookup_lt_is_Some_2 _ _ HSk) as [t1 Ht1].
        assert (Ht1' : tasks (taskGroup s1) !! S k = Some t1)
          by (rewrite Hl1, list_lookup_insert_ne by lia; exact Ht1).
        exists [new_item (S k)]. split.
        * apply (runOneCmdline_started _ (S k) t1); auto.
          -- rewrite Hidx1. lia.
          -- rewrite (Hf (S k) t1 Ht1) by lia. discriminate.
        * rewrite (started_eq (S k) t1 s1 Ht1'). cbn.
          rewrite Hcs1, <- app_assoc. reflexivity. }
  destruct Hgoal as (rest & Hslot & Hcs2).
  exact (task_done_via_slot s k t cs it b out _ rest Hl Hcs Ht Hc Hr Hok
           Hslot Hcs2).
Qed.

Lemma in_progress_test t :
  is_task_started t && negb (is_task_done t) = TaskState_eqb (task_state t) Started.
Proof. unfold is_task_started, is_task_done. destruct (task_state t); reflexivity. Qed.

Lemma abort_job_in_progress_find s suf : forall p,
  (forall q it, suf !! q = Some (OneCmd it) ->
     is_Some (tasks (taskGroup s) !! task it)) ->
  abort_job_in_progress p suf s =
    match job_in_progress (tasks (taskGroup s)) p suf with
    | Some (q, _) => OneCmd_abortItem q s
    | None => Raise ValueError s
    end.
Proof.
  induction suf as [|[it|] suf IH]; intros p Hall; cbn [abort_job_in_progress job_in_progress].
  - reflexivity.
  - destruct (Hall 0 it eq_refl) as [t Ht].
    unfold bind at 1, r_self at 1. rewrite Ht, in_progress_test.
    destruct (TaskState_eqb (task_state t) Started); [reflexivity|].
    apply IH. intros q it' Hq. exact (Hall (S q) it' Hq).
  - apply IH. intros q it' Hq. exact (Hall (S q) it' Hq).
Qed.

Lemma job_in_progress_some l cs : forall p q it,
  job_in_progress l p cs = Some (q, it) ->
  p <= q /\ cs !! (q - p) = Some (OneCmd it) /\
  exists t, l !! task it = Some t /\ task_state t = Started.
Proof.
  induction cs as [|[it0|] cs IH]; intros p q it; cbn [job_in_progress].
  - discriminate.
  - destruct (l !! task it0) as [t|] eqn:Et.
    + destruct (TaskState_eqb (task_state t) Started) eqn:Es.
      * intros [= <- <-]. rewrite Nat.sub_diag. split; [lia|]. split; [reflexivity|].
        exists t. split; [exact Et|]. apply TaskState_eqb_spec, Es.
      * intros H. destruct (IH _ _ _ H) as (Hle & Hq & Hex).
        split; [lia|]. split; [|exact Hex].
        replace (q - p) with (S (q - S p)) by lia. exact Hq.
    + intros H. destruct (IH _ _ _ H) as (Hle & Hq & Hex).
      split; [lia|]. split; [|exact Hex].
      replace (q - p) with (S (q - S p)) by lia. exact Hq.
  - intros H. destruct (IH _ _ _ H) as (Hle & Hq & Hex).
    split; [lia|]. split; [|exact Hex].
    replace (q - p) with (S (q - S p)) by lia. exact Hq.
Qed.

Lemma job_in_progress_none l cs : forall p,
  job_in_progress l p cs = None ->
  forall q it t, cs !! q = Some (OneCmd it) -> l !! task it = Some t ->
    task_state t <> Started.
Proof.
  induction cs as [|[it0|] cs IH]; intros p; cbn [job_in_progress].
  - intros _ q it t Hq. destruct q; discriminate.
  - destruct (l !! task it0) as [t0|] eqn:Et.
    + destruct (TaskState_eqb (task_state t0) Started) eqn:Es; [discriminate|].
      intros H [|q] it t Hq Hl.
      * injection Hq as <-. rewrite Et in Hl. injection Hl as <-.
        intros E. apply TaskState_eqb_spec in E. congruence.
      * exact (IH _ H q it t Hq Hl).
    + intros H [|q] it t Hq Hl.
      * injection Hq as <-. congruence.
      * exact (IH _ H q it t Hq Hl).
  - intros H [|q] it t Hq Hl; [discriminate|]. exact (IH _ H q it t Hq Hl).
Qed.

Lemma machine_running_abort k s :
  phase_inv (Running k) s -> abortItem s = Ok tt (abort_in_progress s).
Proof.
  intros HI.
  pose proof HI as (Hst & Hbb & Hidx & Hnd & Hne & Hd & Hf & (t & Hl & Hts)
                    & cs & it & Hcs & Ht & Hc & Hr & Hok).
  assert (Hk : k < length (tasks (taskGroup s))) by (eapply lookup_lt_Some, Hl).
  rewrite abortItem_eq, Hbb, Hst, Hnd. cbn [negb].
  destruct (Z.eqb_spec (Z.of_nat k) (group_len (taskGroup s))) as [e|_].
  { unfold group_len in e. lia. }
  rewrite abort_job_in_progress_find.
  - unfold abort_in_progress.
    change (tasks (taskGroup (abort_marked s))) with (tasks (taskGroup s)).
    destruct (job_in_progress (tasks (taskGroup s)) 0 (children s))
      as [[q it']|] eqn:Ej.
    + destruct (job_in_progress_some _ _ _ _ _ Ej) as (_ & Hq & t' & Hl' & Hs').
      rewrite Nat.sub_0_r in Hq.
      apply (OneCmd_abortItem_eq (abort_marked s) q it' t'); assumption.
    + exfalso. apply (job_in_progress_none _ _ _ Ej (length cs) it t); auto.
      * rewrite Hcs. apply list_lookup_middle. reflexivity.
      * rewrite Ht. exact Hl.
  - cbn. intros q it0 Hq. rewrite Hcs in Hq. apply lookup_snoc_Some in Hq.
    apply lookup_lt_is_Some_2.
    destruct Hq as [[_ Hq]|[_ Hq]].
    + pose proof (proj1 (Hok q it0 Hq)). lia.
    + injection Hq as <-. lia.
Qed.

(** *** A question pending *)

Lemma alter_middle {A} (f : A -> A) (l1 l2 : list A) (x : A) :
  alter f (length l1) (l1 ++ x :: l2) = l1 ++ f x :: l2.
Proof. induction l1 as [|y l1 IH]; cbn; [reflexivity|]. f_equal. exact IH. Qed.

Lemma machine_asking_retry k s :
  phase_inv (Asking k) s ->
  runOneCmdline true (set_buttonBar None s) = Ok tt (retried k s).
Proof.
  intros (Hst & Hab & Hbb & (p & Hbbi) & Hidx & Hnd & Hne & Hk & Hd & Hf
          & cs & it & Hcs & Ht & Hc & Hok).
  destruct (lookup_lt_is_Some_2 _ _ Hk) as [t Hl].
  assert (Hroll := retry_rollback_eq (set_buttonBar None s) cs it k Hcs Ht Hc Hidx Hk).
  rewrite (runOneCmdline_retry _ _ Hroll).
  unfold retried.
  replace (alter disconnect_item (length (children s) - 2) (children s))
    with (cs ++ [OneCmd (disconnect it); ButtonBarItem]).
  - rewrite Hidx. apply (runOneCmdline_started _ k t).
    + unfold isDone. cbn. rewrite Hnd, Hab, orb_false_r.
      apply Z.eqb_neq. unfold group_len. lia.
    + cbn. lia.
    + exact Hl.
    + specialize (Hd k t Hl (Nat.lt_succ_diag_r k)). unfold is_task_done in Hd.
      intros E. rewrite E in Hd. discriminate.
  - rewrite Hcs, length_app. cbn [length].
    replace (length cs + 2 - 2) with (length cs) by lia.
    rewrite alter_middle. reflexivity.
Qed.

Lemma machine_asking s k ev :
  phase_inv (Asking k) s -> enabled s ev = true ->
  handle ev s = Ok tt (machine_step s ev).
Proof.
  intros HI En. unfold machine_step. rewrite (phase_of_inv _ _ HI).
  pose proof HI as (Hst & Hab & Hbb & (p & Hbbi) & Hidx & Hnd & Hne & Hk & Hd & Hf
                    & cs & it & Hcs & Ht & Hc & Hok).
  destruct ev as [|i b out|c|]; cbn [handle].
  - cbn [enabled] in En. rewrite Hst in En. discriminate.
  - rewrite no_task_done_event in En; [discriminate|].
    eapply none_started_split; eauto.
  - cbn [enabled] in En. rewrite Hbb in En.
    apply andb_true_iff in En as [Hbut Hshown].
    apply negb_true_iff, Z.eqb_neq in Hshown.
    rewrite (handleQuestionResult_eq s c p cs _ _ Hbbi Hcs), Hab.
    cbv zeta. rewrite orb_false_r.
    destruct (Z.eqb_spec c ABORT) as [->|Hna]; [apply allCmdDone_finalized|].
    destruct (Z.eqb_spec c CONTINUE) as [->|Hnc].
    { destruct (Z.eqb_spec (Z.of_nat k + 1) (group_len (taskGroup s))) as [e|Hmore];
        [cbn in Hshown; contradiction|].
      unfold group_len in Hmore.
      assert (HSk : S k < length (tasks (taskGroup s))) by lia.
      destruct (lookup_lt_is_Some_2 _ _ HSk) as [t1 Ht1].
      apply (runOneCmdline_started _ (S k) t1).
      - unfold isDone. cbn. rewrite Hnd, Hab, orb_false_r.
        apply Z.eqb_neq. unfold group_len. lia.
      - cbn. lia.
      - exact Ht1.
      - rewrite (Hf (S k) t1 Ht1) by lia. discriminate. }
    destruct (Z.eqb_spec c RETRY) as [->|Hnr];
      [exact (machine_asking_retry k s HI)|].
    destruct (Z.eqb_spec c OK) as [->|Hno]; [apply allCmdDone_finalized|].
    exfalso. unfold is_button in Hbut.
    rewrite (proj2 (Z.eqb_neq c ABORT) Hna), (proj2 (Z.eqb_neq c CONTINUE) Hnc),
      (proj2 (Z.eqb_neq c RETRY) Hnr), (proj2 (Z.eqb_neq c OK) Hno) in Hbut.
    discriminate.
  - rewrite abortItem_eq, Hbb.
    rewrite (handleQuestionResult_eq (abort_marked s) ABORT p cs _ _ Hbbi Hcs).
    cbv zeta. cbn [orb Z.eqb ABORT Pos.eqb]. apply allCmdDone_finalized.
Qed.

Lemma machine_running s k ev :
  phase_inv (Running k) s -> enabled s ev = true ->
  handle ev s = Ok tt (machine_step s ev).
Proof.
  intros HI En. unfold machine_step. rewrite (phase_of_inv _ _ HI).
  pose proof HI as (Hst & Hbb & _).
  destruct ev as [|i b out|c|]; cbn [handle].
  - cbn [enabled] in En. rewrite Hst in En. discriminate.
  - assert (i = k).
    { cbn [enabled] in En. destruct (tasks (taskGroup s) !! i) as [ti|] eqn:Ei;
        [|discriminate].
      apply TaskState_eqb_spec in En.
      exact (running_started_unique s k i ti HI Ei En). }
    subst i. exact (machine_running_done k s b out HI).
  - cbn [enabled] in En. rewrite Hbb in En. discriminate.
  - exact (machine_running_abort k s HI).
Qed.



Lemma step_machine s ev : Inv s -> step s ev = machine_step s ev \/ step s ev = s.
Proof.
  intros HI. destruct (enabled s ev) eqn:En.
  - left. pose proof (inv_phase_of s HI) as Hph. unfold step. rewrite En.
    destruct (phase_of s) as [|k|k|] eqn:Eph.
    + rewrite (machine_fresh s ev Hph En). reflexivity.
    + rewrite (machine_running s k ev Hph En). reflexivity.
    + rewrite (machine_asking s k ev Hph En). reflexivity.
    + rewrite (machine_final s ev Hph En). destruct (raises s ev); reflexivity.
  - right. apply step_disabled, En.
Qed.

(** ** Counting failures and reading the callback *)

Lemma callbacks_app a b : callbacks (a ++ b) = callbacks a ++ callbacks b.
Proof. unfold callbacks. apply omap_app. Qed.

Lemma dispatches_app a b : dispatches (a ++ b) = dispatches a ++ dispatches b.
Proof. unfold dispatches. apply omap_app. Qed.

Lemma count_failed_app l1 l2 :
  count_failed (l1 ++ l2) = (count_failed l1 + count_failed l2)%Z.
Proof. induction l1 as [|t l1 IH]; cbn; [reflexivity|]. rewrite IH. lia. Qed.

Lemma count_failed_nonneg l : (0 <= count_failed l)%Z.
Proof. induction l as [|t l IH]; cbn; [lia|]. destruct (failed_unmasked t); lia. Qed.

Lemma take_S_insert {A} (l : list A) k x :
  k < length l -> take (S k) (<[k := x]> l) = take k l ++ [x].
Proof.
  intros Hk. rewrite (take_S_r _ k x) by (apply list_lookup_insert_eq; exact Hk).
  rewrite take_insert_ge by lia. reflexivity.
Qed.

Lemma existsb_lookup {A} (f : A -> bool) l j t :
  l !! j = Some t -> f t = true -> existsb f l = true.
Proof.
  intros Hj Hf. apply existsb_exists. exists t. split; [|exact Hf].
  apply list_elem_of_In, list_elem_of_lookup. eauto.
Qed.

Lemma count_failed_pos l :
  (0 < count_failed l)%Z -> exists j t, l !! j = Some t /\ failed_unmasked t = true.
Proof.
  induction l as [|t l IH]; cbn; [lia|].
  destruct (failed_unmasked t) eqn:E.
  - intros _. exists 0, t. auto.
  - intros H. destruct IH as (j & t' & Hj & Ht'); [lia|]. exists (S j), t'. auto.
Qed.

Lemma count_failed_zero l j t :
  count_failed l = 0%Z -> l !! j = Some t -> failed_unmasked t = false.
Proof.
  revert j. induction l as [|t0 l IH]; intros j; [destruct j; discriminate|].
  cbn [count_failed]. pose proof (count_failed_nonneg l).
  destruct (failed_unmasked t0) eqn:E; [lia|].
  intros H0 Hj. destruct j as [|j].
  - injection Hj as <-. exact E.
  - apply (IH j); [lia|exact Hj].
Qed.

Lemma done_passed t :
  is_task_done t = true -> failed_unmasked t = false -> passed t = true.
Proof.
  unfold is_task_done, failed_unmasked, passed, is_task_errored, is_task_successful.
  destruct (task_state t), (ignore_failure t); cbn; congruence.
Qed.

Lemma forallb_lookup {A} (f : A -> bool) (l : list A) :
  (forall j t, l !! j = Some t -> f t = true) -> forallb f l = true.
Proof.
  intros H. apply forallb_forall. intros t Ht.
  apply list_elem_of_In, list_elem_of_lookup in Ht as [j Hj]. eauto.
Qed.

Lemma outcome_failed b t :
  failed_unmasked (with_task_state (outcome b) t) = negb (emitted b t).
Proof.
  unfold failed_unmasked, emitted, outcome, is_task_errored.
  destruct b, (ignore_failure t) eqn:E; cbn; rewrite ?E; reflexivity.
Qed.

(** *** The phase of the states the machine leads to *)

Lemma phase_of_finalized s : buttonBar s = None -> phase_of (finalized s) = Final.
Proof.
  intros H. unfold phase_of. cbn. rewrite H, Z.eqb_refl. reflexivity.
Qed.

Lemma phase_of_started j t s :
  tasks (taskGroup s) !! j = Some t -> buttonBar s = None ->
  isStarted s = true -> nbCmdDone s <> group_len (taskGroup s) ->
  phase_of (started j s) = Running j.
Proof.
  intros Hj Hbb Hst Hnd. rewrite (started_eq j t s Hj). unfold phase_of. cbn.
  rewrite Hbb, Hst. unfold group_len in *. cbn. rewrite length_insert.
  destruct (Z.eqb_spec (nbCmdDone s) (Z.of_nat (length (tasks (taskGroup s)))));
    [contradiction|].
  rewrite Nat2Z.id. reflexivity.
Qed.

Lemma phase_of_asked s : phase_of (asked s) = Asking (Z.to_nat (taskIdx s)).
Proof. reflexivity. Qed.

(** *** The audit is kept *)

Lemma audit_fresh s ev :
  phase_inv Fresh s -> audit s -> audit (machine_step s ev).
Proof.
  intros HI Ha. pose proof (phase_of_inv _ _ HI) as Eph.
  pose proof HI as (Hst & Hab & Hbb & Hnd & Hne & Hidx & Hcs & Hlen & Hfr).
  unfold machine_step. rewrite Eph. unfold audit in Ha. rewrite Eph in Ha.
  destruct Ha as (Himp & Hcb & Hdp).
  destruct ev as [|i b out|c|];
    try (unfold audit; rewrite Eph; auto).
  - destruct (lookup_lt_is_Some_2 (tasks (taskGroup s)) 0 Hlen) as [t Ht].
    unfold audit.
    rewrite (phase_of_started 0 t (set_isStarted true s)); cbn; auto.
    + rewrite (started_eq 0 t (set_isStarted true s) Ht). cbn.
      split; [exact Himp|]. rewrite callbacks_app, Hcb. split; [reflexivity|].
      exact Hne.
    + rewrite Hnd. unfold group_len. lia.
  - unfold audit. rewrite phase_of_finalized by (cbn; exact Hbb). cbn.
    split; [reflexivity|]. exists false.
    rewrite callbacks_app, Hcb, andb_false_r. cbn.
    split; [reflexivity|]. split; [discriminate|]. intros _. left. reflexivity.
Qed.

Lemma audit_final s ev :
  phase_inv Final s -> audit s -> audit (machine_step s ev).
Proof.
  intros HI Ha. pose proof (phase_of_inv _ _ HI) as Eph.
  pose proof HI as (Hbb & Hnd & Hns).
  unfold machine_step. rewrite Eph. unfold audit in Ha. rewrite Eph in Ha.
  destruct Ha as (Himp & b & Hcb & Ht & Hf).
  assert (Hsame : audit s).
  { unfold audit. rewrite Eph. split; [exact Himp|]. exists b. auto. }
  destruct ev as [|i b0 out|c|]; try exact Hsame.
  - unfold audit.
    replace (phase_of (set_isStarted true s)) with Final
      by (unfold phase_of; cbn; rewrite Hbb, Hnd, Z.eqb_refl; reflexivity).
    cbn. split; [exact Himp|]. exists b. auto.
  - unfold audit.
    replace (phase_of (set_abortRequested false (abort_marked s))) with Final
      by (unfold phase_of; cbn; rewrite Hbb, Hnd, Z.eqb_refl; reflexivity).
    cbn. split; [discriminate|]. exists b.
    split; [exact Hcb|]. split; [exact Ht|]. intros _. left. reflexivity.
Qed.

Lemma audit_running_done k s t b out :
  phase_inv (Running k) s -> audit s -> tasks (taskGroup s) !! k = Some t ->
  audit (after_completion k b out s).
Proof.
  intros HI Ha Hl. pose proof (phase_of_inv _ _ HI) as Eph.
  pose proof HI as (Hst & Hbb & Hidx & Hnd & Hne & Hd & Hf & _
                    & cs & it & Hcs & Ht & Hc & Hr & Hok).
  assert (Hk : k < length (tasks (taskGroup s))) by (eapply lookup_lt_Some, Hl).
  unfold audit in Ha. rewrite Eph in Ha. destruct Ha as (Himp & Hcb & Hcount).
  unfold after_completion. rewrite Hl. cbv zeta.
  set (x := with_task_state (outcome b) t).
  set (s0 := completed k t b out s).
  set (s1 := counted (emitted b t) s0).
  assert (Hl1 : tasks (taskGroup s1) = <[k := x]> (tasks (taskGroup s)))
    by (subst s1 s0; unfold counted; destruct (emitted b t); reflexivity).
  assert (Hbb1 : buttonBar s1 = None)
    by (subst s1 s0; unfold counted; destruct (emitted b t); exact Hbb).
  assert (Hab1 : abortRequested s1 = abortRequested s)
    by (subst s1 s0; unfold counted; destruct (emitted b t); reflexivity).
  assert (Hgr1 : aborted (taskGroup s1) = aborted (taskGroup s))
    by (subst s1 s0; unfold counted; destruct (emitted b t); reflexivity).
  assert (Hst1 : isStarted s1 = true)
    by (subst s1 s0; unfold counted; destruct (emitted b t); exact Hst).
  assert (Hnd1 : nbCmdDone s1 = (Z.of_nat k + 1)%Z)
    by (subst s1 s0; unfold counted; destruct (emitted b t); cbn; lia).
  assert (Hidx1 : taskIdx s1 = Z.of_nat k)
    by (subst s1 s0; unfold counted; destruct (emitted b t); exact Hidx).
  assert (Hne1 : nbError s1 = (nbError s + if emitted b t then 0 else 1)%Z)
    by (subst s1 s0; unfold counted; destruct (emitted b t); cbn; lia).
  assert (Hcb1 : callbacks (trace s1) = [])
    by (subst s1 s0; unfold counted; destruct (emitted b t); cbn;
        rewrite callbacks_app, Hcb; reflexivity).
  assert (Hlen1 : group_len (taskGroup s1) = group_len (taskGroup s))
    by (unfold group_len; rewrite Hl1, length_insert; reflexivity).
  assert (Hxf : failed_unmasked x = negb (emitted b t)) by apply outcome_failed.
  assert (Hxk : tasks (taskGroup s1) !! k = Some x)
    by (rewrite Hl1; apply list_lookup_insert_eq; exact Hk).
  assert (Hcount1 : nbError s1 = count_failed (take (S k) (tasks (taskGroup s1)))).
  { rewrite Hl1, take_S_insert by exact Hk. rewrite count_failed_app. cbn.
    rewrite Hxf, Hne1, <- Hcount. destruct (emitted b t); cbn; lia. }
  assert (Hfin :
    (abortRequested s = false -> emitted b t = true ->
     (Z.of_nat k + 1)%Z = group_len (taskGroup s)) ->
    audit (finalized s1)).
  { intros Hwhy. unfold audit. rewrite phase_of_finalized by exact Hbb1. cbn.
    rewrite Hab1, Hgr1. split; [exact Himp|].
    eexists. rewrite callbacks_app, Hcb1. split; [reflexivity|]. split.
    - intros Hb. apply andb_true_iff in Hb as [Hz Hnab].
      apply Z.eqb_eq in Hz. apply negb_true_iff in Hnab.
      (* no abort and no failure counted: this was the last task *)
      assert (Hlast : (Z.of_nat k + 1)%Z = group_len (taskGroup s)).
      { apply Hwhy; [exact Hnab|]. destruct (emitted b t); [reflexivity|].
        pose proof (count_failed_nonneg (take k (tasks (taskGroup s)))). lia. }
      unfold group_len in Hlast.
      { assert (Hwhole : take (S k) (tasks (taskGroup s1)) = tasks (taskGroup s1))
          by (apply take_ge; rewrite Hl1, length_insert; lia).
        rewrite Hwhole, Hz in Hcount1. symmetry in Hcount1.
        apply forallb_lookup. intros j tj Hj. apply done_passed.
        * rewrite Hl1 in Hj. apply list_lookup_insert_Some in Hj.
          destruct Hj as [(_ & <- & _)|[Hjk Hj]]; [apply outcome_done|].
          apply (Hd j tj Hj). apply lookup_lt_Some in Hj. lia.
        * exact (count_failed_zero _ j tj Hcount1 Hj). }
    - intros Hb. apply andb_false_iff in Hb as [Hz|Hnab].
      + right. apply Z.eqb_neq in Hz.
        destruct (count_failed_pos (take (S k) (tasks (taskGroup s1))))
          as (j & tj & Hj & Htj).
        { pose proof (count_failed_nonneg (take (S k) (tasks (taskGroup s1)))). lia. }
        apply lookup_take_Some in Hj as [Hj _].
        exact (existsb_lookup _ _ j tj Hj Htj).
      + left. apply negb_false_iff in Hnab. exact (Himp Hnab). }
  destruct (negb (emitted b t) && negb (abortRequested s)) eqn:Hfail.
  - apply andb_true_iff in Hfail as [Hb Hab].
    apply negb_true_iff in Hb, Hab.
    destruct (askQuestionUponFailure s); cbn [negb].
    + (* the question is asked *)
      unfold audit. rewrite phase_of_asked, Hidx1, Nat2Z.id. cbn.
      rewrite Hab1, Hgr1. split; [exact Himp|].
      rewrite callbacks_app, Hcb1. split; [reflexivity|].
      split; [exact Hcount1|]. exists x. split; [exact Hxk|].
      rewrite Hxf, Hb. reflexivity.
    + apply Hfin. intros _ Hb'. congruence.
  - destruct (isDone s1) eqn:Hdone; cbn [negb].
    + apply Hfin. intros Hab _. unfold isDone in Hdone.
      rewrite Hab1, Hab, orb_false_r, Hnd1, Hlen1 in Hdone.
      apply Z.eqb_eq, Hdone.
    + unfold isDone in Hdone. apply orb_false_iff in Hdone as [Hmore Hab].
      rewrite Hnd1, Hlen1 in Hmore. apply Z.eqb_neq in Hmore.
      unfold group_len in Hmore.
      assert (HSk : S k < length (tasks (taskGroup s))) by lia.
      destruct (lookup_lt_is_Some_2 _ _ HSk) as [t1 Ht1].
      assert (Ht1' : tasks (taskGroup s1) !! S k = Some t1)
        by (rewrite Hl1, list_lookup_insert_ne by lia; exact Ht1).
      unfold audit.
      rewrite (phase_of_started (S k) t1 s1 Ht1' Hbb1 Hst1)
        by (rewrite Hnd1, Hlen1; unfold group_len; lia).
      rewrite (started_eq (S k) t1 s1 Ht1'). cbn.
      rewrite Hab1, Hgr1. split; [exact Himp|].
      rewrite callbacks_app, Hcb1. split; [reflexivity|].
      rewrite take_insert_ge by lia. exact Hcount1.
Qed.

Lemma audit_running_abort k s :
  phase_inv (Running k) s -> audit s -> audit (abort_in_progress s).
Proof.
  intros HI Ha. pose proof (phase_of_inv _ _ HI) as Eph.
  unfold audit in Ha. rewrite Eph in Ha. destruct Ha as (Himp & Hcb & Hcount).
  assert (Hph : forall cs' tr',
    phase_of (set_trace tr' (set_children cs' (abort_marked s))) = Running k).
  { intros cs' tr'. rewrite <- Eph. reflexivity. }
  unfold abort_in_progress.
  destruct (job_in_progress _ _ _) as [[p it]|].
  - unfold audit. rewrite Hph. cbn. split; [reflexivity|].
    rewrite callbacks_app, Hcb. split; [reflexivity|exact Hcount].
  - unfold audit.
    replace (phase_of (abort_marked s)) with (Running k)
      by (rewrite <- Eph; reflexivity).
    cbn. split; [reflexivity|]. split; assumption.
Qed.

Lemma audit_asking k s ev :
  phase_inv (Asking k) s -> audit s -> enabled s ev = true ->
  audit (machine_step s ev).
Proof.
  intros HI Ha En. pose proof (phase_of_inv _ _ HI) as Eph.
  pose proof HI as (Hst & Hab & Hbb & (p & Hbbi) & Hidx & Hnd & Hne & Hk & Hd & Hf
                    & cs & it & Hcs & Ht & Hc & Hok).
  unfold machine_step. rewrite Eph. unfold audit in Ha. rewrite Eph in Ha.
  destruct Ha as (Himp & Hcb & Hcount & (t & Hl & Htf)).
  assert (Hz : (nbError s =? 0)%Z = false) by (apply Z.eqb_neq; lia).
  assert (Hfailed : existsb failed_unmasked (tasks (taskGroup s)) = true)
    by exact (existsb_lookup _ _ k t Hl Htf).
  assert (Hnd' : nbCmdDone s <> group_len (taskGroup s) ->
                 S k < length (tasks (taskGroup s)))
    by (unfold group_len; lia).
  destruct ev as [|i b out|c|].
  - cbn [enabled] in En. rewrite Hst in En. discriminate.
  - rewrite no_task_done_event in En; [discriminate|].
    eapply none_started_split; eauto.
  - cbn [enabled] in En. rewrite Hbb in En.
    apply andb_true_iff in En as [_ Hshown].
    apply negb_true_iff, Z.eqb_neq in Hshown. cbv zeta.
    destruct (Z.eqb_spec c ABORT) as [->|Hna].
    { unfold audit. rewrite phase_of_finalized by reflexivity. cbn.
      split; [reflexivity|]. eexists. rewrite callbacks_app, Hcb.
      split; [reflexivity|]. rewrite Hz. cbn.
      split; [discriminate|]. intros _. left. reflexivity. }
    destruct (Z.eqb_spec c CONTINUE) as [->|Hnc].
    { destruct (Z.eqb_spec (Z.of_nat k + 1) (group_len (taskGroup s))) as [e|Hmore];
        [cbn in Hshown; contradiction|].
      unfold group_len in Hmore.
      assert (HSk : S k < length (tasks (taskGroup s))) by lia.
      destruct (lookup_lt_is_Some_2 _ _ HSk) as [t1 Ht1].
      unfold audit.
      rewrite (phase_of_started (S k) t1 (set_buttonBar None s) Ht1);
        [|reflexivity|exact Hst|cbn; rewrite Hnd; unfold group_len; lia].
      rewrite (started_eq (S k) t1 (set_buttonBar None s) Ht1). cbn.
      split; [exact Himp|]. rewrite callbacks_app, Hcb. split; [reflexivity|].
      rewrite take_insert_ge by lia. exact Hcount. }
    destruct (Z.eqb_spec c RETRY) as [->|Hnr].
    { unfold retried.
      set (s1 := set_taskIdx _ _).
      assert (Hl1 : tasks (taskGroup s1) !! k = Some t) by exact Hl.
      unfold audit.
      rewrite (phase_of_started k t s1 Hl1);
        [|reflexivity|exact Hst|subst s1; cbn; rewrite Hnd; unfold group_len; lia].
      rewrite (started_eq k t s1 Hl1). subst s1. cbn.
      split; [exact Himp|]. rewrite callbacks_app, Hcb. split; [reflexivity|].
      rewrite take_insert_ge by lia.
      rewrite (take_S_r _ k t Hl), count_failed_app in Hcount. cbn in Hcount.
      rewrite Htf in Hcount. lia. }
    unfold audit. rewrite phase_of_finalized by reflexivity. cbn.
    split; [exact Himp|]. eexists. rewrite callbacks_app, Hcb.
    split; [reflexivity|]. rewrite Hz. cbn.
    split; [discriminate|]. intros _. right. exact Hfailed.
  - unfold audit. rewrite phase_of_finalized by reflexivity. cbn.
    split; [reflexivity|]. eexists. rewrite callbacks_app, Hcb.
    split; [reflexivity|]. rewrite Hz. cbn.
    split; [discriminate|]. intros _. left. reflexivity.
Qed.

Lemma audit_step s ev : Inv s -> audit s -> audit (step s ev).
Proof.
  intros HI Ha. destruct (enabled s ev) eqn:En;
    [|rewrite step_disabled by exact En; exact Ha].
  pose proof (inv_phase_of s HI) as Hph.
  destruct (step_machine s ev HI) as [->| ->]; [|exact Ha].
  destruct (phase_of s) as [|k|k|] eqn:Eph.
  - exact (audit_fresh s ev Hph Ha).
  - unfold machine_step. rewrite Eph.
    pose proof Hph as (Hst & Hbb & _).
    destruct ev as [|i b out|c|].
    + cbn [enabled] in En. rewrite Hst in En. discriminate.
    + cbn [enabled] in En.
      destruct (tasks (taskGroup s) !! i) as [ti|] eqn:Ei; [|discriminate].
      apply TaskState_eqb_spec in En.
      pose proof (running_started_unique s k i ti Hph Ei En). subst i.
      exact (audit_running_done k s ti b out Hph Ha Ei).
    + cbn [enabled] in En. rewrite Hbb in En. discriminate.
    + exact (audit_running_abort k s Hph Ha).
  - exact (audit_asking k s ev Hph Ha En).
  - exact (audit_final s ev Hph Ha).
Qed.

Lemma audit_init g ask s0 :
  fresh_group g = true -> MgExecItemMultiCmd_init g ask = Some s0 -> audit s0.
Proof.
  intros Hf Hi. pose proof (init_inv g ask s0 Hf Hi) as HI.
  unfold audit. rewrite (phase_of_inv _ _ HI).
  unfold MgExecItemMultiCmd_init in Hi.
  destruct (0 <? group_len g)%Z; [|discriminate]. injection Hi as <-. cbn.
  split; [discriminate|]. split; reflexivity.
Qed.

Lemma reachable_audit s : reachable s -> audit s.
Proof.
  intros (g & ask & s0 & evs & Hf & Hi & ->).
  pose proof (init_inv g ask s0 Hf Hi) as HI0.
  assert (H : Inv s0 /\ audit s0)
    by (split; [exists Fresh; exact HI0|exact (audit_init g ask s0 Hf Hi)]).
  clear Hi HI0 Hf. revert s0 H.
  induction evs as [|ev evs IH]; intros s0 [HI Ha]; [exact Ha|].
  cbn. apply IH. split; [apply step_inv, HI|apply audit_step; assumption].
Qed.

(** ** What a run guarantees *)



(** X3. What the value passed to [cbExecDone] says: [True] only if every
    task is Successful or is an Errored task masked by [ignore_failure];
    [False] only if the group was aborted or some task is Errored without
    [ignore_failure]. *)
Theorem group_callback_verdict (s : MgExecItemMultiCmd) (b : bool) :
  reachable s -> callbacks (trace s) = [b] ->
  (b = true -> forallb passed (tasks (taskGroup s)) = true) /\
  (b = false -> aborted (taskGroup s) = true \/
                existsb failed_unmasked (tasks (taskGroup s)) = true).
Proof.
  intros Hr Hcb. pose proof (reachable_audit s Hr) as [_ Ha].
  destruct (phase_of s) as [|k|k|].
  - destruct Ha as [H _]. congruence.
  - destruct Ha as [H _]. congruence.
  - destruct Ha as [H _]. congruence.
  - destruct Ha as (b' & H & Ht & Hf). rewrite Hcb in H. injection H as ->.
    auto.
Qed.

Lemma group_callback_verdict_witness :
  exists s, sample_run 1 true [EvRun; EvTaskDone 0 true "ok"] = Some s /\
  (true = true -> forallb passed (tasks (taskGroup s)) = true) /\
  (true = false -> aborted (taskGroup s) = true \/
                   existsb failed_unmasked (tasks (taskGroup s)) = true).
Proof.
  eexists. split; [reflexivity|].
  apply group_callback_verdict; [|reflexivity].
  exists (sample_group 1), true. eexists. exists [EvRun; EvTaskDone 0 true "ok"].
  split; [reflexivity|]. split; reflexivity.
Defined.

(** X7. The buttons of a pending question: Abort and Retry are always
    offered, Continue exactly when a task remains after the failed one and
    Finish exactly when the failed task is the last. *)
Theorem question_offers_continue_iff_tasks_remain (s : MgExecItemMultiCmd) (f : Z) :
  reachable s -> buttonBar s = Some f ->
  let last := (taskIdx s + 1 =? group_len (taskGroup s))%Z in
  (0 <= taskIdx s < group_len (taskGroup s))%Z /\
  f = (if last then Z.lor (Z.lor ABORT RETRY) OK
       else Z.lor (Z.lor CONTINUE ABORT) RETRY) /\
  enabled s (EvUserChoice ABORT) = true /\
  enabled s (EvUserChoice RETRY) = true /\
  enabled s (EvUserChoice CONTINUE) = negb last /\
  enabled s (EvUserChoice OK) = last.
Proof.
  intros Hr Hbb. destruct (inv_asking s f (reachable_inv s Hr) Hbb) as [k HI].
  destruct HI as (_ & _ & Hbb' & _ & Hidx & _ & _ & Hk & _).
  rewrite Hbb in Hbb'. injection Hbb' as ->.
  cbn [enabled]. rewrite Hbb, Hidx. unfold group_len.
  split; [lia|].
  destruct (Z.of_nat k + 1 =? Z.of_nat (length (tasks (taskGroup s))))%Z;
    repeat split; reflexivity.
Qed.

Lemma question_offers_continue_iff_tasks_remain_witness :
  exists s, sample_run 2 true [EvRun; EvTaskDone 0 false "conflict"] = Some s /\
  let last := (taskIdx s + 1 =? group_len (taskGroup s))%Z in
  (0 <= taskIdx s < group_len (taskGroup s))%Z /\
  7%Z = (if last then Z.lor (Z.lor ABORT RETRY) OK
         else Z.lor (Z.lor CONTINUE ABORT) RETRY) /\
  enabled s (EvUserChoice ABORT) = true /\
  enabled s (EvUserChoice RETRY) = true /\
  enabled s (EvUserChoice CONTINUE) = negb last /\
  enabled s (EvUserChoice OK) = last.
Proof.
  eexists. split; [reflexivity|].
  apply question_offers_continue_iff_tasks_remain; [|reflexivity].
  exists (sample_group 2), true. eexists.
  exists [EvRun; EvTaskDone 0 false "conflict"].
  split; [reflexivity|]. split; reflexivity.
Defined.

Lemma questions_app a b : questions (a ++ b) = questions a ++ questions b.
Proof. unfold questions. apply omap_app. Qed.



(** X6. [abortItem] on a runner that was never started finalizes it at once
    with [cbExecDone(False)] and without starting a task; a [run()] after
    that fails on the assertion of [runOneCmdline], and no later event
    starts a task or calls back again. *)
Theorem abortItem_on_fresh_runner
    (g : MgExecTaskGroup) (ask : bool) (s0 : MgExecItemMultiCmd) :
  fresh_group g = true -> MgExecItemMultiCmd_init g ask = Some s0 ->
  let s1 := step s0 EvAbortItem in
  tasks (taskGroup s1) = tasks g /\
  trace s1 = [CbExecDone false; RepoRefresh] /\
  is_aborted (taskGroup s1) = true /\
  handle EvRun s1 = Raise AssertionError (set_isStarted true s1) /\
  forall evs, tasks (taskGroup (exec s1 evs)) = tasks g /\
              trace (exec s1 evs) = [CbExecDone false; RepoRefresh].
Proof.
  intros Hf Hi s1. pose proof (init_inv g ask s0 Hf Hi) as HI.
  assert (Hs1 : s1 = finalized (abort_marked s0)).
  { subst s1. unfold step. cbn [enabled].
    rewrite (machine_fresh s0 EvAbortItem HI eq_refl).
    unfold machine_step. rewrite (phase_of_inv _ _ HI). reflexivity. }
  assert (HF : phase_inv Final s1).
  { assert (HInv : Inv s1) by (subst s1; apply step_inv; exists Fresh; exact HI).
    pose proof (inv_phase_of s1 HInv) as H.
    replace (phase_of s1) with Final in H; [exact H|].
    rewrite Hs1. symmetry. apply phase_of_finalized.
    destruct HI as (_ & _ & Hbb & _). exact Hbb. }
  unfold MgExecItemMultiCmd_init in Hi.
  destruct (0 <? group_len g)%Z; [|discriminate]. injection Hi as <-.
  assert (Htasks : tasks (taskGroup s1) = tasks g) by (rewrite Hs1; reflexivity).
  assert (Htrace : trace s1 = [CbExecDone false; RepoRefresh])
    by (rewrite Hs1; reflexivity).
  split; [exact Htasks|]. split; [exact Htrace|].
  split; [rewrite Hs1; reflexivity|]. split.
  - cbn [handle]. unfold MgExecItemMultiCmd_run, bind, modify.
    apply runOneCmdline_done. rewrite Hs1. unfold isDone. cbn.
    apply orb_true_r.
  - intros evs. destruct (exec_final s1 evs HF) as (_ & H1 & H2).
    rewrite H1, H2. auto.
Qed.

Lemma abortItem_on_fresh_runner_witness :
  exists s0, MgExecItemMultiCmd_init (sample_group 2) true = Some s0 /\
  let s1 := step s0 EvAbortItem in
  tasks (taskGroup s1) = tasks (sample_group 2) /\
  trace s1 = [CbExecDone false; RepoRefresh] /\
  is_aborted (taskGroup s1) = true /\
  handle EvRun s1 = Raise AssertionError (set_isStarted true s1) /\
  forall evs, tasks (taskGroup (exec s1 evs)) = tasks (sample_group 2) /\
              trace (exec s1 evs) = [CbExecDone false; RepoRefresh].
Proof.
  eexists. split; [reflexivity|].
  apply (abortItem_on_fresh_runner (sample_group 2) true); reflexivity.
Defined.

(** ** A run in which no failure is reported *)

Lemma emitted_with_state b st t : emitted b (with_task_state st t) = emitted b t.
Proof. reflexivity. Qed.

Lemma insert_last_take {A} (l : list A) k x :
  S k = length l -> <[k := x]> l = take k l ++ [x].
Proof.
  intros Hk. rewrite <- (take_S_insert l k x) by lia.
  symmetry. apply take_ge. rewrite length_insert. lia.
Qed.

Lemma run_rest (os : list (bool * string)) : forall k s pre,
  phase_inv (Running k) s -> abortRequested s = false -> nbError s = 0%Z ->
  callbacks (trace s) = [] -> questions (trace s) = [] ->
  dispatches (trace s) = seq 0 (S k) ->
  map task_state (take k (tasks (taskGroup s))) = map (fun o => outcome (fst o)) pre ->
  k + length os = length (tasks (taskGroup s)) ->
  (forall i t o, tasks (taskGroup s) !! (k + i) = Some t -> os !! i = Some o ->
     emitted (fst o) t = true) ->
  let s' := exec s (completions k os) in
  map task_state (tasks (taskGroup s')) = map (fun o => outcome (fst o)) (pre ++ os) /\
  nbCmdDone s' = group_len (taskGroup s) /\ nbError s' = 0%Z /\
  callbacks (trace s') = [true] /\ questions (trace s') = [] /\
  dispatches (trace s') = seq 0 (length (tasks (taskGroup s))) /\
  abortRequested s' = false /\ aborted (taskGroup s') = aborted (taskGroup s).
Proof.
  induction os as [|[b out] os IH]; intros k s pre HI Hab Hne Hcb Hq Hdp Hpre Hlen Hem.
  { exfalso. destruct HI as (_ & _ & _ & _ & _ & _ & _ & (t & Hl & _) & _).
    apply lookup_lt_Some in Hl. cbn in Hlen. lia. }
  pose proof HI as (Hst & Hbb & Hidx & Hnd & _ & Hd & Hf & (t & Hl & Hts) & _).
  assert (Hk : k < length (tasks (taskGroup s))) by (eapply lookup_lt_Some, Hl).
  assert (Hemb : emitted b t = true).
  { apply (Hem 0 t (b, out)); [rewrite Nat.add_0_r; exact Hl|reflexivity]. }
  cbn [completions exec fold_left fst snd].
  change (fold_left step (completions (S k) os) ?x)
    with (exec x (completions (S k) os)).
  assert (Hstep : step s (EvTaskDone k b out) = after_completion k b out s).
  { unfold step. cbn [enabled handle]. rewrite Hl, Hts. cbn [TaskState_eqb].
    rewrite (machine_running_done k s b out HI). reflexivity. }
  assert (HInv' : Inv (step s (EvTaskDone k b out)))
    by (apply step_inv; exists (Running k); exact HI).
  rewrite Hstep in *. clear Hstep.
  unfold after_completion in *. rewrite Hl in *. cbv zeta in *.
  rewrite Hemb in *. cbn [negb andb] in *.
  set (x := with_task_state (outcome b) t) in *.
  set (s1 := counted true (completed k t b out s)) in *.
  assert (Hdone : isDone s1 = (Z.of_nat k + 1 =? group_len (taskGroup s))%Z).
  { unfold isDone, s1, counted. cbn. rewrite Hab, orb_false_r, Hnd.
    unfold group_len. cbn. rewrite length_insert. reflexivity. }
  rewrite Hdone in *.
  destruct (Z.eqb_spec (Z.of_nat k + 1) (group_len (taskGroup s))) as [Hlast|Hmore];
    cbn [negb] in *.
  - (* the last task *)
    unfold group_len in Hlast.
    assert (os = []) by (destruct os; [reflexivity|cbn in Hlen; lia]). subst os.
    cbn [completions exec fold_left]. unfold s1, counted. cbn.
    rewrite !callbacks_app, !questions_app, !dispatches_app, Hcb, Hq, Hdp, Hne, Hab.
    cbn.
    split.
    { rewrite (insert_last_take _ k x) by lia.
      rewrite !map_app, Hpre. reflexivity. }
    split; [unfold group_len; cbn; rewrite length_insert; reflexivity|].
    repeat (split; [first [reflexivity | lia]|]).
    split; [|auto]. rewrite !app_nil_r.
    replace (length (tasks (taskGroup s))) with (S k) by lia. reflexivity.
  - (* more tasks to run *)
    unfold group_len in Hmore.
    assert (HSk : S k < length (tasks (taskGroup s))) by lia.
    destruct (lookup_lt_is_Some_2 _ _ HSk) as [t1 Ht1].
    assert (Ht1' : tasks (taskGroup s1) !! S k = Some t1).
    { unfold s1, counted. cbn. rewrite list_lookup_insert_ne by lia. exact Ht1. }
    assert (Hph : phase_of (started (S k) s1) = Running (S k)).
    { apply (phase_of_started (S k) t1 s1 Ht1'); try assumption.
      unfold s1, counted. cbn. rewrite Hnd. unfold group_len. cbn.
      rewrite length_insert. lia. }
    pose proof (inv_phase_of _ HInv') as HI'. rewrite Hph in HI'.
    rewrite (started_eq (S k) t1 s1 Ht1') in *.
    match goal with |- context [exec ?st _] => set (s2 := st) in * end.
    assert (Hl2 : tasks (taskGroup s2) =
              <[S k := with_task_state Started t1]> (<[k := x]> (tasks (taskGroup s))))
      by reflexivity.
    assert (Hlen2 : length (tasks (taskGroup s2)) = length (tasks (taskGroup s)))
      by (rewrite Hl2, !length_insert; reflexivity).
    assert (Hgl2 : group_len (taskGroup s2) = group_len (taskGroup s))
      by (unfold group_len; rewrite Hlen2; reflexivity).
    specialize (IH (S k) s2 (pre ++ [(b, out)]) HI').
    rewrite Hlen2, Hgl2 in IH. rewrite <- app_assoc in IH. cbn [app] in IH.
    replace (aborted (taskGroup s2)) with (aborted (taskGroup s)) in IH
      by reflexivity.
    apply IH; clear IH.
    + exact Hab.
    + exact Hne.
    + unfold s2, s1, counted. cbn. rewrite !callbacks_app, Hcb. reflexivity.
    + unfold s2, s1, counted. cbn. rewrite !questions_app, Hq. reflexivity.
    + rewrite (seq_S (S k) 0), <- Hdp. unfold s2, s1, counted. cbn.
      rewrite !dispatches_app. cbn. rewrite app_nil_r. reflexivity.
    + rewrite Hl2, take_insert_ge by lia. rewrite take_S_insert by lia.
      rewrite !map_app, Hpre. reflexivity.
    + cbn in Hlen. lia.
    + intros i t' o Hi Ho. rewrite Hl2 in Hi.
      apply list_lookup_insert_Some in Hi.
      destruct Hi as [(Hi0 & <- & _)|[Hne' Hi]].
      * rewrite emitted_with_state.
        apply (Hem (S i) t1 o); [|exact Ho].
        replace (k + S i) with (S k) by lia. exact Ht1.
      * rewrite list_lookup_insert_ne in Hi by lia.
        apply (Hem (S i) t' o); [|exact Ho].
        replace (k + S i) with (S k + i) by lia. exact Hi.
Qed.

Lemma successful_of_outcomes l (os : list (bool * string)) :
  map task_state l = map (fun o => outcome (fst o)) os ->
  forallb is_task_successful l = forallb fst os.
Proof.
  revert os. induction l as [|t l IH]; intros [|[b out] os]; cbn;
    try discriminate; [reflexivity|].
  intros [= Ht Hl]. rewrite (IH os Hl). unfold is_task_successful. rewrite Ht.
  destruct b; reflexivity.
Qed.

(** X4. When every task reports a success or a failure that its
    [ignore_failure] masks, the run dispatches each task once, in order,
    asks nothing and ends with [cbExecDone(True)], [nbCmdDone] at the
    number of tasks and [nbError = 0]; each task holds its true outcome, so
    the group's [is_successful()] is true only if no failure was masked. *)
Theorem run_without_reported_failure
    (g : MgExecTaskGroup) (ask : bool) (s0 : MgExecItemMultiCmd)
    (os : list (bool * string)) :
  fresh_group g = true -> MgExecItemMultiCmd_init g ask = Some s0 ->
  length os = length (tasks g) ->
  (forall i t o, tasks g !! i = Some t -> os !! i = Some o ->
     emitted (fst o) t = true) ->
  let s' := exec s0 (EvRun :: completions 0 os) in
  map task_state (tasks (taskGroup s')) = map (fun o => outcome (fst o)) os /\
  nbCmdDone s' = group_len g /\ nbError s' = 0%Z /\
  callbacks (trace s') = [true] /\ questions (trace s') = [] /\
  dispatches (trace s') = seq 0 (length (tasks g)) /\
  is_successful (taskGroup s') = negb (aborted g) && forallb fst os.
Proof.
  intros Hf Hi Hlen Hem s'. pose proof (init_inv g ask s0 Hf Hi) as HI.
  pose proof HI as (_ & _ & _ & _ & _ & _ & _ & Hpos & Hfr).
  unfold MgExecItemMultiCmd_init in Hi.
  destruct (0 <? group_len g)%Z; [|discriminate]. injection Hi as Hs0.
  assert (Hg : taskGroup s0 = g) by (rewrite <- Hs0; reflexivity).
  rewrite Hg in Hpos, Hfr.
  destruct (lookup_lt_is_Some_2 (tasks g) 0 Hpos) as [t0 Ht0].
  assert (Ht0' : tasks (taskGroup (set_isStarted true s0)) !! 0 = Some t0)
    by (cbn; rewrite Hg; exact Ht0).
  assert (Hstep : step s0 EvRun = started 0 (set_isStarted true s0)).
  { unfold step. rewrite (machine_fresh s0 EvRun HI);
      [|cbn; rewrite <- Hs0; reflexivity].
    cbn [enabled]. replace (isStarted s0) with false by (rewrite <- Hs0; reflexivity).
    cbn. unfold machine_step. rewrite (phase_of_inv _ _ HI). reflexivity. }
  assert (HInv1 : Inv (step s0 EvRun)) by (apply step_inv; exists Fresh; exact HI).
  rewrite Hstep in HInv1.
  assert (Hph : phase_of (started 0 (set_isStarted true s0)) = Running 0).
  { apply (phase_of_started 0 t0 _ Ht0'); rewrite <- Hs0; cbn; try reflexivity.
    unfold group_len in *. cbn. lia. }
  pose proof (inv_phase_of _ HInv1) as HI1. rewrite Hph in HI1.
  subst s'. cbn [exec fold_left].
  change (fold_left step (completions 0 os) ?x) with (exec x (completions 0 os)).
  rewrite Hstep. rewrite (started_eq 0 t0 _ Ht0') in *.
  match goal with |- context [exec ?st _] => set (s1 := st) in * end.
  assert (Hl1 : tasks (taskGroup s1) = <[0 := with_task_state Started t0]> (tasks g))
    by (unfold s1; cbn; rewrite Hg; reflexivity).
  assert (Hlen1 : length (tasks (taskGroup s1)) = length (tasks g))
    by (rewrite Hl1, length_insert; reflexivity).
  destruct (run_rest os 0 s1 [] HI1) as (H1 & H2 & H3 & H4 & H5 & H6 & H7 & H8);
    try (unfold s1; rewrite <- Hs0; reflexivity).
  - rewrite Hlen1. cbn. exact Hlen.
  - intros i t o Hi Ho. rewrite Hl1 in Hi. cbn [Nat.add] in Hi.
    apply list_lookup_insert_Some in Hi.
    destruct Hi as [(<- & <- & _)|[_ Hi]].
    + exact (Hem 0 t0 o Ht0 Ho).
    + exact (Hem i t o Hi Ho).
  - cbn [app] in H1. rewrite Hlen1 in H6.
    replace (group_len (taskGroup s1)) with (group_len g) in H2
      by (unfold group_len; rewrite Hlen1; reflexivity).
    repeat (split; [assumption|]).
    unfold is_successful, is_aborted. rewrite H8.
    replace (aborted (taskGroup s1)) with (aborted g)
      by (unfold s1; cbn; rewrite Hg; reflexivity).
    rewrite (successful_of_outcomes _ _ H1). destruct (aborted g); reflexivity.
Qed.

Lemma run_without_reported_failure_witness :
  let g := MgExecTaskGroup_init "checkout tag" sample_repo
             (Some [MgExecTask_init "step 1" true; MgExecTask_init "step 2" false]) in
  let os := [(false, "unknown revision"); (true, "HEAD is now at")] in
  exists s0, MgExecItemMultiCmd_init g true = Some s0 /\
  let s' := exec s0 (EvRun :: completions 0 os) in
  map task_state (tasks (taskGroup s')) = map (fun o => outcome (fst o)) os /\
  nbCmdDone s' = group_len g /\ nbError s' = 0%Z /\
  callbacks (trace s') = [true] /\ questions (trace s') = [] /\
  dispatches (trace s') = seq 0 (length (tasks g)) /\
  is_successful (taskGroup s') = negb (aborted g) && forallb fst os.
Proof.
  intros g os. eexists. split; [reflexivity|].
  apply (run_without_reported_failure g true _ os); try reflexivity.
  intros [|[|i]] t o Ht Ho; try discriminate;
    injection Ht as <-; injection Ho as <-; reflexivity.
Defined.

(** ** The queries of a task group *)

Lemma successful_is_done_not_errored l :
  forallb is_task_successful l =
  forallb is_task_done l && negb (existsb is_task_errored l).
Proof.
  induction l as [|t l IH]; [reflexivity|]. cbn. rewrite IH. clear IH.
  generalize (forallb is_task_done l), (existsb is_task_errored l).
  intros a b. unfold is_task_successful, is_task_done, is_task_errored.
  destruct (task_state t), a, b; reflexivity.
Qed.

(** X8. For every group, [is_successful()] is [is_finished()] and not
    [is_errored()]; so a finished group is either successful or errored,
    never both.  A finished group that is not aborted and has a task is
    started, and appending a fresh task to a group that is not aborted
    makes it unfinished and unsuccessful again. *)
Theorem group_queries_agree (g : MgExecTaskGroup) :
  is_successful g = is_finished g && negb (is_errored g) /\
  (is_finished g = true -> is_aborted g = false -> tasks g <> [] ->
   is_started g = true) /\
  (forall t, task_state t = NotStarted -> is_aborted g = false ->
     is_finished (appendTask t g) = false /\
     is_successful (appendTask t g) = false /\
     is_started (appendTask t g) = is_started g).
Proof.
  unfold is_successful, is_finished, is_errored, is_started, is_aborted.
  split; [|split].
  - destruct (aborted g); [reflexivity|]. apply successful_is_done_not_errored.
  - intros Hf Ha Hn. rewrite Ha in Hf. destruct (tasks g) as [|t l]; [congruence|].
    cbn in *. apply andb_true_iff in Hf as [Ht _].
    unfold is_task_done in Ht. unfold is_task_started.
    destruct (task_state t); try discriminate; reflexivity.
  - intros t Ht Ha. unfold appendTask. cbn. rewrite Ha.
    rewrite !forallb_app, existsb_app. cbn.
    unfold is_task_done, is_task_successful, is_task_started. rewrite Ht. cbn.
    rewrite !andb_false_r, orb_false_r. auto.
Qed.

Lemma group_queries_agree_witness :
  let g := MgExecTaskGroup_init "pull" sample_repo
             (Some [with_task_state Successful (MgExecTask_init "git pull" false)]) in
  is_successful g = is_finished g && negb (is_errored g) /\
  is_started g = true /\
  is_finished (appendTask (MgExecTask_init "git gc" false) g) = false /\
  is_successful (appendTask (MgExecTask_init "git gc" false) g) = false /\
  is_started (appendTask (MgExecTask_init "git gc" false) g) = is_started g.
Proof.
  intros g. pose proof (group_queries_agree g) as (H1 & H2 & H3).
  split; [exact H1|]. split.
  - apply H2; [reflexivity|reflexivity|discriminate].
  - apply H3; reflexivity.
Defined.

(** ** Preconditions *)

(** X9. The finished-dependency precondition does not look at the file
    system; it is Errored exactly when the referenced group is absent and
    Fulfilled exactly when the group is finished.  Whenever it is Fulfilled
    the started-and-directory-exists precondition on the same group is
    Fulfilled too, whatever the file system holds; in particular an aborted
    group fulfils both, even if none of its tasks ran. *)
Theorem finished_dependency_precondition
    (tg : option MgExecTaskGroup) (fs fs' : string -> bool) :
  after_other_taskgroup_is_finished tg fs = after_other_taskgroup_is_finished tg fs' /\
  (after_other_taskgroup_is_finished tg fs = PreConditionState.Errored <-> tg = None) /\
  (after_other_taskgroup_is_finished tg fs = PreConditionState.FulFilled <->
   exists g, tg = Some g /\ is_finished g = true) /\
  (after_other_taskgroup_is_finished tg fs = PreConditionState.FulFilled ->
   after_other_taskgroup_is_started_and_dir_exists tg fs' = PreConditionState.FulFilled) /\
  (forall g, tg = Some g -> is_aborted g = true ->
   after_other_taskgroup_is_finished tg fs = PreConditionState.FulFilled /\
   after_other_taskgroup_is_started_and_dir_exists tg fs' = PreConditionState.FulFilled).
Proof.
  unfold after_other_taskgroup_is_finished,
    after_other_taskgroup_is_started_and_dir_exists.
  destruct tg as [g|].
  - destruct (is_finished g) eqn:Hf.
    + repeat split; try discriminate; eauto.
    + repeat split; try discriminate.
      * intros (g' & [= <-] & H). congruence.
      * injection H as <-. unfold is_finished in Hf. rewrite H0 in Hf. discriminate.
      * injection H as <-. unfold is_finished in Hf. rewrite H0 in Hf. discriminate.
  - repeat split; try discriminate. intros (g & H & _). discriminate.
Qed.

Lemma finished_dependency_precondition_witness :
  let g := group_abort (sample_group 2) in
  after_other_taskgroup_is_finished (Some g) (fun _ => false) = PreConditionState.FulFilled /\
  after_other_taskgroup_is_started_and_dir_exists (Some g) (fun _ => false) =
    PreConditionState.FulFilled.
Proof.
  intros g.
  pose proof (finished_dependency_precondition (Some g) (fun _ => false) (fun _ => false))
    as (_ & _ & _ & _ & H).
  exact (H g eq_refl eq_refl).
Defined.

(** ** MgExecTaskGit *)

Lemma prefix_append (s x : string) : String.prefix s (s ++ x)%string = true.
Proof.
  induction s as [|a s IH].
  - destruct x; reflexivity.
  - change (String.prefix (String a s) (String a (s ++ x)%string) = true).
    cbn [String.prefix]. destruct (Ascii.ascii_dec a a); [exact IH|congruence].
Qed.

Lemma append_assoc (a b c : string) : ((a ++ b) ++ c = a ++ (b ++ c))%string.
Proof.
  induction a as [|x a IH]; [reflexivity|].
  change (String x ((a ++ b) ++ c)%string = String x (a ++ (b ++ c))%string).
  rewrite IH. reflexivity.
Qed.

Lemma length_append (a b : string) :
  String.length (a ++ b)%string = String.length a + String.length b.
Proof.
  induction a as [|x a IH]; [reflexivity|].
  change (S (String.length (a ++ b)%string) = S (String.length a + String.length b)).
  rewrite IH. reflexivity.
Qed.

Lemma emissions_app a b : emissions (a ++ b) = emissions a ++ emissions b.
Proof. apply omap_app. Qed.

(** X10. [_do_run] on a task as [__init__] builds it raises before
    anything is touched, FileNotFoundError exactly when no git executable
    is known and otherwise ValueError exactly when the command is to run
    inside a repository that is missing.  Otherwise it starts exactly one
    process: the executable, then [-C] and the repository path exactly when
    the command runs inside the repository, then the arguments.  The
    command line shown for the task is [git] followed by those arguments,
    without the path, and [_do_run] itself leaves the task NotStarted. *)
Theorem git_do_run_command
    (prog_git : option string) (d : string) (repo : option MgRepoInfo)
    (args : list string) (ig inside : bool) :
  let w := MgExecTaskGit_init d repo args ig inside in
  let no_exe := match prog_git with Some (String _ _) => false | _ => true end in
  match MgExecTaskGit_do_run prog_git w with
  | inl e =>
      (e = FileNotFoundError <-> no_exe = true) /\
      (e = PyError ValueError <->
       no_exe = false /\ inside = true /\ repo = None)
  | inr w' =>
      exists exe path_args,
        prog_git = Some exe /\ no_exe = false /\
        path_args = (if inside then match repo with
                                    | Some r => ["-C"; fullpath r]
                                    | None => []
                                    end
                     else []) /\
        (inside = true -> repo <> None) /\
        run_process w' = Some (exe :: path_args ++ args) /\
        effects w' = [ExecAsync (exe :: path_args ++ args)] /\
        git_task w' = git_task w /\
        task_state (git_task w') = NotStarted /\
        cmd_line (git_task w') =
          ("git " ++ String.concat " " (drop (S (length path_args))
                                          (exe :: path_args ++ args)))%string /\
        (d = "" -> desc (git_task w') = cmd_line (git_task w'))
  end.
Proof.
  intros w no_exe. unfold MgExecTaskGit_do_run.
  destruct prog_git as [[|c exe]|]; cbn.
  - split; [tauto|]. split; [discriminate|]. intros (H & _). discriminate.
  - destruct inside; cbn.
    + destruct repo as [r|]; cbn.
      * eexists _, _. repeat split; try reflexivity; try discriminate.
        -- intros ->. reflexivity.
      * split; [split; discriminate|]. split; auto.
    + eexists _, _. repeat split; try reflexivity; try discriminate.
      * intros ->. reflexivity.
  - split; [tauto|]. split; [discriminate|]. intros (H & _). discriminate.
Qed.

Lemma git_task_done_eq
    (w : MgExecTaskGit) (git_exit_code : Z) (git_stdout : string) :
  exists w' o,
    git_task_done git_exit_code git_stdout w = Ok tt w' /\
    run_process w' = None /\
    git_task w' =
      with_task_state (if (git_exit_code =? 0)%Z then Successful else Errored)
        (git_task w) /\
    effects w' =
      effects w ++ [Emitted ((git_exit_code =? 0)%Z || ignore_failure (git_task w)) o] /\
    String.prefix git_stdout o = true /\
    (git_exit_code = 0%Z -> o = git_stdout) /\
    (git_exit_code <> 0%Z -> String.length git_stdout < String.length o).
Proof.
  destruct w as [t r a p i e]. unfold git_task_done.
  destruct (git_exit_code =? 0)%Z eqn:Hc.
  - exists (with_effect (Emitted true git_stdout)
              (with_git_task (with_task_state Successful t)
                 (with_run_process None
                    {| git_task := t; git_repo := r; git_args := a; run_process := p;
                       run_inside_git_repo := i; effects := e |}))), git_stdout.
    cbn. repeat split.
    + rewrite <- (prefix_append git_stdout ""). f_equal.
      clear. induction git_stdout as [|c s IH]; [reflexivity|].
      change (String c s = String c (s ++ "")%string). congruence.
    + apply Z.eqb_eq in Hc. congruence.
  - apply Z.eqb_neq in Hc.
    set (o1 := if negb (String.length git_stdout =? 0)%nat
               then (git_stdout ++ LF)%string else git_stdout).
    set (o2 := (o1 ++ "Git did not complete successfully.")%string).
    set (o := if ignore_failure t
              then (o2 ++ LF ++ "Ignoring non relevant git error")%string else o2).
    exists (with_effect (Emitted (ignore_failure t) o)
              (with_git_task (with_task_state Errored t)
                 (with_run_process None
                    {| git_task := t; git_repo := r; git_args := a; run_process := p;
                       run_inside_git_repo := i; effects := e |}))), o.
    assert (Ho : exists x, o = (git_stdout ++ x)%string /\ 0 < String.length x).
    { subst o o2 o1.
      destruct (negb (String.length git_stdout =? 0)%nat), (ignore_failure t);
        rewrite ?append_assoc; eexists; (split; [reflexivity|]);
        rewrite ?length_append; cbn; lia. }
    destruct Ho as (x & Ho & Hx).
    split; [|split; [reflexivity|split; [reflexivity|split; [|split; [|split]]]]].
    + cbn. destruct (ignore_failure t); reflexivity.
    + cbn. reflexivity.
    + rewrite Ho. apply prefix_append.
    + congruence.
    + intros _. rewrite Ho, length_append. lia.
Qed.

(** X11. [git_task_done] never raises and forgets the process.  Exit code 0
    makes the task Successful and emits the output as it is; any other exit
    code makes it Errored and emits an output that starts with what git
    wrote and is never empty.  The signal says success exactly when the
    exit code is 0 or the task ignores failures. *)
Theorem git_task_done_reports_exit_code
    (w : MgExecTaskGit) (git_exit_code : Z) (git_stdout : string) :
  exists w' o,
    git_task_done git_exit_code git_stdout w = Ok tt w' /\
    run_process w' = None /\
    git_task w' =
      with_task_state (if (git_exit_code =? 0)%Z then Successful else Errored)
        (git_task w) /\
    effects w' =
      effects w ++ [Emitted ((git_exit_code =? 0)%Z || ignore_failure (git_task w)) o] /\
    String.prefix git_stdout o = true /\
    (git_exit_code = 0%Z -> o = git_stdout) /\
    (git_exit_code <> 0%Z -> String.length git_stdout < String.length o).
Proof. exact (git_task_done_eq w git_exit_code git_stdout). Qed.

Lemma git_started_no_process_abort (w : MgExecTaskGit) :
  task_state (git_task w) = Started -> run_process w = None ->
  MgExecTaskGit_abort w =
    Ok tt (with_effect (Emitted (ignore_failure (git_task w)) "")
             (with_git_task (with_task_state Errored (git_task w)) w)).
Proof.
  destruct w as [[d st c ig] r a p i e]. cbn. intros -> ->.
  destruct ig; cbv; reflexivity.
Qed.

Lemma git_done_abort (w : MgExecTaskGit) :
  is_task_done (git_task w) = true -> MgExecTaskGit_abort w = Ok tt w.
Proof.
  destruct w as [[d st c ig] r a p i e]. unfold is_task_done. cbn.
  destruct st; try discriminate; intros _; cbv; reflexivity.
Qed.

(** X12. [abort()] on a Started git task whose process is in flight only
    asks the process to stop: the task stays Started and nothing is
    emitted, so the one signal of the run comes with the exit of the
    process.  On a Started task without a process, which is what a second
    [abort()] or a [_do_run] that raised finds, [abort()] completes the
    task itself as Errored with an empty output; if the stopped process
    still reports its exit after that, the signal is emitted a second time
    for the same run.  [abort()] on a completed task does nothing. *)
Theorem git_abort_stops_the_process
    (w : MgExecTaskGit) (cmd : list string) :
  task_state (git_task w) = Started -> run_process w = Some cmd ->
  let w1 := with_run_process None (with_effect AbortProcessInProgress w) in
  let w2 := with_effect (Emitted (ignore_failure (git_task w)) "")
              (with_git_task (with_task_state Errored (git_task w)) w1) in
  MgExecTaskGit_abort w = Ok tt w1 /\
  (forall code out,
     length (emissions (effects (final (git_task_done code out w1)))) =
     S (length (emissions (effects w)))) /\
  MgExecTaskGit_abort w1 = Ok tt w2 /\
  MgExecTaskGit_abort w2 = Ok tt w2 /\
  (forall code out,
     length (emissions (effects (final (git_task_done code out w2)))) =
     S (S (length (emissions (effects w)))) /\
     task_state (git_task (final (git_task_done code out w2))) =
       if (code =? 0)%Z then Successful else Errored).
Proof.
  intros Hst Hp w1 w2.
  assert (H1 : MgExecTaskGit_abort w = Ok tt w1).
  { subst w1. destruct w as [[d st c ig] r a p i e]. cbn in *. subst.
    cbv. reflexivity. }
  assert (Hdone : forall v code out,
            length (emissions (effects (final (git_task_done code out v)))) =
            S (length (emissions (effects v))) /\
            task_state (git_task (final (git_task_done code out v))) =
              if (code =? 0)%Z then Successful else Errored).
  { intros v code out.
    destruct (git_task_done_eq v code out)
      as (v' & o & -> & _ & Ht & He & _). cbn [final]. rewrite He, Ht.
    rewrite emissions_app, length_app. cbn. split; [lia|].
    destruct (code =? 0)%Z; reflexivity. }
  split; [exact H1|]. split.
  - intros code out. rewrite (proj1 (Hdone w1 code out)).
    subst w1. cbn. rewrite emissions_app. cbn. rewrite app_nil_r. reflexivity.
  - split; [|split].
    + apply (git_started_no_process_abort w1); [exact Hst|reflexivity].
    + apply git_done_abort. reflexivity.
    + intros code out. destruct (Hdone w2 code out) as [Hl Hs].
      split; [|exact Hs]. rewrite Hl. subst w2 w1. cbn.
      rewrite !emissions_app. cbn. rewrite app_nil_r, length_app. cbn. lia.
Qed.

Lemma git_abort_stops_the_process_witness :
  let w0 := MgExecTaskGit_init "" (Some sample_repo) ["fetch"; "--all"] false true in
  let w := with_run_process (Some ["git"; "-C"; fullpath sample_repo; "fetch"; "--all"])
             (with_git_task (with_task_state Started (git_task w0)) w0) in
  let w1 := with_run_process None (with_effect AbortProcessInProgress w) in
  MgExecTaskGit_abort w = Ok tt w1 /\
  length (emissions (effects (final (git_task_done 128 "fatal" w1)))) = 1.
Proof.
  intros w0 w w1.
  destruct (git_abort_stops_the_process w
              ["git"; "-C"; fullpath sample_repo; "fetch"; "--all"]
              eq_refl eq_refl) as (H1 & H2 & _).
  split; [exact H1|exact (H2 128%Z "fatal")].
Defined.

(** ** Strings *)

Lemma append_cons a (s x : string) :
  (String a s ++ x)%string = String a (s ++ x)%string.
Proof. reflexivity. Qed.

Lemma append_nil_l (x : string) : (EmptyString ++ x)%string = x.
Proof. reflexivity. Qed.

Lemma cut_Some c s h r :
  cut c s = Some (h, r) <-> s = (h ++ String c r)%string /\ cut c h = None.
Proof.
  revert h r. induction s as [|a s IH]; intros h r; cbn [cut].
  - split; [discriminate|]. intros [H _]. destruct h; discriminate.
  - destruct (Ascii.eqb_spec a c) as [Hac|Hac].
    + subst a. split.
      * intros [= <- <-]. split; reflexivity.
      * intros [H Hh]. destruct h as [|b h].
        -- rewrite append_nil_l in H. injection H as ->. reflexivity.
        -- rewrite append_cons in H. injection H as <- _. cbn [cut] in Hh.
           rewrite Ascii.eqb_refl in Hh. discriminate.
    + split.
      * destruct (cut c s) as [[h' r']|] eqn:E; [|discriminate].
        intros [= <- <-]. destruct (proj1 (IH h' r') eq_refl) as [-> Hh].
        split; [reflexivity|]. cbn [cut].
        destruct (Ascii.eqb_spec a c); [contradiction|]. rewrite Hh. reflexivity.
      * intros [H Hh]. destruct h as [|b h].
        -- rewrite append_nil_l in H. injection H as H0 _. contradiction.
        -- rewrite append_cons in H. injection H as <- ->. cbn [cut] in Hh.
           destruct (Ascii.eqb_spec a c); [contradiction|].
           destruct (cut c h) as [[? ?]|] eqn:E'; [discriminate|].
           rewrite (proj2 (IH h r) (conj eq_refl E')). reflexivity.
Qed.

(** ** The order of [sorted] *)

Lemma ascii_compare_refl a : Ascii.compare a a = Eq.
Proof. unfold Ascii.compare. apply N.compare_refl. Qed.

Lemma ascii_compare_lt_trans a b c :
  Ascii.compare a b = Lt -> Ascii.compare b c = Lt -> Ascii.compare a c = Lt.
Proof.
  unfold Ascii.compare. rewrite !N.compare_lt_iff. apply N.lt_trans.
Qed.

Lemma string_compare_refl s : String.compare s s = Eq.
Proof.
  induction s as [|a s IH]; cbn; [reflexivity|].
  rewrite ascii_compare_refl. exact IH.
Qed.

Lemma string_compare_lt_trans s1 : forall s2 s3,
  String.compare s1 s2 = Lt -> String.compare s2 s3 = Lt ->
  String.compare s1 s3 = Lt.
Proof.
  induction s1 as [|a s1 IH]; intros [|b s2] [|c s3]; cbn; try discriminate;
    try reflexivity.
  destruct (Ascii.compare a b) eqn:Eab; try discriminate;
    destruct (Ascii.compare b c) eqn:Ebc; try discriminate.
  - apply Ascii.compare_eq_iff in Eab, Ebc. subst.
    rewrite ascii_compare_refl. apply IH.
  - apply Ascii.compare_eq_iff in Eab. subst. rewrite Ebc. reflexivity.
  - apply Ascii.compare_eq_iff in Ebc. subst. rewrite Eab. reflexivity.
  - rewrite (ascii_compare_lt_trans a b c Eab Ebc). reflexivity.
Qed.

Lemma string_compare_gt_lt a b : String.compare a b = Gt -> String.compare b a = Lt.
Proof.
  intros H. rewrite String.compare_antisym, H. reflexivity.
Qed.

Lemma ascending_nil : ascending [].
Proof. intros i j a b _ H. rewrite lookup_nil in H. discriminate. Qed.

Lemma ascending_cons x l :
  ascending (x :: l) <->
  (forall y, y ∈ l -> String.compare x y = Lt) /\ ascending l.
Proof.
  split.
  - intros H. split.
    + intros y Hy. apply list_elem_of_lookup in Hy as [j Hj].
      apply (H 0 (S j) x y); [lia|reflexivity|exact Hj].
    + intros i j a b Hij Hi Hj. apply (H (S i) (S j) a b); [lia|exact Hi|exact Hj].
  - intros [Hx Hl] i j a b Hij Hi Hj. destruct j as [|j]; [lia|].
    cbn in Hj. destruct i as [|i].
    + cbn in Hi. injection Hi as <-. apply Hx.
      apply list_elem_of_lookup. eauto.
    + cbn in Hi. apply (Hl i j a b); [lia|exact Hi|exact Hj].
Qed.

Lemma ascending_NoDup l : ascending l -> NoDup l.
Proof.
  induction l as [|x l IH]; intros H; [constructor|].
  apply ascending_cons in H as [Hx Hl]. constructor; [|auto].
  intros Hin. specialize (Hx x Hin). rewrite string_compare_refl in Hx.
  discriminate.
Qed.

Lemma elem_of_insert_sorted x l y :
  y ∈ insert_sorted x l <-> y = x \/ y ∈ l.
Proof.
  induction l as [|z l IH]; cbn.
  - rewrite list_elem_of_singleton, elem_of_nil. tauto.
  - destruct (String.compare x z) eqn:E.
    + apply String.compare_eq_iff in E. subst z.
      rewrite elem_of_cons. tauto.
    + rewrite !elem_of_cons. tauto.
    + rewrite !elem_of_cons, IH. tauto.
Qed.

Lemma ascending_insert_sorted x l : ascending l -> ascending (insert_sorted x l).
Proof.
  induction l as [|z l IH]; intros H; cbn.
  - apply ascending_cons. split; [|apply ascending_nil].
    intros y Hy. apply elem_of_nil in Hy. contradiction.
  - destruct (String.compare x z) eqn:E; [exact H| |].
    + apply ascending_cons. split; [|exact H].
      intros y Hy. apply elem_of_cons in Hy as [->|Hy]; [exact E|].
      apply ascending_cons in H as [Hz _].
      exact (string_compare_lt_trans _ _ _ E (Hz y Hy)).
    + apply ascending_cons in H as [Hz Hl]. apply ascending_cons. split.
      * intros y Hy. apply elem_of_insert_sorted in Hy as [->|Hy].
        -- exact (string_compare_gt_lt _ _ E).
        -- exact (Hz y Hy).
      * exact (IH Hl).
Qed.

Lemma elem_of_sorted_set l y : y ∈ sorted_set l <-> y ∈ l.
Proof.
  induction l as [|x l IH]; cbn; [reflexivity|].
  rewrite elem_of_insert_sorted, elem_of_cons, IH. reflexivity.
Qed.

Lemma ascending_sorted_set l : ascending (sorted_set l).
Proof.
  induction l as [|x l IH]; cbn; [apply ascending_nil|].
  apply ascending_insert_sorted, IH.
Qed.

(** ** Names of remote branches *)

Lemma strip_remote_eq name :
  strip_remote name =
  match cut SLASH name with Some (_, r) => inr r | None => inl IndexError end.
Proof.
  unfold strip_remote, py_split1, subscript.
  destruct (cut SLASH name) as [[h r]|]; reflexivity.
Qed.

Lemma strip_remote_inr name x : strip_remote name = inr x <-> names_branch name x.
Proof.
  rewrite strip_remote_eq. unfold names_branch. split.
  - destruct (cut SLASH name) as [[h r]|] eqn:E; [|discriminate].
    intros [= <-]. exists h. apply cut_Some. exact E.
  - intros (o & H1 & H2). rewrite (proj2 (cut_Some SLASH name o x) (conj H1 H2)).
    reflexivity.
Qed.

Lemma strip_remote_inl name e :
  strip_remote name = inl e <-> e = IndexError /\ cut SLASH name = None.
Proof.
  rewrite strip_remote_eq. destruct (cut SLASH name) as [[h r]|].
  - split; [discriminate|]. intros [_ H]. discriminate.
  - split; [intros [= <-]; auto|]. intros [-> _]. reflexivity.
Qed.

Lemma comprehension_inr {A B} (f : A -> PyExn + B) l ys :
  comprehension f l = inr ys <-> Forall2 (fun x y => f x = inr y) l ys.
Proof.
  revert ys. induction l as [|x l IH]; intros ys; cbn.
  - split; [intros [= <-]; constructor|]. intros H. inversion H. reflexivity.
  - destruct (f x) as [e|y] eqn:E; cbn.
    + split; [discriminate|]. intros H. inversion H. congruence.
    + destruct (comprehension f l) as [e|ys'] eqn:E'; cbn.
      * split; [discriminate|]. intros H. inversion H; subst.
        apply IH in H4. discriminate.
      * split.
        -- intros [= <-]. constructor; [exact E|]. apply IH. reflexivity.
        -- intros H. inversion H; subst. apply IH in H4. congruence.
Qed.

Lemma comprehension_inl {A B} (f : A -> PyExn + B) l e :
  comprehension f l = inl e ->
  exists x, x ∈ l /\ f x = inl e.
Proof.
  induction l as [|x l IH]; cbn; [discriminate|].
  destruct (f x) as [e'|y] eqn:E; cbn.
  - intros [= <-]. exists x. split; [left|exact E].
  - destruct (comprehension f l) as [e'|ys]; cbn; [|discriminate].
    intros [= <-]. destruct (IH eq_refl) as (z & Hz & Hf).
    exists z. split; [right; exact Hz|exact Hf].
Qed.

Lemma Forall2_elem_r {A B} (R : A -> B -> Prop) l ys y :
  Forall2 R l ys -> y ∈ ys -> exists x, x ∈ l /\ R x y.
Proof.
  induction 1 as [|x y' l ys HR HF IH]; intros Hy.
  - apply elem_of_nil in Hy. contradiction.
  - apply elem_of_cons in Hy as [->|Hy].
    + exists x. split; [left|exact HR].
    + destruct (IH Hy) as (z & Hz & HRz). exists z. split; [right; exact Hz|exact HRz].
Qed.

Lemma Forall2_elem_l {A B} (R : A -> B -> Prop) l ys x :
  Forall2 R l ys -> x ∈ l -> exists y, y ∈ ys /\ R x y.
Proof.
  induction 1 as [|x' y l ys HR HF IH]; intros Hx.
  - apply elem_of_nil in Hx. contradiction.
  - apply elem_of_cons in Hx as [->|Hx].
    + exists y. split; [left|exact HR].
    + destruct (IH Hx) as (z & Hz & HRz). exists z. split; [right; exact Hz|exact HRz].
Qed.

Lemma nonempty_elem {A} (l : list A) : l <> [] -> exists x, x ∈ l.
Proof. destruct l as [|x l]; [congruence|]. intros _. exists x. left. Qed.

Lemma py_in_elem x l : py_in x l = true <-> x ∈ l.
Proof.
  unfold py_in. rewrite existsb_exists. split.
  - intros (y & Hy & E). apply String.eqb_eq in E. subst.
    apply list_elem_of_In. exact Hy.
  - intros H. exists x. split; [apply list_elem_of_In; exact H|apply String.eqb_refl].
Qed.

Lemma stripped_elem l names x :
  comprehension strip_remote l = inr names ->
  x ∈ names <-> exists name, name ∈ l /\ names_branch name x.
Proof.
  intros H. apply comprehension_inr in H. split.
  - intros Hx. destruct (Forall2_elem_r _ _ _ _ H Hx) as (n & Hn & Hs).
    exists n. split; [exact Hn|]. apply strip_remote_inr. exact Hs.
  - intros (n & Hn & Hs). destruct (Forall2_elem_l _ _ _ _ H Hn) as (y & Hy & Hs').
    apply strip_remote_inr in Hs. rewrite Hs in Hs'. injection Hs' as <-. exact Hy.
Qed.

(** X13. [stripOrigin] raises IndexError exactly when some name holds no
    slash.  Otherwise its result is strictly ascending, so without
    duplicates, and holds exactly the names that remain when the part up to
    the first slash is removed from a given name. *)
Theorem stripOrigin_result (branches_remote : list string) :
  match stripOrigin branches_remote with
  | inl e =>
      e = IndexError /\
      exists name, name ∈ branches_remote /\ cut SLASH name = None
  | inr names =>
      (forall name, name ∈ branches_remote -> cut SLASH name <> None) /\
      ascending names /\ NoDup names /\
      forall x, x ∈ names <->
                exists name, name ∈ branches_remote /\ names_branch name x
  end.
Proof.
  unfold stripOrigin.
  destruct (comprehension strip_remote branches_remote) as [e|names] eqn:E; cbn.
  - destruct (comprehension_inl _ _ _ E) as (n & Hn & Hf).
    apply strip_remote_inl in Hf as [-> Hc]. eauto.
  - split; [|split; [|split]].
    + intros n Hn Hc. apply comprehension_inr in E.
      destruct (Forall2_elem_l _ _ _ _ E Hn) as (y & _ & Hy).
      rewrite strip_remote_eq, Hc in Hy. discriminate.
    + apply ascending_sorted_set.
    + apply ascending_NoDup, ascending_sorted_set.
    + intros x. rewrite elem_of_sorted_set. apply stripped_elem. exact E.
Qed.

Lemma remoteBranches_comprehension b l :
  remoteBranchesForBranchName b l =
  and_then (comprehension strip_remote l) (fun names =>
    inr (omap (fun p => if String.eqb b (snd p) then Some (fst p) else None)
           (zip l names))).
Proof.
  induction l as [|n l IH]; cbn; [reflexivity|].
  destruct (strip_remote n) as [e|x]; cbn; [reflexivity|].
  rewrite IH. destruct (comprehension strip_remote l) as [e|names]; cbn;
    [reflexivity|].
  destruct (String.eqb b x); reflexivity.
Qed.

(** X14. The three functions on remote names raise together, IndexError
    when some name holds no slash.  Otherwise
    [branchNameIsPresentInRemote] says whether the branch is in
    [stripOrigin]'s result, which is the case exactly when
    [remoteBranchesForBranchName] finds a name; the names found are the
    given names of the form origin/branch. *)
Theorem remote_name_lookups_agree (branchName : string) (branches_remote : list string) :
  match stripOrigin branches_remote,
        branchNameIsPresentInRemote branchName branches_remote,
        remoteBranchesForBranchName branchName branches_remote with
  | inr names, inr present, inr found =>
      present = py_in branchName names /\
      (present = true <-> found <> []) /\
      (forall name, name ∈ found <->
                    name ∈ branches_remote /\ names_branch name branchName)
  | inl e1, inl e2, inl e3 => e1 = IndexError /\ e2 = IndexError /\ e3 = IndexError
  | _, _, _ => False
  end.
Proof.
  rewrite remoteBranches_comprehension.
  unfold stripOrigin, branchNameIsPresentInRemote.
  destruct (comprehension strip_remote branches_remote) as [e|names] eqn:E; cbn.
  - destruct (comprehension_inl _ _ _ E) as (n & Hn & Hf).
    apply strip_remote_inl in Hf as [-> Hc]. auto.
  - pose proof E as HF. apply comprehension_inr in HF.
    assert (Hfound : forall name,
      name ∈ omap (fun p => if String.eqb branchName (snd p) then Some (fst p) else None)
               (zip branches_remote names) <->
      name ∈ branches_remote /\ names_branch name branchName).
    { clear E. induction HF as [|n x l ys Hnx HF IH]; intros name; cbn.
      - rewrite !elem_of_nil. tauto.
      - destruct (String.eqb_spec branchName x) as [->|Hne].
        + rewrite !elem_of_cons, IH. split.
          * intros [->|[H1 H2]]; [|tauto]. split; [tauto|].
            apply strip_remote_inr. exact Hnx.
          * intros [[->|H1] H2]; tauto.
        + rewrite IH, elem_of_cons. split; [tauto|].
          intros [[->|H1] H2]; [|tauto].
          apply strip_remote_inr in H2. congruence. }
    split; [|split; [|exact Hfound]].
    + apply eq_true_iff_eq. rewrite !py_in_elem, elem_of_sorted_set. reflexivity.
    + rewrite py_in_elem, (stripped_elem _ _ _ E). split.
      * intros (n & Hn & Hs) Hnil.
        assert (Hin := proj2 (Hfound n) (conj Hn Hs)). rewrite Hnil in Hin.
        apply elem_of_nil in Hin. contradiction.
      * intros Hne. destruct (nonempty_elem _ Hne) as [n Hin].
        apply Hfound in Hin. exists n. exact Hin.
Qed.

(** ** The selected names and the line edit *)









(** ** Deleting branches *)

Lemma after_index_eq n :
  after_index SLASH n =
  match cut SLASH n with Some (_, r) => inr r | None => inl ValueError end.
Proof. reflexivity. Qed.

Lemma stripped_by_index l :
  match comprehension (after_index SLASH) l with
  | inl e => e = ValueError /\ exists n, n ∈ l /\ cut SLASH n = None
  | inr stripped =>
      (forall n, n ∈ l -> cut SLASH n <> None) /\
      forall b, py_in b stripped =
                existsb (fun name => match cut SLASH name with
                                     | Some (_, x) => String.eqb b x
                                     | None => false
                                     end) l
  end.
Proof.
  induction l as [|n l IH]; cbn.
  - split; [|reflexivity]. intros n Hn. apply elem_of_nil in Hn. contradiction.
  - unfold after_index at 1. destruct (cut SLASH n) as [[h x]|] eqn:E; cbn.
    + destruct (comprehension (after_index SLASH) l) as [e|st]; cbn.
      * destruct IH as (-> & m & Hm & Hc). split; [reflexivity|].
        exists m. split; [right; exact Hm|exact Hc].
      * destruct IH as [Hwf Hin]. split.
        -- intros m Hm. apply elem_of_cons in Hm as [->|Hm]; [congruence|auto].
        -- intros b. specialize (Hin b). unfold py_in in Hin |- *.
           cbn [existsb]. rewrite Hin. reflexivity.
    + split; [reflexivity|]. exists n. split; [left|exact E].
Qed.

Lemma delete_cmds_for_eq repo dr dl b :
  delete_cmds_for repo dr dl b =
  match comprehension (after_index SLASH) (branches_remote repo) with
  | inl e => inl e
  | inr _ => inr (branch_delete_cmds repo dr dl b)
  end.
Proof.
  unfold delete_cmds_for, branch_delete_cmds, has_remote, has_local.
  pose proof (stripped_by_index (branches_remote repo)) as H.
  destruct (comprehension (after_index SLASH) (branches_remote repo)) as [e|st];
    cbn; [reflexivity|].
  destruct H as [_ H]. rewrite H.
  destruct (py_in b (branches_local repo) && dl); [reflexivity|].
  rewrite app_nil_r. reflexivity.
Qed.

Lemma fold_left_raised {A B} (f : PyExn + A -> B -> PyExn + A) l e :
  (forall b, f (inl e) b = inl e) -> fold_left f l (inl e) = inl e.
Proof.
  intros H. induction l as [|b l IH]; cbn; [reflexivity|]. rewrite H. exact IH.
Qed.

Lemma delete_cmds_eq repo dr dl names :
  delete_cmds repo dr dl names =
  match comprehension (after_index SLASH) (branches_remote repo), names with
  | inl e, _ :: _ => inl e
  | _, _ => inr (flat_map (branch_delete_cmds repo dr dl) names)
  end.
Proof.
  unfold delete_cmds.
  assert (H : forall acc,
    fold_left
      (fun acc branchName =>
         and_then acc (fun gitCmds =>
         and_then (delete_cmds_for repo dr dl branchName) (fun more =>
         inr (gitCmds ++ more)))) names (inr acc) =
    match comprehension (after_index SLASH) (branches_remote repo), names with
    | inl e, _ :: _ => inl e
    | _, _ => inr (acc ++ flat_map (branch_delete_cmds repo dr dl) names)
    end).
  { induction names as [|b names IH]; intros acc; cbn.
    - rewrite app_nil_r. destruct (comprehension _ _); reflexivity.
    - rewrite delete_cmds_for_eq.
      destruct (comprehension (after_index SLASH) (branches_remote repo)) as [e|st]
        eqn:E; cbn.
      + apply fold_left_raised. reflexivity.
      + rewrite IH, app_assoc. destruct names; reflexivity. }
  exact (H []).
Qed.

Lemma delete_rows_eq dr dl names repos : forall acc,
  let row r := match flat_map (branch_delete_cmds r dr dl) names with
               | [] => None
               | cmds => Some ("Git Delete branch", r, cmds)
               end in
  match fold_left
          (fun acc repo =>
             and_then acc (fun descRepoCmdBranch =>
             and_then (delete_cmds repo dr dl names) (fun gitCmds =>
             inr (if (0 <? length gitCmds)%nat
                  then descRepoCmdBranch ++ [("Git Delete branch", repo, gitCmds)]
                  else descRepoCmdBranch))))
          repos (inr acc) with
  | inl e =>
      e = ValueError /\ names <> [] /\
      exists r n, r ∈ repos /\ n ∈ branches_remote r /\ cut SLASH n = None
  | inr rows =>
      (names = [] \/
       forall r n, r ∈ repos -> n ∈ branches_remote r -> cut SLASH n <> None) /\
      rows = acc ++ omap row repos
  end.
Proof.
  intros acc row. revert acc. induction repos as [|r repos IH]; intros acc.
  - cbn. split; [|rewrite app_nil_r; reflexivity]. right. intros r n Hr.
    apply elem_of_nil in Hr. contradiction.
  - cbn [fold_left and_then]. rewrite delete_cmds_eq.
    pose proof (stripped_by_index (branches_remote r)) as Hs.
    destruct (comprehension (after_index SLASH) (branches_remote r)) as [e|st].
    + destruct names as [|b names].
      * cbn [and_then flat_map length Nat.ltb Nat.leb]. specialize (IH acc).
        cbn [flat_map] in IH. subst row. cbn [omap flat_map].
        destruct (fold_left _ repos (inr acc)) as [e'|rows].
        -- destruct IH as (_ & F & _). congruence.
        -- destruct IH as [_ ->]. split; [left; reflexivity|reflexivity].
      * cbn [and_then]. rewrite fold_left_raised by reflexivity.
        destruct Hs as (-> & n & Hn & Hc). split; [reflexivity|].
        split; [discriminate|]. exists r, n. split; [left|]. split; assumption.
    + destruct Hs as [Hwf _].
      assert (Hstep :
        (if (0 <? length (flat_map (branch_delete_cmds r dr dl) names))%nat
         then acc ++ [("Git Delete branch", r, flat_map (branch_delete_cmds r dr dl) names)]
         else acc) = acc ++ match row r with Some x => [x] | None => [] end).
      { subst row. cbn beta.
        destruct (flat_map (branch_delete_cmds r dr dl) names); cbn;
          [rewrite app_nil_r|]; reflexivity. }
      assert (Hmatch : forall X : PyExn + list (string * RepoBranches * list (list string)),
        match names with [] | _ => X end = X) by (intros X; destruct names; reflexivity).
      replace (match names with
               | [] | _ => inr (flat_map (branch_delete_cmds r dr dl) names)
               end) with (@inr PyExn _ (flat_map (branch_delete_cmds r dr dl) names))
        by (destruct names; reflexivity).
      cbn [and_then]. rewrite Hstep. specialize (IH (acc ++ match row r with
                                                          | Some x => [x]
                                                          | None => []
                                                          end)).
      destruct (fold_left _ repos (inr _)) as [e'|rows].
      * destruct IH as (-> & Hne & r' & n & Hr' & Hn & Hc).
        split; [reflexivity|]. split; [exact Hne|].
        exists r', n. split; [right; exact Hr'|]. split; assumption.
      * destruct IH as [Hok ->]. split.
        -- destruct Hok as [->|Hok]; [left; reflexivity|]. right.
           intros r' n Hr' Hn. apply elem_of_cons in Hr' as [->|Hr'];
             [exact (Hwf n Hn)|exact (Hok r' n Hr' Hn)].
        -- rewrite <- app_assoc. f_equal.
           change (omap row (r :: repos)) with
             (match row r with
              | Some y => y :: omap row repos
              | None => omap row repos
              end).
           destruct (row r); reflexivity.
Qed.

(** X16. [doGitDeleteBranch] raises only ValueError: outside the delete
    dialog, or when a name is selected and some targeted repository has a
    remote name without slash, whatever the check boxes say.  Otherwise, in
    every repository and for each selected name in turn it issues
    [push origin --delete] if some remote has the branch and remote
    deletion is checked, then [branch -d] if the branch is local and local
    deletion is checked; repositories without a command are left out, and
    if none is left the user is warned and nothing is executed. *)
Theorem doGitDeleteBranch_result
    (deleteOrSwitch : DeleteOrSwitch) (text : string)
    (targetedRepos : list RepoBranches) (delRemote delLocal : bool) :
  let names := filter (fun br => negb (is_empty br)) (py_split SPACE text) in
  let rows :=
    omap (fun r => match flat_map (branch_delete_cmds r delRemote delLocal) names with
                   | [] => None
                   | cmds => Some ("Git Delete branch", r, cmds)
                   end) targetedRepos in
  match doGitDeleteBranch deleteOrSwitch text targetedRepos delRemote delLocal with
  | inl e =>
      e = ValueError /\
      (deleteOrSwitch <> DELETE \/
       (names <> [] /\
        exists r n, r ∈ targetedRepos /\ n ∈ branches_remote r /\ cut SLASH n = None))
  | inr out =>
      deleteOrSwitch = DELETE /\
      (names = [] \/
       forall r n, r ∈ targetedRepos -> n ∈ branches_remote r -> cut SLASH n <> None) /\
      out = match rows with
            | [] => WarnNoRepository
                      ("No repository found for branch names: "
                       ++ String.concat ", " names ++ ".")%string
            | _ => ExecEachRepo "Git Delete branch" rows
            end /\
      (delRemote = false -> delLocal = false -> rows = [])
  end.
Proof.
  intros names rows. unfold doGitDeleteBranch.
  destruct deleteOrSwitch; cbn [getDeleteTargetedBranches and_then];
    try (split; [reflexivity|left; discriminate]).
  fold names.
  pose proof (delete_rows_eq delRemote delLocal names targetedRepos []) as H.
  cbn zeta in H.
  destruct (fold_left _ targetedRepos (inr [])) as [e|rows'].
  - cbn [and_then]. destruct H as (-> & Hne & Hbad). split; [reflexivity|].
    right. split; assumption.
  - cbn [and_then]. destruct H as [Hok Hrows]. cbn [app] in Hrows. fold rows in Hrows.
    subst rows'. split; [reflexivity|]. split; [exact Hok|]. split.
    + destruct rows; reflexivity.
    + intros -> ->. subst rows. clear.
      induction targetedRepos as [|r l IH]; [reflexivity|].
      match goal with
      | |- omap ?f (r :: l) = [] =>
          change (match f r with Some y => y :: omap f l | None => omap f l end = [])
      end.
      assert (Hnil : flat_map (branch_delete_cmds r false false) names = []).
      { clear. induction names as [|b names IH]; [reflexivity|]. cbn [flat_map].
        rewrite IH. unfold branch_delete_cmds. rewrite !andb_false_r. reflexivity. }
      cbv beta. rewrite Hnil. exact IH.
Qed.

(** ** Switching to a branch *)

Lemma comprehension_strip_well_formed l :
  (forall n, n ∈ l -> cut SLASH n <> None) ->
  exists names,
    comprehension strip_remote l = inr names /\
    forall b, py_in b names =
              existsb (fun name => match cut SLASH name with
                                   | Some (_, x) => String.eqb b x
                                   | None => false
                                   end) l.
Proof.
  induction l as [|n l IH]; intros Hwf.
  - exists []. split; reflexivity.
  - destruct IH as (names & E & Hin).
    { intros m Hm. apply Hwf. right. exact Hm. }
    cbn [comprehension]. rewrite strip_remote_eq, E.
    destruct (cut SLASH n) as [[h x]|] eqn:Ec.
    + exists (x :: names). split; [reflexivity|]. intros b.
      specialize (Hin b). unfold py_in in Hin |- *. cbn [existsb].
      rewrite Hin, Ec. reflexivity.
    + exfalso. apply (Hwf n); [left|exact Ec].
Qed.

Lemma present_well_formed repo b :
  remotes_well_formed repo ->
  branchNameIsPresentInRemote b (branches_remote repo) = inr (has_remote repo b).
Proof.
  intros Hwf. unfold branchNameIsPresentInRemote, has_remote.
  destruct (comprehension_strip_well_formed _ Hwf) as (names & -> & Hin).
  cbn. rewrite Hin. reflexivity.
Qed.

Lemma matches_well_formed repo b :
  remotes_well_formed repo ->
  remoteBranchesForBranchName b (branches_remote repo) = inr (remote_matches repo b).
Proof.
  unfold remotes_well_formed, remote_matches.
  induction (branches_remote repo) as [|n l IH]; intros Hwf; [reflexivity|].
  cbn [remoteBranchesForBranchName]. rewrite strip_remote_eq.
  rewrite IH by (intros m Hm; apply Hwf; right; exact Hm).
  destruct (cut SLASH n) as [[h x]|] eqn:Ec.
  - cbn [and_then List.filter]. rewrite Ec.
    destruct (String.eqb b x); reflexivity.
  - exfalso. apply (Hwf n); [left|exact Ec].
Qed.

Lemma has_remote_matches repo b :
  has_remote repo b = negb (length (remote_matches repo b) =? 0)%nat.
Proof.
  unfold has_remote, remote_matches.
  induction (branches_remote repo) as [|n l IH]; [reflexivity|].
  cbn [existsb List.filter].
  destruct (match cut SLASH n with
            | Some (_, x) => String.eqb b x
            | None => false
            end); [reflexivity|exact IH].
Qed.

Lemma switch_loop_no_question choose b d dflt repos : forall main int,
  (forall r, r ∈ repos ->
     has_local r b = true \/
     (remotes_well_formed r /\ length (remote_matches r b) <= 1)) ->
  switch_branch_loop choose b d dflt repos main int =
  inr (Some
    (main ++ flat_map (fun r => if has_local r b || has_remote r b
                                then [single_task_group d r ["checkout"; b; "--"]]
                                else []) repos,
     int ++ flat_map (fun r => if has_local r b || has_remote r b then []
                               else if dflt
                               then [single_task_group "Checkouting backup branch int" r
                                       ["checkout"; "int"; "--"]]
                               else []) repos)).
Proof.
  induction repos as [|r repos IH]; intros main int H.
  - cbn. rewrite !app_nil_r. reflexivity.
  - assert (Hrest : forall r', r' ∈ repos ->
              has_local r' b = true \/
              (remotes_well_formed r' /\ length (remote_matches r' b) <= 1)).
    { intros r' Hr'. apply H. right. exact Hr'. }
    specialize (H r ltac:(left)).
    cbn [switch_branch_loop flat_map]. unfold has_local in *.
    destruct (py_in b (branches_local r)) eqn:El.
    + cbn [orb]. rewrite (IH _ _ Hrest). cbn [app].
      rewrite <- !app_assoc. reflexivity.
    + destruct H as [H|[Hwf Hlen]]; [discriminate|].
      rewrite (present_well_formed r b Hwf). cbn [and_then orb].
      pose proof (has_remote_matches r b) as Hm.
      destruct (has_remote r b) eqn:Er.
      * rewrite (matches_well_formed r b Hwf). cbn [and_then].
        assert (Hone : length (remote_matches r b) = 1).
        { destruct (length (remote_matches r b)) as [|[|k]]; [discriminate|reflexivity|lia]. }
        rewrite Hone. cbn [Nat.eqb]. rewrite (IH _ _ Hrest). cbn [app].
        rewrite <- !app_assoc. reflexivity.
      * destruct dflt.
        -- rewrite (IH _ _ Hrest). cbn [app]. rewrite <- !app_assoc. reflexivity.
        -- rewrite (IH _ _ Hrest). cbn [app]. reflexivity.
Qed.

Lemma switch_loop_prefix choose b d dflt rest pre : forall main int,
  (forall p, p ∈ pre -> has_local p b = true \/ remotes_well_formed p) ->
  switch_branch_loop choose b d dflt (pre ++ rest) main int = inr None \/
  exists main' int',
    switch_branch_loop choose b d dflt (pre ++ rest) main int =
    switch_branch_loop choose b d dflt rest main' int'.
Proof.
  induction pre as [|r pre IH]; intros main int H.
  - right. exists main, int. reflexivity.
  - assert (Hrest : forall p, p ∈ pre -> has_local p b = true \/ remotes_well_formed p).
    { intros p Hp. apply H. right. exact Hp. }
    specialize (H r ltac:(left)).
    cbn [app switch_branch_loop]. unfold has_local in *.
    destruct (py_in b (branches_local r)) eqn:El; [apply IH; exact Hrest|].
    destruct H as [H|Hwf]; [discriminate|].
    rewrite (present_well_formed r b Hwf). cbn [and_then].
    destruct (has_remote r b).
    + rewrite (matches_well_formed r b Hwf). cbn [and_then].
      destruct (length (remote_matches r b) =? 1)%nat; [apply IH; exact Hrest|].
      destruct (choose r (remote_matches r b)); [apply IH; exact Hrest|].
      left. reflexivity.
    + destruct dflt; apply IH; exact Hrest.
Qed.

(** X17. In a branch dialog, when every targeted repository has the branch
    locally, or has well-formed remote names of which at most one is this
    branch, [doGitSwitchBranchTag] asks nothing and returns True.  It hands
    over, in the order of the repositories, one group of the single task
    [checkout <name> --] for each repository that has the branch locally or
    remotely and then, when the default box is checked, one group
    [checkout int --] for each of the others; a list that is empty is not
    handed over. *)
Theorem switch_branch_without_question
    (choose : RepoBranches -> list string -> option string)
    (text : string) (defaultForNotExist : bool) (targetedRepos : list RepoBranches) :
  (forall r, r ∈ targetedRepos ->
     has_local r text = true \/
     (remotes_well_formed r /\ length (remote_matches r text) <= 1)) ->
  let desc := ("Checkouting branch " ++ text ++ " ")%string in
  let main :=
    flat_map (fun r => if has_local r text || has_remote r text
                       then [single_task_group desc r ["checkout"; text; "--"]]
                       else []) targetedRepos in
  let int :=
    flat_map (fun r => if has_local r text || has_remote r text then []
                       else if defaultForNotExist
                       then [single_task_group "Checkouting backup branch int" r
                               ["checkout"; "int"; "--"]]
                       else []) targetedRepos in
  doGitSwitchBranchTag choose SWITCH_BRANCH text defaultForNotExist targetedRepos =
  inr (true,
       match main with [] => [] | _ => [(desc, main)] end ++
       match int with [] => [] | _ => [("Checkouting backup branch int", int)] end).
Proof.
  intros H desc main int. unfold doGitSwitchBranchTag.
  cbn [getTargetedBranchTag and_then isBranchDialog].
  fold desc. rewrite (switch_loop_no_question choose text desc _ _ [] [] H).
  cbn [app and_then]. fold main. fold int.
  destruct main, int; reflexivity.
Qed.

(** X18. In a branch dialog, when a repository without the local branch
    has two or more remote names for it, the user is asked; if the user
    aborts, [doGitSwitchBranchTag] returns False and nothing is executed,
    also for the repositories handled before.  If the user picks a name in
    the only targeted repository, the single task is
    [checkout --track <picked> --]. *)
Theorem switch_branch_question
    (choose : RepoBranches -> list string -> option string)
    (text : string) (defaultForNotExist : bool)
    (pre post : list RepoBranches) (r : RepoBranches) :
  (forall p, p ∈ pre -> has_local p text = true \/ remotes_well_formed p) ->
  has_local r text = false -> remotes_well_formed r ->
  2 <= length (remote_matches r text) ->
  (choose r (remote_matches r text) = None ->
   doGitSwitchBranchTag choose SWITCH_BRANCH text defaultForNotExist (pre ++ r :: post) =
   inr (false, [])) /\
  (forall picked, choose r (remote_matches r text) = Some picked ->
   doGitSwitchBranchTag choose SWITCH_BRANCH text defaultForNotExist [r] =
   inr (true,
        [(("Checkouting branch " ++ text ++ " ")%string,
          [single_task_group ("Checkouting branch " ++ picked)%string r
             ["checkout"; "--track"; picked; "--"]])])).
Proof.
  intros Hpre Hl Hwf Hlen.
  assert (Hr : has_remote r text = true).
  { rewrite has_remote_matches.
    destruct (length (remote_matches r text)); [lia|reflexivity]. }
  assert (Hne : (length (remote_matches r text) =? 1)%nat = false).
  { apply Nat.eqb_neq. lia. }
  split.
  - intros Hc. unfold doGitSwitchBranchTag.
    cbn [getTargetedBranchTag and_then isBranchDialog].
    match goal with
    | |- context [switch_branch_loop choose text ?d _ _ _ _] => set (dd := d)
    end.
    assert (Hstep : forall main int,
      switch_branch_loop choose text dd defaultForNotExist (r :: post) main int
      = inr None).
    { intros main int. cbn [switch_branch_loop]. unfold has_local in Hl.
      rewrite Hl, (present_well_formed r text Hwf). cbn [and_then]. rewrite Hr.
      rewrite (matches_well_formed r text Hwf). cbn [and_then].
      rewrite Hne, Hc. reflexivity. }
    destruct (switch_loop_prefix choose text dd defaultForNotExist (r :: post)
                pre [] [] Hpre) as [E|(m & i & E)]; rewrite E.
    + reflexivity.
    + rewrite Hstep. reflexivity.
  - intros picked Hc. unfold doGitSwitchBranchTag.
    cbn [getTargetedBranchTag and_then isBranchDialog switch_branch_loop].
    unfold has_local in Hl.
    rewrite Hl, (present_well_formed r text Hwf). cbn [and_then]. rewrite Hr.
    rewrite (matches_well_formed r text Hwf). cbn [and_then].
    rewrite Hne, Hc. reflexivity.
Qed.

Lemma switch_branch_without_question_witness :
  let lib := {| repo_info := {| name := "lib"; fullpath := "/src/lib" |};
                branches_local := ["main"; "dev"];
                branches_remote := ["origin/main"]; all_tags := [] |} in
  let app := {| repo_info := {| name := "app"; fullpath := "/src/app" |};
                branches_local := ["main"];
                branches_remote := ["origin/main"; "origin/dev"]; all_tags := [] |} in
  let doc := {| repo_info := {| name := "doc"; fullpath := "/src/doc" |};
                branches_local := ["main"];
                branches_remote := ["origin/main"]; all_tags := [] |} in
  doGitSwitchBranchTag (fun _ _ => None) SWITCH_BRANCH "dev" true [lib; app; doc] =
  inr (true,
       [("Checkouting branch dev ",
         [single_task_group "Checkouting branch dev " lib ["checkout"; "dev"; "--"];
          single_task_group "Checkouting branch dev " app ["checkout"; "dev"; "--"]]);
        ("Checkouting backup branch int",
         [single_task_group "Checkouting backup branch int" doc
            ["checkout"; "int"; "--"]])]).
Proof.
  intros lib app doc.
  refine (switch_branch_without_question (fun _ _ => None) "dev" true [lib; app; doc] _).
  intros r Hr.
  apply elem_of_cons in Hr as [->|Hr]; [left; reflexivity|].
  apply elem_of_cons in Hr as [->|Hr].
  { right. split; [|vm_compute; lia]. intros n Hn.
    repeat (apply elem_of_cons in Hn as [->|Hn]; [discriminate|]).
    apply elem_of_nil in Hn. contradiction. }
  apply elem_of_cons in Hr as [->|Hr].
  { right. split; [|vm_compute; lia]. intros n Hn.
    repeat (apply elem_of_cons in Hn as [->|Hn]; [discriminate|]).
    apply elem_of_nil in Hn. contradiction. }
  apply elem_of_nil in Hr. contradiction.
Defined.

Lemma switch_branch_question_witness :
  let app := {| repo_info := {| name := "app"; fullpath := "/src/app" |};
                branches_local := ["main"];
                branches_remote := ["origin/dev"; "fork/dev"]; all_tags := [] |} in
  doGitSwitchBranchTag (fun _ _ => None) SWITCH_BRANCH "dev" false [app] =
  inr (false, []).
Proof.
  intros app.
  refine (proj1 (switch_branch_question (fun _ _ => None) "dev" false [] [] app
                   _ eq_refl _ _) eq_refl).
  - intros p Hp. apply elem_of_nil in Hp. contradiction.
  - intros n Hn.
    repeat (apply elem_of_cons in Hn as [->|Hn]; [discriminate|]).
    apply elem_of_nil in Hn. contradiction.
  - vm_compute. lia.
Defined.

(** ** Checking out a tag *)

(** X19. In a tag dialog [doGitSwitchBranchTag] asks nothing, never raises
    and hands over one group per targeted repository, whatever tags the
    repository has: [checkout <tag>~1 --] with [ignore_failure], then
    [checkout <tag> --].  Run by the group runner, the second step is
    started whatever the first reports; when it succeeds the run ends with
    [cbExecDone(True)] and no question, although [is_successful()] of the
    group is then true only if the first step succeeded too; when it fails
    the question offers Abort, Retry and Finish, or without questions the
    run ends with [cbExecDone(False)]. *)
Theorem tag_checkout_runs_both_steps
    (choose : RepoBranches -> list string -> option string)
    (text : string) (defaultForNotExist : bool) (targetedRepos : list RepoBranches) :
  let desc := ("Checkouting tag " ++ text ++ " ")%string in
  doGitSwitchBranchTag choose CHECKOUT_TAG text defaultForNotExist targetedRepos =
    inr (true,
         match targetedRepos with
         | [] => []
         | _ => [(desc, map (tag_checkout_group desc text) targetedRepos)]
         end) /\
  forall (r : RepoBranches) (ask b1 b2 : bool) (o1 o2 : string),
    let g := as_task_group (tag_checkout_group desc text r) in
    map git_args (gg_tasks (tag_checkout_group desc text r)) =
      [["checkout"; (text ++ "~1")%string; "--"]; ["checkout"; text; "--"]] /\
    map ignore_failure (tasks g) = [true; false] /\
    exists s',
      run_group g ask [EvRun; EvTaskDone 0 b1 o1; EvTaskDone 1 b2 o2] = Some s' /\
      dispatches (trace s') = [0; 1] /\
      map task_state (tasks (taskGroup s')) = [outcome b1; outcome b2] /\
      callbacks (trace s') = (if b2 then [true] else if ask then [] else [false]) /\
      questions (trace s') =
        (if b2 then [] else if ask then [Z.lor (Z.lor ABORT RETRY) OK] else []) /\
      is_successful (taskGroup s') = b1 && b2.
Proof.
  intros desc. split.
  - unfold doGitSwitchBranchTag. cbn [getTargetedBranchTag and_then isBranchDialog].
    fold desc. destruct targetedRepos; reflexivity.
  - intros r ask b1 b2 o1 o2 g. split; [reflexivity|]. split; [reflexivity|].
    eexists. split; [vm_compute; reflexivity|].
    destruct b1, b2, ask; vm_compute; repeat split; reflexivity.
Qed.

(** ** The grouping button *)

